(** * MiniTiktokAutomationSystem: browser, login and upload workflow

    A shallow embedding of [src/browser.py], [src/login.py] and
    [src/uploader.py].  The Python code drives a Selenium browser, the file
    system, the clock and the logger; here every such effect is an explicit
    step on a [world], and every answer of the browser or of the host
    machine comes from an abstract transition system ([WebDriver],
    [Selenium], [Host]), so a statement quantified over the instances of
    these classes holds for every behaviour of the browser. *)

From Stdlib Require Import ZArith NArith String Ascii List Lia Bool DecimalString.
From stdpp Require Import base gmap strings list.

(** ** Python strings *)

Definition dq : string := String (ascii_of_nat 34) EmptyString.

(** [quoted s] is [s] between two double-quote characters. *)
Definition quoted (s : string) : string := dq +:+ s +:+ dq.

(** [str(n)] for an [int]. *)
Definition str_of_nat (n : nat) : string := NilZero.string_of_uint (Nat.to_uint n).
Definition str_of_Z (z : Z) : string := NilZero.string_of_int (Z.to_int z).

(** A [str] is held as its UTF-8 bytes: a character is one byte that is
    no continuation byte (10xxxxxx), with the continuation bytes after
    it. *)

Definition code (c : ascii) : nat := nat_of_ascii c.

Definition is_continuation (c : ascii) : bool :=
  (128 <=? code c)%nat && (code c <? 192)%nat.

(** [len(s)]: the number of characters. *)
Fixpoint len (s : string) : nat :=
  match s with
  | EmptyString => 0
  | String c r => if is_continuation c then len r else S (len r)
  end.

(** The first [n] characters. *)
Fixpoint first_chars (n : nat) (s : string) : string :=
  match s with
  | EmptyString => EmptyString
  | String c r =>
      if is_continuation c then String c (first_chars n r)
      else
        match n with
        | O => EmptyString
        | S k => String c (first_chars k r)
        end
  end.


Definition lower_ascii (c : ascii) : ascii :=
  if (65 <=? code c)%nat && (code c <=? 90)%nat then ascii_of_nat (code c + 32) else c.

(** [str.lower]: the letters A to Z, and the two other characters whose
    lower-case form holds an ASCII letter (U+0130 gives "i" and U+0307,
    the Kelvin sign U+212A gives "k").  The lower-case forms of the other
    letters hold no ASCII character; the code looks only for ASCII words
    in what [lower] returns, and these letters are left as they are. *)
Fixpoint lower (s : string) : string :=
  match s with
  | EmptyString => EmptyString
  | String c r =>
      match r with
      | String d r1 =>
          if (code c =? 196)%nat && (code d =? 176)%nat
          then String "i" (String (ascii_of_nat 204) (String (ascii_of_nat 135) (lower r1)))
          else
            match r1 with
            | String e r2 =>
                if (code c =? 226)%nat && (code d =? 132)%nat && (code e =? 170)%nat
                then String "k" (lower r2)
                else String (lower_ascii c) (lower r)
            | EmptyString => String (lower_ascii c) (lower r)
            end
      | EmptyString => String (lower_ascii c) EmptyString
      end
  end.

(** The characters [str.strip] removes are the ones [str.isspace] knows.
    Of one byte: U+0009 to U+000D, U+001C to U+0020. *)
Definition is_space (c : ascii) : bool :=
  ((9 <=? code c)%nat && (code c <=? 13)%nat)
  || ((28 <=? code c)%nat && (code c <=? 32)%nat).

(** Of two bytes: U+0085 and U+00A0. *)
Definition is_space2 (c d : ascii) : bool :=
  (code c =? 194)%nat && ((code d =? 133)%nat || (code d =? 160)%nat).

(** Of three bytes: U+1680, U+2000 to U+200A, U+2028, U+2029, U+202F,
    U+205F and U+3000. *)
Definition is_space3 (c d e : ascii) : bool :=
  ((code c =? 225)%nat && (code d =? 154)%nat && (code e =? 128)%nat)
  || ((code c =? 226)%nat && (code d =? 128)%nat
      && (((128 <=? code e)%nat && (code e <=? 138)%nat)
          || (code e =? 168)%nat || (code e =? 169)%nat || (code e =? 175)%nat))
  || ((code c =? 226)%nat && (code d =? 129)%nat && (code e =? 159)%nat)
  || ((code c =? 227)%nat && (code d =? 128)%nat && (code e =? 128)%nat).

Fixpoint lstrip (s : string) : string :=
  match s with
  | EmptyString => EmptyString
  | String c r =>
      if is_space c then lstrip r
      else
        match r with
        | String d r1 =>
            if is_space2 c d then lstrip r1
            else
              match r1 with
              | String e r2 => if is_space3 c d e then lstrip r2 else s
              | EmptyString => s
              end
        | EmptyString => s
        end
  end.

(** A string of blanks only has nothing left after [lstrip]; [rstrip]
    cuts where the rest is such a string. *)
Fixpoint rstrip (s : string) : string :=
  match s with
  | EmptyString => EmptyString
  | String c r =>
      if String.eqb (lstrip s) EmptyString then EmptyString else String c (rstrip r)
  end.

Definition strip (s : string) : string := rstrip (lstrip s).

(** [sub in s]. *)
Fixpoint contains (sub s : string) : bool :=
  String.prefix sub s
  || match s with
     | EmptyString => false
     | String _ r => contains sub r
     end.

(** [sep.join(parts)]. *)
Fixpoint join (sep : string) (parts : list string) : string :=
  match parts with
  | [] => EmptyString
  | [p] => p
  | p :: rest => p +:+ sep +:+ join sep rest
  end.

(** [s[:k]] for an [int] k: a negative bound counts from the end. *)
Definition slice_to (k : Z) (s : string) : string :=
  if (0 <=? k)%Z then first_chars (Z.to_nat k) s
  else first_chars (Z.to_nat (Z.of_nat (len s) + k)) s.

(** [a or b] on strings and on optional numbers: the first operand unless
    it is falsy ([None], the empty string, [0]). *)
Definition or_str (a : option string) (b : string) : string :=
  match a with
  | Some s => if String.eqb s EmptyString then b else s
  | None => b
  end.

Definition or_Z (a : option Z) (b : Z) : Z :=
  match a with
  | Some z => if (z =? 0)%Z then b else z
  | None => b
  end.

(** ** Exceptions, results and the trace of effects *)

(** The classes of [Exception] the code raises or receives.  Process
    signals ([KeyboardInterrupt], [SystemExit]) are no answers of the
    browser and stay outside the model. *)
Inductive exn_class :=
| WebDriverException
| NoSuchElementException
| TimeoutException
| OSError
| ValueError
| AttributeError
| TypeError
| RuntimeError
| PyException.

Record exn := Exn { exn_cls : exn_class; exn_msg : string }.

(** What a call into a library answers: a value or a raised exception. *)
Inductive result (A : Type) :=
| Ok (a : A)
| Err (e : exn).
Arguments Ok {A} a.
Arguments Err {A} e.

(** What a modelled function does: return, raise, or use up the fuel of
    one of its polling loops. *)
Inductive outcome (A : Type) :=
| Ret (a : A)
| Raise (e : exn)
| OutOfFuel.
Arguments Ret {A} a.
Arguments Raise {A} e.
Arguments OutOfFuel {A}.

Inductive level := LDebug | LInfo | LSuccess | LWarning | LError | LException.

Inductive by_ := CSS_SELECTOR | XPATH | TAG_NAME.

(** A web element is a handle the browser hands out. *)
Definition elem := nat.

Inductive jval :=
| JNull
| JBool (b : bool)
| JNum (z : Z)
| JStr (s : string)
| JOther.

(** A cookie record is a [dict]. *)
Abbreviation cookie := (gmap string jval).

(** An entry of the JSON array in the cookie file. *)
Inductive jitem :=
| JRecord (c : cookie)
| JScalar (v : jval).

(** One step of an [ActionChains] sequence. *)
Inductive action :=
| AClick (e : elem)
| AKeyDown (key : string)
| AKeyUp (key : string)
| ASendKeys (keys : string).

(** The scripts handed to [execute_script], by what they do. *)
Inductive script :=
| JsScrollToBottom
| JsQueryFileInput
| JsRemoveJoyride
| JsSetCaption (caption : string)
| JsClickPost
| JsScrollIntoView (e : elem)
| JsClick (e : elem)
| JsClosePopup.

(** What [execute_script] hands back. *)
Inductive jsval :=
| JsNull
| JsBool (b : bool)
| JsStr (s : string)
| JsElem (e : elem).

(** A command line flag of Chrome. *)
Inductive chrome_arg :=
| ArgWindowSize (width height : Z)
| ArgHeadlessNew
| ArgDisableWebSecurity
| ArgAllowInsecureContent
| ArgDisableVizCompositor
| ArgUserAgent (ua : string)
| ArgUserDataDir (path : string)
| ArgNoSandbox
| ArgDisableDevShm
| ArgDisableGpu
| ArgDisableAutomationControlled.

(** Requests to the browser session. *)
Inductive call :=
| CGet (url : string)
| CRefresh
| CCurrentUrl
| CPageSource
| CFindElement (by' : by_) (sel : string)
| CFindElements (by' : by_) (sel : string)
| CWaitPresence (secs : Z) (by' : by_) (sel : string)
| CWaitClickable (secs : Z) (by' : by_) (sel : string)
| CAddCookie (c : cookie)
| CGetCookies
| CExecuteScript (s : script)
| CPerform (acts : list action)
| CText (e : elem)
| CIsDisplayed (e : elem)
| CIsEnabled (e : elem)
| CSize (e : elem)
| CClick (e : elem)
| CSendKeys (e : elem) (keys : string).

(** Requests to the Selenium endpoint and to a driver handle, as
    [BrowserManager] issues them. *)
Inductive provision :=
| PRemote (url : string) (opts : list chrome_arg)
| PLocal (opts : list chrome_arg)
| PFileDetector (h : nat)
| PImplicitlyWait (h : nat) (secs : Z)
| PPageLoadTimeout (h : nat) (secs : Z)
| PQuit (h : nat).

(** Accesses to the file system and the random source. *)
Inductive host_op :=
| HExists (path : string)
| HResolve (path : string)
| HMkdir (path : string)
| HReadJson (path : string)
| HWriteJson (path : string) (cs : list cookie)
| HUniform (lo hi : N).

(** Everything the program does to the outside, in order. *)
Inductive event :=
| Log (lvl : level) (msg : string)
| Sleep (ms : N)
| Call (c : call)
| Provision (p : provision)
| HostOp (h : host_op).

(** ** The outside world *)

(** A browser session as a transition system: every request maps the
    state of the session to an answer and a next state.  [drv_elapsed] is
    the time, in milliseconds, the last request took. *)
Class WebDriver (B : Type) := {
  drv_get : string -> B -> result unit * B;
  drv_refresh : B -> result unit * B;
  drv_current_url : B -> result string * B;
  drv_page_source : B -> result string * B;
  (** [None] stands for a falsy answer. *)
  drv_find_element : by_ -> string -> B -> result (option elem) * B;
  drv_find_elements : by_ -> string -> B -> result (list elem) * B;
  (** [WebDriverWait(driver, secs).until(EC.presence_of_element_located(..))] *)
  drv_wait_presence : Z -> by_ -> string -> B -> result elem * B;
  (** [WebDriverWait(driver, secs).until(EC.element_to_be_clickable(..))] *)
  drv_wait_clickable : Z -> by_ -> string -> B -> result elem * B;
  drv_add_cookie : cookie -> B -> result unit * B;
  drv_get_cookies : B -> result (list cookie) * B;
  drv_execute_script : script -> B -> result jsval * B;
  drv_perform : list action -> B -> result unit * B;
  drv_text : elem -> B -> result string * B;
  drv_is_displayed : elem -> B -> result bool * B;
  drv_is_enabled : elem -> B -> result bool * B;
  drv_size : elem -> B -> result (Z * Z) * B;
  drv_click : elem -> B -> result unit * B;
  drv_send_keys : elem -> string -> B -> result unit * B;
  drv_elapsed : B -> N
}.

(** The Selenium side seen by [BrowserManager]: an endpoint to connect to
    or a local Chrome to launch, and the handles it gave out. *)
Class Selenium (P : Type) := {
  sel_remote : string -> list chrome_arg -> P -> result nat * P;
  sel_local : list chrome_arg -> P -> result nat * P;
  sel_implicitly_wait : nat -> Z -> P -> result unit * P;
  sel_page_load_timeout : nat -> Z -> P -> result unit * P;
  sel_quit : nat -> P -> result unit * P;
  sel_elapsed : P -> N
}.

(** The host machine: paths, the cookie file, the random source.
    [Path.exists] answers, or raises the [OSError] of [stat] that is not
    one of "no such file" (a name too long, a directory that may not be
    searched); [Path.resolve] answers, or raises on a path it cannot
    follow (a [ValueError] on an embedded null character, a
    [RuntimeError] on a loop of symbolic links). *)
Class Host (H : Type) := {
  host_exists : string -> H -> result bool;
  host_resolve : string -> H -> result string;
  host_mkdir : string -> H -> result unit * H;
  host_read_json : string -> H -> result (list jitem);
  host_write_json : string -> list cookie -> H -> result unit * H;
  (** [random.uniform(lo, hi)], in milliseconds *)
  host_uniform : N -> N -> H -> N * H
}.

Record world (B H : Type) := World {
  browser : B;
  host : H;
  (** [os.environ] *)
  environ : gmap string string;
  (** [time.time()], in milliseconds *)
  clock : N;
  trace : list event
}.
Arguments World {B H}.
Arguments browser {B H}.
Arguments host {B H}.
Arguments environ {B H}.
Arguments clock {B H}.
Arguments trace {B H}.

(** ** A state and exception monad *)

Definition M (S A : Type) : Type := S -> outcome A * S.

Definition ret {S A} (a : A) : M S A := fun s => (Ret a, s).

(** What follows a first part [r]: the continuation on a returned value;
    an exception and the end of the fuel pass through. *)
Definition bind_k {S A C} (k : A -> M S C) (r : outcome A * S) : outcome C * S :=
  match r with
  | (Ret a, s') => k a s'
  | (Raise e, s') => (Raise e, s')
  | (OutOfFuel, s') => (OutOfFuel, s')
  end.

Definition bind {S A C} (m : M S A) (k : A -> M S C) : M S C :=
  fun s => bind_k k (m s).

Definition raise {S A} (e : exn) : M S A := fun s => (Raise e, s).

Definition out_of_fuel {S A} : M S A := fun s => (OutOfFuel, s).

(** What an [except] clause makes of the outcome [r] of the [try] body. *)
Definition try_k {S A} (handler : exn -> M S A) (r : outcome A * S) : outcome A * S :=
  match r with
  | (Raise e, s') => handler e s'
  | r => r
  end.

(** [try: body except: handler] (a handler for every [Exception]). *)
Definition try_except {S A} (body : M S A) (handler : exn -> M S A) : M S A :=
  fun s => try_k handler (body s).

Definition try_cls_k {S A} (cls : exn_class -> bool) (handler : exn -> M S A)
    (r : outcome A * S) : outcome A * S :=
  match r with
  | (Raise e, s') => if cls (exn_cls e) then handler e s' else (Raise e, s')
  | r => r
  end.

(** [try: body except cls: handler]: other classes propagate. *)
Definition try_except_cls {S A} (cls : exn_class -> bool)
    (body : M S A) (handler : exn -> M S A) : M S A :=
  fun s => try_cls_k cls handler (body s).

Declare Scope monad_scope.
Delimit Scope monad_scope with monad.
Notation "x <- m ;; k" := (bind m (fun x => k))
  (at level 100, m at next level, k at level 200, right associativity) : monad_scope.
Notation "m ;; k" := (bind m (fun _ => k))
  (at level 100, k at level 200, right associativity) : monad_scope.
Open Scope monad_scope.

Section Effects.
Context {B H : Type} `{WebDriver B} `{Host H}.

Definition emit (ev : event) : M (world B H) unit :=
  fun w => (Ret tt, World (browser w) (host w) (environ w) (clock w) (trace w ++ [ev])).

(** [logger.<level>(msg)] *)
Definition log (lvl : level) (msg : string) : M (world B H) unit :=
  emit (Log lvl msg).

(** [time.sleep(ms / 1000)] *)
Definition sleep (ms : N) : M (world B H) unit :=
  fun w =>
    (Ret tt, World (browser w) (host w) (environ w) (clock w + ms) (trace w ++ [Sleep ms])).

(** [time.time()] *)
Definition now : M (world B H) N := fun w => (Ret (clock w), w).

(** [os.environ.get(name)] *)
Definition getenv (name : string) : M (world B H) (option string) :=
  fun w => (Ret (environ w !! name), w).

Definition of_result {A} (r : result A) : outcome A :=
  match r with
  | Ok a => Ret a
  | Err e => Raise e
  end.

(** A request to the browser: recorded, answered by the session, and
    the clock moves by the time it took. *)
Definition request {A} (c : call) (op : B -> result A * B) : M (world B H) A :=
  fun w =>
    let '(r, b) := op (browser w) in
    (of_result r,
     World b (host w) (environ w) (clock w + drv_elapsed b) (trace w ++ [Call c])).

(** An access to the host that may change it. *)
Definition host_request {A} (h : host_op) (op : H -> result A * H) : M (world B H) A :=
  fun w =>
    let '(r, h') := op (host w) in
    (of_result r,
     World (browser w) h' (environ w) (clock w) (trace w ++ [HostOp h])).

(** A read of the host. *)
Definition host_read {A} (h : host_op) (op : H -> result A) : M (world B H) A :=
  fun w =>
    (of_result (op (host w)),
     World (browser w) (host w) (environ w) (clock w) (trace w ++ [HostOp h])).

Definition get (url : string) := request (CGet url) (drv_get url).
Definition refresh := request CRefresh drv_refresh.
Definition current_url := request CCurrentUrl drv_current_url.
Definition page_source := request CPageSource drv_page_source.
Definition find_element (by' : by_) (sel : string) :=
  request (CFindElement by' sel) (drv_find_element by' sel).
Definition find_elements (by' : by_) (sel : string) :=
  request (CFindElements by' sel) (drv_find_elements by' sel).
Definition wait_presence (secs : Z) (by' : by_) (sel : string) :=
  request (CWaitPresence secs by' sel) (drv_wait_presence secs by' sel).
Definition wait_clickable (secs : Z) (by' : by_) (sel : string) :=
  request (CWaitClickable secs by' sel) (drv_wait_clickable secs by' sel).
Definition add_cookie (c : cookie) := request (CAddCookie c) (drv_add_cookie c).
Definition get_cookies := request CGetCookies drv_get_cookies.
Definition execute_script (s : script) := request (CExecuteScript s) (drv_execute_script s).
Definition perform (acts : list action) := request (CPerform acts) (drv_perform acts).
Definition text (e : elem) := request (CText e) (drv_text e).
Definition is_displayed (e : elem) := request (CIsDisplayed e) (drv_is_displayed e).
Definition is_enabled (e : elem) := request (CIsEnabled e) (drv_is_enabled e).
Definition size_of (e : elem) := request (CSize e) (drv_size e).
Definition click (e : elem) := request (CClick e) (drv_click e).
Definition send_keys (e : elem) (keys : string) :=
  request (CSendKeys e keys) (drv_send_keys e keys).

(** [Path(p).exists()] *)
Definition path_exists (p : string) : M (world B H) bool :=
  host_read (HExists p) (host_exists p).
(** [Path(p).resolve()] *)
Definition path_resolve (p : string) : M (world B H) string :=
  host_read (HResolve p) (host_resolve p).
(** [Path(p).mkdir(parents=True, exist_ok=True)] *)
Definition mkdir (p : string) := host_request (HMkdir p) (host_mkdir p).
(** [json.load(open(p))] *)
Definition read_json (p : string) := host_read (HReadJson p) (host_read_json p).
(** [json.dump(cs, open(p, "w"), indent=2)] *)
Definition write_json (p : string) (cs : list cookie) :=
  host_request (HWriteJson p cs) (host_write_json p cs).
(** [random.uniform(lo, hi)] *)
Definition uniform (lo hi : N) : M (world B H) N :=
  host_request (HUniform lo hi)
    (fun h => let '(x, h') := host_uniform lo hi h in (Ok x, h')).
End Effects.

(** ** Configuration *)

(** The application configuration, a nested [dict] read with
    [.get(key, default)]: an absent key is [None]. *)
Record config := Config {
  cfg_base_url : option string;
  cfg_login_url : option string;
  cfg_upload_url : option string;
  cfg_upload_timeout : option Z;
  cfg_max_title_length : option Z;
  (** delays, in milliseconds *)
  cfg_min_delay : option N;
  cfg_max_delay : option N;
  cfg_typing_delay : option N
}.

(** The browser section of the configuration. *)
Record browser_config := BrowserConfig {
  bc_width : option Z;
  bc_height : option Z;
  bc_headless : option bool;
  bc_user_agent : option string;
  bc_user_data_dir : option string;
  bc_implicit_wait : option Z;
  bc_page_load_timeout : option Z
}.

(** [d.get(key, default)] *)
Definition get_or {A} (o : option A) (d : A) : A :=
  match o with
  | Some a => a
  | None => d
  end.

(** * browser.py *)
Module Browser.
(** The [BrowserManager] object next to the world it acts on:
    [self.driver] and [self.is_remote] ([None] before [create_driver]
    set it). *)
Record manager (P H : Type) := Manager {
  driver : option nat;
  is_remote : option bool;
  outside : world P H
}.
Arguments Manager {P H}.
Arguments driver {P H}.
Arguments is_remote {P H}.
Arguments outside {P H}.

Section BrowserManager.
Context {P H : Type} `{Selenium P} `{Host H}.
(** [self.config] *)
Variable cfg : browser_config.

(** An effect on the world, run from a method of the manager. *)
Definition lift {A} (m : M (world P H) A) : M (manager P H) A :=
  fun s =>
    let '(r, w) := m (outside s) in
    (r, Manager (driver s) (is_remote s) w).

Definition get_driver : M (manager P H) (option nat) :=
  fun s => (Ret (driver s), s).
Definition set_driver (d : option nat) : M (manager P H) unit :=
  fun s => (Ret tt, Manager d (is_remote s) (outside s)).
Definition set_is_remote (r : bool) : M (manager P H) unit :=
  fun s => (Ret tt, Manager (driver s) (Some r) (outside s)).

(** A request to the Selenium side. *)
Definition provision_request {A} (p : provision) (op : P -> result A * P)
    : M (manager P H) A :=
  lift (fun w =>
    let '(r, b) := op (browser w) in
    (of_result r,
     World b (host w) (environ w) (clock w + sel_elapsed b) (trace w ++ [Provision p]))).

Definition max_retries : nat := 30.

(** The [for attempt in range(max_retries)] loop of [create_driver]:
    [remaining] iterations are left and this one is number [attempt]. *)
Fixpoint connect_loop (selenium_url : string) (chrome_options : list chrome_arg)
    (remaining attempt : nat) : M (manager P H) unit :=
  match remaining with
  | O => ret tt
  | S remaining' =>
      connected <-
        try_except
          (h <- provision_request (PRemote selenium_url chrome_options)
                  (sel_remote selenium_url chrome_options) ;;
           set_driver (Some h) ;;
           ret true)
          (fun e =>
             if (attempt <? max_retries - 1)%nat then
               lift (log LInfo ("Waiting for Selenium... (" +:+ str_of_nat (attempt + 1)
                                +:+ "/" +:+ str_of_nat max_retries +:+ ")")) ;;
               lift (sleep 2000) ;;
               ret false
             else
               raise (Exn PyException
                        ("Could not connect to Selenium after " +:+ str_of_nat max_retries
                         +:+ " attempts: " +:+ exn_msg e))) ;;
      if connected then ret tt
      else connect_loop selenium_url chrome_options remaining' (S attempt)
  end.

(** [self.driver.<method>(..)]: an [AttributeError] on [None]. *)
Definition with_driver {A} (k : nat -> M (manager P H) A) : M (manager P H) A :=
  d <- get_driver ;;
  match d with
  | Some h => k h
  | None => raise (Exn AttributeError "'NoneType' object has no attribute")
  end.

Definition default_user_agent : string :=
  "Mozilla/5.0 (Macintosh; Intel Mac OS X 10_15_7) AppleWebKit/537.36 (KHTML, like Gecko) Chrome/120.0.0.0 Safari/537.36".

Definition create_driver : M (manager P H) nat :=
  lift (log LInfo "Initializing Chrome browser...") ;;
  let width := get_or (bc_width cfg) 1920%Z in
  let height := get_or (bc_height cfg) 1080%Z in
  let options := [ArgWindowSize width height] in
  options <-
    (if get_or (bc_headless cfg) false then
       lift (log LInfo "Running in headless mode") ;;
       ret (options ++ [ArgHeadlessNew; ArgDisableWebSecurity; ArgAllowInsecureContent;
                        ArgDisableVizCompositor;
                        ArgUserAgent (get_or (bc_user_agent cfg) default_user_agent)])
     else ret options) ;;
  env_dir <- lift (getenv "CHROME_USER_DATA_DIR") ;;
  let user_data_dir := or_str env_dir (or_str (bc_user_data_dir cfg) "./chrome_data") in
  user_data_path <- lift (path_resolve user_data_dir) ;;
  lift (mkdir user_data_path) ;;
  let options := options ++ [ArgUserDataDir user_data_path] in
  lift (log LInfo ("Using user data directory: " +:+ user_data_path)) ;;
  let options := options ++ [ArgNoSandbox; ArgDisableDevShm; ArgDisableGpu;
                             ArgDisableAutomationControlled] in
  selenium_url <- lift (getenv "SELENIUM_REMOTE_URL") ;;
  (if String.eqb (or_str selenium_url EmptyString) EmptyString then
     h <- provision_request (PLocal options) (sel_local options) ;;
     set_driver (Some h) ;;
     set_is_remote false
   else
     let url := or_str selenium_url EmptyString in
     lift (log LInfo ("Using remote Selenium at " +:+ url)) ;;
     let chrome_options := [ArgNoSandbox; ArgDisableDevShm; ArgWindowSize width height] in
     connect_loop url chrome_options max_retries 0 ;;
     with_driver (fun h => lift (emit (Provision (PFileDetector h)))) ;;
     set_is_remote true) ;;
  with_driver (fun h =>
    provision_request (PImplicitlyWait h (get_or (bc_implicit_wait cfg) 10%Z))
      (sel_implicitly_wait h (get_or (bc_implicit_wait cfg) 10%Z))) ;;
  with_driver (fun h =>
    provision_request (PPageLoadTimeout h (get_or (bc_page_load_timeout cfg) 60%Z))
      (sel_page_load_timeout h (get_or (bc_page_load_timeout cfg) 60%Z))) ;;
  lift (log LSuccess "Browser initialized successfully") ;;
  with_driver (fun h => ret h).

Definition close : M (manager P H) unit :=
  d <- get_driver ;;
  match d with
  | Some h =>
      lift (log LInfo "Closing browser...") ;;
      try_except
        (provision_request (PQuit h) (sel_quit h))
        (fun e => lift (log LWarning ("Error closing browser: " +:+ exn_msg e))) ;;
      set_driver None
  | None => ret tt
  end.
End BrowserManager.
End Browser.

(** * login.py *)
Module Login.
Section LoginManager.
Context {B H : Type} `{WebDriver B} `{Host H}.
(** [self.config] *)
Variable cfg : config.

Definition COOKIE_FILE : string := "data/cookies/tiktok_cookies.json".

(** [self.base_url] *)
Definition base_url : string := get_or (cfg_base_url cfg) "https://www.tiktok.com".

Definition login_indicators : list string :=
  [ "[data-e2e=" +:+ quoted "profile-icon" +:+ "]";
    "[data-e2e=" +:+ quoted "nav-profile" +:+ "]";
    "a[href*=" +:+ quoted "/profile" +:+ "]" ].

(** The [for selector in login_indicators] loop of [is_logged_in];
    [Some b] when the loop body ran [return b]. *)
Fixpoint probe_indicators (selectors : list string) : M (world B H) (option bool) :=
  match selectors with
  | [] => ret None
  | selector :: rest =>
      r <- try_except
             (element <- find_element CSS_SELECTOR selector ;;
              match element with
              | Some _ => log LInfo "User is logged in" ;; ret (Some true)
              | None => ret None
              end)
             (fun _ => ret None) ;;
      match r with
      | Some b => ret (Some b)
      | None => probe_indicators rest
      end
  end.

Definition is_logged_in : M (world B H) bool :=
  try_except
    (get base_url ;;
     sleep 3000 ;;
     r <- probe_indicators login_indicators ;;
     match r with
     | Some b => ret b
     | None => log LWarning "User is not logged in" ;; ret false
     end)
    (fun e => log LError ("Error checking login status: " +:+ exn_msg e) ;; ret false).

(** [cookie.pop("sameSite", None); cookie.pop("storeId", None)] *)
Definition strip_fields (c : cookie) : cookie :=
  delete "storeId" (delete "sameSite" c).

(** The [for cookie in cookies] loop of [load_cookies]. *)
Fixpoint inject_cookies (cookies : list jitem) : M (world B H) unit :=
  match cookies with
  | [] => ret tt
  | JRecord c :: rest =>
      try_except
        (add_cookie (strip_fields c))
        (fun e => log LDebug ("Could not add cookie: " +:+ exn_msg e)) ;;
      inject_cookies rest
  | JScalar v :: _ =>
      (* an entry that is no dict has no two-argument pop *)
      raise (Exn (match v with JOther => TypeError | _ => AttributeError end)
                 "object has no attribute 'pop'")
  end.

Definition load_cookies (cookie_file : option string) : M (world B H) bool :=
  let cookie_path := or_str cookie_file COOKIE_FILE in
  present <- path_exists cookie_path ;;
  if negb present then
    log LWarning ("Cookie file not found: " +:+ cookie_path) ;;
    ret false
  else
    try_except
      (get base_url ;;
       sleep 2000 ;;
       cookies <- read_json cookie_path ;;
       inject_cookies cookies ;;
       log LInfo ("Loaded " +:+ str_of_nat (length cookies) +:+ " cookies from "
                  +:+ cookie_path) ;;
       refresh ;;
       sleep 3000 ;;
       ret true)
      (fun e => log LError ("Error loading cookies: " +:+ exn_msg e) ;; ret false).

(** [Path(p).parent]: the path without its last component. *)
Fixpoint path_parent_aux (s : string) : option string :=
  match s with
  | EmptyString => None
  | String c r =>
      match path_parent_aux r with
      | Some p => Some (String c p)
      | None => if Ascii.eqb c "/" then Some EmptyString else None
      end
  end.

Definition path_parent (s : string) : string :=
  match path_parent_aux s with
  | Some EmptyString => "/"
  | Some p => p
  | None => "."
  end.

Definition save_cookies (cookie_file : option string) : M (world B H) bool :=
  let cookie_path := or_str cookie_file COOKIE_FILE in
  mkdir (path_parent cookie_path) ;;
  try_except
    (cookies <- get_cookies ;;
     write_json cookie_path cookies ;;
     log LInfo ("Saved " +:+ str_of_nat (length cookies) +:+ " cookies to "
                +:+ cookie_path) ;;
     ret true)
    (fun e => log LError ("Error saving cookies: " +:+ exn_msg e) ;; ret false).

(** The [while time.time() - start_time < timeout] loop of
    [manual_login]; [fuel] bounds the number of polls. *)
Fixpoint manual_login_loop (fuel : nat) (start_time : N) (timeout : Z)
    : M (world B H) bool :=
  t <- now ;;
  if (Z.of_N (t - start_time) <? 1000 * timeout)%Z then
    match fuel with
    | O => out_of_fuel
    | S fuel' =>
        logged_in <- is_logged_in ;;
        if logged_in then
          log LSuccess "Login successful!" ;;
          save_cookies None ;;
          ret true
        else
          sleep 5000 ;;
          manual_login_loop fuel' start_time timeout
    end
  else
    log LError "Login timeout exceeded" ;;
    ret false.

Definition manual_login (fuel : nat) (timeout : Z) : M (world B H) bool :=
  let login_url := get_or (cfg_login_url cfg) "https://www.tiktok.com/login" in
  log LInfo "Opening TikTok login page..." ;;
  log LInfo "Please login manually in the browser window" ;;
  get login_url ;;
  start_time <- now ;;
  manual_login_loop fuel start_time timeout.

Definition ensure_logged_in (fuel : nat) : M (world B H) bool :=
  remote <- getenv "SELENIUM_REMOTE_URL" ;;
  let is_docker := match remote with Some _ => true | None => false end in
  if is_docker then
    log LInfo "Docker mode: loading cookies..." ;;
    loaded <- load_cookies None ;;
    if negb loaded then
      log LError "No cookies found! Run 'python src/export_cookies.py' locally first" ;;
      ret false
    else
      logged_in <- is_logged_in ;;
      if logged_in then
        log LInfo "Successfully logged in via cookies" ;;
        ret true
      else
        log LError "Cookies loaded but login failed" ;;
        log LError "Try re-exporting cookies with 'python src/export_cookies.py'" ;;
        ret false
  else
    logged_in <- is_logged_in ;;
    if logged_in then ret true
    else
      loaded <- load_cookies None ;;
      restored <- (if loaded then is_logged_in else ret false) ;;
      if restored then ret true
      else
        log LInfo "Automatic login failed, manual login required" ;;
        manual_login fuel 120.
End LoginManager.
End Login.

(** * uploader.py *)
Module Uploader.
Section TikTokUploader.
Context {B H : Type} `{WebDriver B} `{Host H}.
(** [self.config] *)
Variable cfg : config.

(** [self.upload_url] *)
Definition upload_url : string :=
  get_or (cfg_upload_url cfg) "https://www.tiktok.com/creator-center/upload".

Definition or_N (a : option N) (b : N) : N :=
  match a with
  | Some n => if (n =? 0)%N then b else n
  | None => b
  end.

Definition _random_delay (min_delay max_delay : option N) : M (world B H) unit :=
  let min_d := or_N min_delay (get_or (cfg_min_delay cfg) 1000%N) in
  let max_d := or_N max_delay (get_or (cfg_max_delay cfg) 3000%N) in
  delay <- uniform min_d max_d ;;
  sleep delay.



(** Truth value of what a script or a lookup handed back. *)
Definition js_truthy (v : jsval) : bool :=
  match v with
  | JsNull => false
  | JsBool b => b
  | JsStr s => negb (String.eqb s EmptyString)
  | JsElem _ => true
  end.

Definition file_input_selectors : list string :=
  [ "input[type=" +:+ quoted "file" +:+ "]";
    "input[accept*=" +:+ quoted "video" +:+ "]";
    "[data-e2e=" +:+ quoted "upload-input" +:+ "]";
    "input[accept*=" +:+ quoted "mp4" +:+ "]";
    "input.upload-input" ].

Definition is_timeout (c : exn_class) : bool :=
  match c with
  | TimeoutException => true
  | _ => false
  end.

(** The selector loop of [_find_file_input]. *)
Fixpoint find_file_input_loop (selectors : list string) : M (world B H) (option elem) :=
  match selectors with
  | [] => ret None
  | selector :: rest =>
      r <- try_except_cls is_timeout
             (log LDebug ("Trying selector: " +:+ selector) ;;
              element <- wait_presence 20 CSS_SELECTOR selector ;;
              log LInfo ("Found file input: " +:+ selector) ;;
              ret (Some element))
             (fun _ => log LDebug ("Selector not found: " +:+ selector) ;; ret None) ;;
      match r with
      | Some element => ret (Some element)
      | None => find_file_input_loop rest
      end
  end.

(** [s.count(sub)]: occurrences of a non-empty [sub], not overlapping. *)
Fixpoint count_from (sub : string) (skip : nat) (s : string) : nat :=
  match s with
  | EmptyString => 0
  | String _ r =>
      match skip with
      | S k => count_from sub k r
      | O =>
          if String.prefix sub s
          then S (count_from sub (String.length sub - 1) r)
          else count_from sub 0 r
      end
  end.

Definition _find_file_input : M (world B H) jsval :=
  log LInfo "Waiting for page to load..." ;;
  sleep 5000 ;;
  url <- current_url ;;
  log LInfo ("Current URL: " +:+ url) ;;
  found <- find_file_input_loop file_input_selectors ;;
  match found with
  | Some element => ret (JsElem element)
  | None =>
      r <- try_except
             (log LInfo "Trying JavaScript fallback..." ;;
              element <- execute_script JsQueryFileInput ;;
              if js_truthy element then
                log LInfo "Found file input via JavaScript" ;;
                ret (Some element)
              else ret None)
             (fun e => log LDebug ("JavaScript fallback failed: " +:+ exn_msg e) ;;
                       ret None) ;;
      match r with
      | Some element => ret element
      | None =>
          try_except
            (page <- page_source ;;
             if contains "input" (lower page) then
               log LInfo "Page contains 'input' elements" ;;
               let count := count_from ("type=" +:+ quoted "file") 0 (lower page) in
               log LInfo ("Found " +:+ str_of_nat count +:+ " file input(s) in page source")
             else ret tt)
            (fun _ => ret tt) ;;
          ret JsNull
      end
  end.

Definition post_detected_msg (count : nat) : string :=
  "Post button detected (count: " +:+ str_of_nat count +:+ ")".
Definition upload_completed_msg : string := "Upload completed (Post button stable)".
Definition edit_cover_msg : string := "Found 'Edit cover' - video uploaded".
Definition in_progress_msg (text : string) : string := "Upload in progress: " +:+ text.
Definition upload_timed_out_msg : string :=
  "Upload wait timed out, but continuing anyway...".

(** [for button in buttons] in [_wait_for_upload]: the value returned
    from inside the loop, if any, and [post_found_count]. *)
Fixpoint scan_buttons (buttons : list elem) (post_found_count : nat)
    : M (world B H) (option bool * nat) :=
  match buttons with
  | [] => ret (None, post_found_count)
  | button :: rest =>
      r <- try_except
             (t <- text button ;;
              let btn_text := lower (strip t) in
              is_post <-
                (if String.eqb btn_text "post" then
                   displayed <- is_displayed button ;;
                   if displayed then is_enabled button else ret false
                 else ret false) ;;
              if is_post then
                let post_found_count := S post_found_count in
                log LInfo (post_detected_msg post_found_count) ;;
                if (3 <=? post_found_count)%nat then
                  log LInfo upload_completed_msg ;;
                  sleep 2000 ;;
                  ret (Some true, post_found_count)
                else ret (None, post_found_count)
              else ret (None, post_found_count))
             (fun _ => ret (None, post_found_count)) ;;
      match r with
      | (Some b, count) => ret (Some b, count)
      | (None, count) => scan_buttons rest count
      end
  end.

(** [any(e.is_displayed() for e in elements)] *)
Fixpoint any_displayed (elements : list elem) : M (world B H) bool :=
  match elements with
  | [] => ret false
  | e :: rest =>
      displayed <- is_displayed e ;;
      if displayed then ret true else any_displayed rest
  end.

Definition edit_cover_xpath : string :=
  "//*[contains(text(), " +:+ quoted "Edit cover" +:+ ")]".
Definition percent_xpath : string :=
  "//*[contains(text(), " +:+ quoted "%" +:+ ")]".

Definition check_edit_cover (post_found_count : nat) : M (world B H) nat :=
  try_except
    (edit_cover <- find_elements XPATH edit_cover_xpath ;;
     shown <- (match edit_cover with
               | [] => ret false
               | _ => any_displayed edit_cover
               end) ;;
     if shown then
       log LInfo edit_cover_msg ;;
       ret (S post_found_count)
     else ret post_found_count)
    (fun _ => ret post_found_count).

(** [for p in progress]: an exception of [p.text] ends the loop (the
    enclosing [except: pass]) with the count reached so far. *)
Fixpoint scan_progress (progress : list elem) (post_found_count : nat)
    : M (world B H) nat :=
  match progress with
  | [] => ret post_found_count
  | p :: rest =>
      r <- try_except (t <- text p ;; ret (Some (strip t))) (fun _ => ret None) ;;
      match r with
      | None => ret post_found_count
      | Some text =>
          if contains "%" text && negb (String.eqb text "100%") then
            log LInfo (in_progress_msg text) ;;
            scan_progress rest 0
          else scan_progress rest post_found_count
      end
  end.

Definition check_progress (post_found_count : nat) : M (world B H) nat :=
  try_except
    (progress <- find_elements XPATH percent_xpath ;;
     scan_progress progress post_found_count)
    (fun _ => ret post_found_count).

(** One pass of the body of the [while] loop of [_wait_for_upload]. *)
Definition upload_poll (post_found_count : nat) : M (world B H) (option bool * nat) :=
  r <- try_except
         (buttons <- find_elements TAG_NAME "button" ;;
          scan_buttons buttons post_found_count)
         (fun _ => ret (None, post_found_count)) ;;
  match r with
  | (Some b, count) => ret (Some b, count)
  | (None, count) =>
      count <- check_edit_cover count ;;
      count <- check_progress count ;;
      sleep 3000 ;;
      ret (None, count)
  end.

(** The [while time.time() - start_time < timeout] loop: [Some b] when
    the body returned [b], [None] when the condition became false. *)
Fixpoint wait_upload_loop (fuel : nat) (start_time : N) (timeout : Z)
    (post_found_count : nat) : M (world B H) (option bool) :=
  t <- now ;;
  if (Z.of_N (t - start_time) <? 1000 * timeout)%Z then
    match fuel with
    | O => out_of_fuel
    | S fuel' =>
        r <- upload_poll post_found_count ;;
        match r with
        | (Some b, _) => ret (Some b)
        | (None, count) => wait_upload_loop fuel' start_time timeout count
        end
    end
  else ret None.

Definition upload_timeout (timeout : option Z) : Z :=
  or_Z timeout (get_or (cfg_upload_timeout cfg) 300%Z).

Definition _wait_for_upload (fuel : nat) (timeout : option Z) : M (world B H) bool :=
  let timeout := upload_timeout timeout in
  log LInfo ("Waiting for upload (timeout: " +:+ str_of_Z timeout +:+ "s)...") ;;
  start_time <- now ;;
  r <- wait_upload_loop fuel start_time timeout 0 ;;
  match r with
  | Some b => ret b
  | None => log LWarning upload_timed_out_msg ;; ret true
  end.

(** The caption [_fill_caption] builds from the title and the tags. *)
Definition compose_caption (title : string) (tags : list string) : string :=
  let caption_parts :=
    (if String.eqb title EmptyString then [] else [title])
    ++ match tags with
       | [] => []
       | _ => [join " " (map (fun tag => "#" +:+ tag) tags)]
       end in
  join " " caption_parts.

Definition max_title_length : Z := get_or (cfg_max_title_length cfg) 150%Z.

(** [if len(full_caption) > max_length:
       full_caption = full_caption[:max_length-3] + "..."] *)
Definition truncate_caption (max_length : Z) (full_caption : string) : string :=
  if (max_length <? Z.of_nat (len full_caption))%Z
  then slice_to (max_length - 3) full_caption +:+ "..."
  else full_caption.

Definition caption_selectors : list string :=
  [ "div.public-DraftEditor-content";
    ".DraftEditor-editorContainer div[contenteditable=" +:+ quoted "true" +:+ "]";
    "div[contenteditable=" +:+ quoted "true" +:+ "][data-text=" +:+ quoted "true" +:+ "]";
    "[data-e2e=" +:+ quoted "caption-input" +:+ "]";
    ".caption-input [contenteditable=" +:+ quoted "true" +:+ "]";
    "div[contenteditable=" +:+ quoted "true" +:+ "]" ].

Definition str_of_bool (b : bool) : string := if b then "True" else "False".

(** [for i, element in enumerate(elements)] in [_fill_caption];
    [Some tt] when the body returned. *)
Fixpoint fill_elements (full_caption : string) (i : nat) (elements : list elem)
    : M (world B H) (option unit) :=
  match elements with
  | [] => ret None
  | element :: rest =>
      r <- try_except
             (visible <- is_displayed element ;;
              size <- size_of element ;;
              log LInfo ("  Element " +:+ str_of_nat i +:+ ": visible=" +:+ str_of_bool visible
                         +:+ ", size={'height': " +:+ str_of_Z (fst size)
                         +:+ ", 'width': " +:+ str_of_Z (snd size) +:+ "}") ;;
              if negb visible then ret None
              else
                click element ;;
                sleep 500 ;;
                perform [AClick element; AKeyDown "CONTROL"; ASendKeys "a";
                         AKeyUp "CONTROL"; ASendKeys "BACKSPACE"] ;;
                sleep 300 ;;
                send_keys element full_caption ;;
                log LInfo ("Caption added: " +:+ slice_to 50 full_caption +:+ "...") ;;
                ret (Some tt))
             (fun e =>
                log LWarning ("Element " +:+ str_of_nat i +:+ " interaction failed: "
                              +:+ exn_msg e) ;;
                ret None) ;;
      match r with
      | Some u => ret (Some u)
      | None => fill_elements full_caption (S i) rest
      end
  end.

(** [for selector in caption_selectors] *)
Fixpoint fill_selectors (full_caption : string) (selectors : list string)
    : M (world B H) (option unit) :=
  match selectors with
  | [] => ret None
  | selector :: rest =>
      r <- try_except
             (elements <- find_elements CSS_SELECTOR selector ;;
              log LInfo ("Selector '" +:+ selector +:+ "' found "
                         +:+ str_of_nat (length elements) +:+ " elements") ;;
              fill_elements full_caption 0 elements)
             (fun e =>
                log LDebug ("Caption selector " +:+ selector +:+ " failed: " +:+ exn_msg e) ;;
                ret None) ;;
      match r with
      | Some u => ret (Some u)
      | None => fill_selectors full_caption rest
      end
  end.

Definition is_js_str (v : jsval) (s : string) : bool :=
  match v with
  | JsStr s' => String.eqb s' s
  | _ => false
  end.

Definition _fill_caption (title : string) (tags : list string) : M (world B H) unit :=
  let full_caption := compose_caption title tags in
  if String.eqb full_caption EmptyString then log LInfo "No caption to add"
  else
    let max_length := max_title_length in
    (if (max_length <? Z.of_nat (len full_caption))%Z
     then log LWarning ("Caption truncated to " +:+ str_of_Z max_length +:+ " characters")
     else ret tt) ;;
    let full_caption := truncate_caption max_length full_caption in
    sleep 3000 ;;
    try_except
      (execute_script JsRemoveJoyride ;;
       log LInfo "Removed joyride overlay if present" ;;
       sleep 1000)
      (fun _ => ret tt) ;;
    log LInfo ("Attempting to fill caption: " +:+ slice_to 30 full_caption +:+ "...") ;;
    filled <- fill_selectors full_caption caption_selectors ;;
    match filled with
    | Some _ => ret tt
    | None =>
        r <- try_except
               (log LInfo "Trying JavaScript to set caption..." ;;
                result <- execute_script (JsSetCaption full_caption) ;;
                if is_js_str result "success" then
                  log LInfo ("Caption added via JavaScript: " +:+ slice_to 50 full_caption
                             +:+ "...") ;;
                  ret (Some tt)
                else ret None)
               (fun e => log LDebug ("JavaScript caption failed: " +:+ exn_msg e) ;;
                         ret None) ;;
        match r with
        | Some _ => ret tt
        | None => log LWarning "Could not find caption input element"
        end
    end.

(** [find_element] by XPath for a selector starting with [//], by CSS
    otherwise. *)
Definition by_of_selector (selector : string) : by_ :=
  if String.prefix "//" selector then XPATH else CSS_SELECTOR.

Definition turn_on_selectors : list string :=
  [ "//button[text()=" +:+ quoted "Turn on" +:+ "]";
    "//button[.//text()=" +:+ quoted "Turn on" +:+ "]";
    "//div[text()=" +:+ quoted "Turn on" +:+ "]/ancestor::button";
    "button.TUXButton--primary" ].

Fixpoint turn_on_loop (selectors : list string) : M (world B H) (option unit) :=
  match selectors with
  | [] => ret None
  | selector :: rest =>
      r <- try_except
             (btn <- find_element (by_of_selector selector) selector ;;
              match btn with
              | Some b =>
                  displayed <- is_displayed b ;;
                  if displayed then
                    t <- text b ;;
                    if contains "turn on" (lower t) then
                      click b ;;
                      log LInfo "Clicked 'Turn on' for automatic content checks" ;;
                      sleep 1000 ;;
                      ret (Some tt)
                    else ret None
                  else ret None
              | None => ret None
              end)
             (fun _ => ret None) ;;
      match r with
      | Some u => ret (Some u)
      | None => turn_on_loop rest
      end
  end.

Definition _handle_content_check_popup : M (world B H) unit :=
  sleep 1000 ;;
  try_except
    (r <- turn_on_loop turn_on_selectors ;;
     match r with
     | Some _ => ret tt
     | None =>
         try_except
           (cancel_btn <- find_element XPATH ("//button[text()=" +:+ quoted "Cancel" +:+ "]") ;;
            match cancel_btn with
            | Some b =>
                displayed <- is_displayed b ;;
                if displayed then
                  click b ;;
                  log LInfo "Clicked 'Cancel' for content checks popup" ;;
                  sleep 500
                else ret tt
            | None => ret tt
            end)
           (fun _ => ret tt)
     end)
    (fun e => log LDebug ("No content check popup found: " +:+ exn_msg e)).

Definition str_of_jsval (v : jsval) : string :=
  match v with
  | JsNull => "None"
  | JsBool b => str_of_bool b
  | JsStr s => s
  | JsElem _ => "<WebElement>"
  end.

(** The loop over the buttons of the page in [_click_post_button]. *)
Fixpoint click_post_buttons (buttons : list elem) : M (world B H) (option bool) :=
  match buttons with
  | [] => ret None
  | button :: rest =>
      r <- try_except
             (t <- text button ;;
              let btn_text := lower (strip t) in
              if String.eqb btn_text "post" then
                execute_script (JsScrollIntoView button) ;;
                sleep 500 ;;
                try_except
                  (click button ;;
                   log LInfo "Post button clicked" ;;
                   ret (Some true))
                  (fun _ =>
                     execute_script (JsClick button) ;;
                     log LInfo "Post button clicked via JS fallback" ;;
                     ret (Some true))
              else ret None)
             (fun _ => ret None) ;;
      match r with
      | Some b => ret (Some b)
      | None => click_post_buttons rest
      end
  end.

Definition post_selectors : list string :=
  [ "//button[.//div[text()=" +:+ quoted "Post" +:+ "]]";
    "//button[text()=" +:+ quoted "Post" +:+ "]";
    "//button[contains(text(), " +:+ quoted "Post" +:+ ")]";
    "button.TUXButton--primary";
    "[data-e2e=" +:+ quoted "post-button" +:+ "]" ].

Fixpoint post_selector_loop (selectors : list string) : M (world B H) (option bool) :=
  match selectors with
  | [] => ret None
  | selector :: rest =>
      r <- try_except
             (log LDebug ("Trying Post selector: " +:+ selector) ;;
              button <- wait_clickable 5 (by_of_selector selector) selector ;;
              execute_script (JsClick button) ;;
              log LInfo ("Post button clicked via " +:+ selector) ;;
              ret (Some true))
             (fun _ => ret None) ;;
      match r with
      | Some b => ret (Some b)
      | None => post_selector_loop rest
      end
  end.

(** [[b.text.strip() for b in buttons if b.text.strip()]] *)
Fixpoint button_texts (buttons : list elem) : M (world B H) (list string) :=
  match buttons with
  | [] => ret []
  | b :: rest =>
      t <- text b ;;
      if String.eqb (strip t) EmptyString then button_texts rest
      else
        t' <- text b ;;
        ts <- button_texts rest ;;
        ret (strip t' :: ts)
  end.

Definition repr_list (l : list string) : string :=
  "[" +:+ join ", " (map (fun s => "'" +:+ s +:+ "'") l) +:+ "]".

Definition _click_post_button : M (world B H) bool :=
  sleep 2000 ;;
  r <- try_except
         (result <- execute_script JsClickPost ;;
          if is_js_str result "clicked" || is_js_str result "clicked_parent" then
            log LInfo ("Post button clicked via JavaScript (" +:+ str_of_jsval result
                       +:+ ")") ;;
            ret (Some true)
          else
            log LInfo ("JavaScript click result: " +:+ str_of_jsval result) ;;
            ret None)
         (fun e => log LDebug ("JavaScript click failed: " +:+ exn_msg e) ;; ret None) ;;
  match r with
  | Some b => ret b
  | None =>
      try_except (execute_script JsScrollToBottom ;; sleep 1000) (fun _ => ret tt) ;;
      r <- try_except
             (buttons <- find_elements TAG_NAME "button" ;;
              log LInfo ("Found " +:+ str_of_nat (length buttons) +:+ " buttons on page") ;;
              click_post_buttons buttons)
             (fun e => log LDebug ("Button search failed: " +:+ exn_msg e) ;; ret None) ;;
      match r with
      | Some b => ret b
      | None =>
          r <- post_selector_loop post_selectors ;;
          match r with
          | Some b => ret b
          | None =>
              try_except
                (buttons <- find_elements TAG_NAME "button" ;;
                 btn_texts <- button_texts buttons ;;
                 log LInfo ("Available buttons: " +:+ repr_list (firstn 10 btn_texts)))
                (fun _ => ret tt) ;;
              ret false
          end
      end
  end.

Definition restricted_xpath : string :=
  "//*[text()=" +:+ quoted "Content may be restricted" +:+ "]".

Definition close_selectors : list string :=
  [ "[class*=" +:+ quoted "close-icon" +:+ "]";
    "[class*=" +:+ quoted "closeIcon" +:+ "]";
    "[class*=" +:+ quoted "modal-close" +:+ "]";
    ".px-icon" ].

(** Method 2 of [_handle_warning_popups]: [true] when the loop closed
    the popup and left with [break]. *)
Fixpoint close_selector_loop (selectors : list string) : M (world B H) bool :=
  match selectors with
  | [] => ret false
  | selector :: rest =>
      closed <- try_except
                  (close_elem <- find_element CSS_SELECTOR selector ;;
                   match close_elem with
                   | Some c =>
                       displayed <- is_displayed c ;;
                       if displayed then
                         click c ;;
                         log LInfo ("Closed popup using " +:+ selector) ;;
                         sleep 1000 ;;
                         ret true
                       else ret false
                   | None => ret false
                   end)
                  (fun _ => ret false) ;;
      if closed then ret true else close_selector_loop rest
  end.

Definition _handle_warning_popups : M (world B H) unit :=
  sleep 1500 ;;
  try_except
    (popup_title <- find_elements XPATH restricted_xpath ;;
     match popup_title with
     | [] => log LDebug "No 'Content may be restricted' popup found"
     | _ =>
         log LInfo "Found 'Content may be restricted' popup, closing..." ;;
         popup_closed <-
           try_except
             (close_icon <- find_element CSS_SELECTOR "div.common-modal-close-icon" ;;
              match close_icon with
              | Some c =>
                  displayed <- is_displayed c ;;
                  if displayed then
                    click c ;;
                    log LInfo "Closed popup using div.common-modal-close-icon" ;;
                    sleep 1000 ;;
                    ret true
                  else ret false
              | None => ret false
              end)
             (fun e =>
                log LDebug ("Method 1 (common-modal-close-icon) failed: " +:+ exn_msg e) ;;
                ret false) ;;
         popup_closed <-
           (if popup_closed then ret true else close_selector_loop close_selectors) ;;
         popup_closed <-
           (if popup_closed then ret true
            else
              try_except
                (result <- execute_script JsClosePopup ;;
                 if js_truthy result then
                   log LInfo "Closed popup using JavaScript" ;;
                   sleep 1000 ;;
                   ret true
                 else ret false)
                (fun e => log LDebug ("Method 3 (JS) failed: " +:+ exn_msg e) ;;
                          ret false)) ;;
         if popup_closed then
           sleep 500 ;;
           still_visible <- find_elements XPATH restricted_xpath ;;
           shown <- (match still_visible with
                     | [] => ret false
                     | _ => any_displayed still_visible
                     end) ;;
           (if negb shown then log LInfo "Popup closed! Re-clicking Post..."
            else log LWarning "Popup may still be visible, trying Post anyway...") ;;
           _click_post_button ;;
           ret tt
         else log LError "Could not close popup - manual intervention may be needed"
     end)
    (fun e => log LDebug ("Warning popup error: " +:+ exn_msg e)).

Definition success_indicators : list string :=
  [ "[data-e2e=" +:+ quoted "upload-success" +:+ "]";
    ".upload-success";
    "text*=" +:+ quoted "uploaded";
    "text*=" +:+ quoted "posted" ].

Definition post_url_change_msg : string := "Post completed (detected URL change)".
Definition post_indicator_msg : string := "Post completed (found success indicator)".
Definition post_unconfirmed_msg : string := "Could not confirm post completion".

(** [for selector in success_indicators]: a lookup that does not raise
    ends the wait. *)
Fixpoint success_loop (selectors : list string) : M (world B H) (option bool) :=
  match selectors with
  | [] => ret None
  | selector :: rest =>
      r <- try_except
             (find_element CSS_SELECTOR selector ;;
              log LSuccess post_indicator_msg ;;
              ret (Some true))
             (fun _ => ret None) ;;
      match r with
      | Some b => ret (Some b)
      | None => success_loop rest
      end
  end.

(** The [while] loop of [_wait_for_post_complete]. *)
Fixpoint wait_post_loop (fuel : nat) (start_time : N) (timeout : Z)
    : M (world B H) (option bool) :=
  t <- now ;;
  if (Z.of_N (t - start_time) <? 1000 * timeout)%Z then
    match fuel with
    | O => out_of_fuel
    | S fuel' =>
        url <- current_url ;;
        if negb (contains "upload" (lower url)) then
          log LSuccess post_url_change_msg ;;
          ret (Some true)
        else
          r <- success_loop success_indicators ;;
          match r with
          | Some b => ret (Some b)
          | None =>
              sleep 2000 ;;
              wait_post_loop fuel' start_time timeout
          end
    end
  else ret None.

Definition _wait_for_post_complete (fuel : nat) (timeout : Z) : M (world B H) bool :=
  log LInfo "Waiting for post confirmation..." ;;
  sleep 5000 ;;
  start_time <- now ;;
  r <- wait_post_loop fuel start_time timeout ;;
  match r with
  | Some b => ret b
  | None => log LWarning post_unconfirmed_msg ;; ret true
  end.

(** [Path(p).name]: the last component of the path. *)
Fixpoint path_name (s : string) : string :=
  match s with
  | EmptyString => EmptyString
  | String c r =>
      if contains "/" r then path_name r
      else if Ascii.eqb c "/" then r
      else s
  end.

(** [file_input.send_keys(path)]: only an element has the method. *)
Definition send_keys_to (v : jsval) (keys : string) : M (world B H) unit :=
  match v with
  | JsElem e => send_keys e keys
  | _ => raise (Exn AttributeError "object has no attribute 'send_keys'")
  end.

Definition upload_video (fuel : nat) (video_path : string) (title : string)
    (tags : option (list string)) : M (world B H) bool :=
  let tags := get_or tags [] in
  video_path <- path_resolve video_path ;;
  present <- path_exists video_path ;;
  if negb present then
    log LError ("Video file not found: " +:+ video_path) ;;
    ret false
  else
    log LInfo ("Starting upload: " +:+ path_name video_path) ;;
    logged_in <- Login.ensure_logged_in cfg fuel ;;
    if negb logged_in then
      log LError "Cannot upload: not logged in" ;;
      ret false
    else
      try_except
        (log LInfo "Navigating to upload page..." ;;
         get upload_url ;;
         _random_delay (Some 3000%N) (Some 5000%N) ;;
         log LInfo "Uploading video file..." ;;
         file_input <- _find_file_input ;;
         if negb (js_truthy file_input) then
           log LError "Could not find file input element" ;;
           ret false
         else
           send_keys_to file_input video_path ;;
           uploaded <- _wait_for_upload fuel None ;;
           if negb uploaded then
             log LError "Video upload timed out" ;;
             ret false
           else
             _handle_content_check_popup ;;
             log LInfo "Video file uploaded, filling details..." ;;
             try_except (execute_script JsScrollToBottom ;; sleep 1000) (fun _ => ret tt) ;;
             _random_delay None None ;;
             _fill_caption title tags ;;
             _random_delay (Some 2000%N) (Some 4000%N) ;;
             clicked <- _click_post_button ;;
             if clicked then
               _handle_warning_popups ;;
               log LInfo "Waiting for post to complete..." ;;
               _wait_for_post_complete fuel 60
             else
               log LError "Could not find post button" ;;
               ret false)
        (fun e => log LException ("Error during upload: " +:+ exn_msg e) ;; ret false).
End TikTokUploader.
End Uploader.

(** * Reading traces *)

(** The cookies handed to [driver.add_cookie], in order. *)
Definition added_cookies (tr : list event) : list cookie :=
  omap (fun ev => match ev with
                  | Call (CAddCookie c) => Some c
                  | _ => None
                  end) tr.

(** The connection attempts to a remote endpoint. *)
Definition connection_attempts (tr : list event) : list string :=
  omap (fun ev => match ev with
                  | Provision (PRemote url _) => Some url
                  | _ => None
                  end) tr.

(** The pauses, in milliseconds. *)
Definition sleeps (tr : list event) : list N :=
  omap (fun ev => match ev with
                  | Sleep ms => Some ms
                  | _ => None
                  end) tr.

(** The captions handed to the editor, by keystrokes or by script. *)
Definition typed_captions (tr : list event) : list string :=
  omap (fun ev => match ev with
                  | Call (CSendKeys _ keys) => Some keys
                  | Call (CExecuteScript (JsSetCaption caption)) => Some caption
                  | _ => None
                  end) tr.

(** Whether a line with the text [msg] was logged. *)
Definition logged (msg : string) (tr : list event) : bool :=
  existsb (fun ev => match ev with
                     | Log _ m => String.eqb m msg
                     | _ => false
                     end) tr.

(** * Concrete worlds

    Instances of the interfaces above on which the functions run by
    computation. *)
Module Scenario.
(** A page that does not change: what each locator finds, and what the
    elements answer. *)
Record page := Page {
  pg_online : bool;
  pg_url : string;
  pg_found : by_ -> string -> list elem;
  pg_text : elem -> string;
  pg_displayed : elem -> bool;
  pg_enabled : elem -> bool;
  pg_rejects : cookie -> bool;
  pg_latency : N
}.

Definition no_such_element : exn := Exn NoSuchElementException "no such element".
Definition unreachable : exn := Exn WebDriverException "net::ERR_CONNECTION_REFUSED".

Definition first_found (p : page) (by' : by_) (sel : string) : result elem :=
  match pg_found p by' sel with
  | e :: _ => Ok e
  | [] => Err no_such_element
  end.

#[global] Instance page_driver : WebDriver page := {|
  drv_get := fun _ p => (if pg_online p then Ok tt else Err unreachable, p);
  drv_refresh := fun p => (if pg_online p then Ok tt else Err unreachable, p);
  drv_current_url := fun p => (Ok (pg_url p), p);
  drv_page_source := fun p => (Ok EmptyString, p);
  drv_find_element := fun by' sel p =>
    (match first_found p by' sel with Ok e => Ok (Some e) | Err e => Err e end, p);
  drv_find_elements := fun by' sel p => (Ok (pg_found p by' sel), p);
  drv_wait_presence := fun _ by' sel p =>
    (match first_found p by' sel with
     | Ok e => Ok e
     | Err _ => Err (Exn TimeoutException "timed out")
     end, p);
  drv_wait_clickable := fun _ by' sel p =>
    (match first_found p by' sel with
     | Ok e => Ok e
     | Err _ => Err (Exn TimeoutException "timed out")
     end, p);
  drv_add_cookie := fun c p =>
    (if pg_rejects p c then Err (Exn WebDriverException "invalid cookie domain") else Ok tt, p);
  drv_get_cookies := fun p => (Ok [], p);
  drv_execute_script := fun _ p => (Ok JsNull, p);
  drv_perform := fun _ p => (Ok tt, p);
  drv_text := fun e p => (Ok (pg_text p e), p);
  drv_is_displayed := fun e p => (Ok (pg_displayed p e), p);
  drv_is_enabled := fun e p => (Ok (pg_enabled p e), p);
  drv_size := fun _ p => (Ok (0%Z, 0%Z), p);
  drv_click := fun _ p => (Ok tt, p);
  drv_send_keys := fun _ _ p => (Ok tt, p);
  drv_elapsed := pg_latency
|}.

(** A file system: the paths that exist and what the cookie file holds. *)
Record files := Files {
  fs_paths : list string;
  fs_cookies : list jitem
}.

(** The null character, which no path may hold. *)
Definition nul : string := String (ascii_of_nat 0) EmptyString.

(** Paths resolve to themselves; [resolve] raises on a null character,
    and [exists] on a last component of more than 255 bytes. *)
#[global] Instance files_host : Host files := {|
  host_exists := fun p h =>
    if (255 <? String.length (Uploader.path_name p))%nat
    then Err (Exn OSError "[Errno 36] File name too long")
    else Ok (existsb (String.eqb p) (fs_paths h));
  host_resolve := fun p _ =>
    if contains nul p then Err (Exn ValueError "embedded null byte") else Ok p;
  host_mkdir := fun p h => (Ok tt, Files (p :: fs_paths h) (fs_cookies h));
  host_read_json := fun p h =>
    if existsb (String.eqb p) (fs_paths h) then Ok (fs_cookies h)
    else Err (Exn OSError "No such file or directory");
  host_write_json := fun p cs h => (Ok tt, Files (p :: fs_paths h) (map JRecord cs));
  host_uniform := fun lo _ h => (lo, h)
|}.

(** A Selenium endpoint that refuses the first [n] connections; the
    state counts the refusals left. *)
#[global] Instance starting_selenium : Selenium nat := {|
  sel_remote := fun _ _ n =>
    match n with
    | O => (Ok 1%nat, O)
    | S n' => (Err unreachable, n')
    end;
  sel_local := fun _ n => (Ok 1%nat, n);
  sel_implicitly_wait := fun _ _ n => (Ok tt, n);
  sel_page_load_timeout := fun _ _ n => (Ok tt, n);
  sel_quit := fun _ n => (Ok tt, n);
  sel_elapsed := fun _ => 0%N
|}.

(** A Selenium side whose [quit] raises. *)
#[global] Instance crashed_selenium : Selenium unit := {|
  sel_remote := fun _ _ u => (Err unreachable, u);
  sel_local := fun _ u => (Err unreachable, u);
  sel_implicitly_wait := fun _ _ u => (Err unreachable, u);
  sel_page_load_timeout := fun _ _ u => (Err unreachable, u);
  sel_quit := fun _ u => (Err unreachable, u);
  sel_elapsed := fun _ => 0%N
|}.

Definition default_config : config :=
  Config None None None None None None None None.
Definition default_browser_config : browser_config :=
  BrowserConfig None None None None None None None.

Definition empty_page : page :=
  Page true "https://www.tiktok.com/creator-center/upload"
       (fun _ _ => []) (fun _ => EmptyString) (fun _ => false) (fun _ => false)
       (fun _ => false) 0.

(** The browser cannot reach the site. *)
Definition offline_page : page :=
  Page false EmptyString (fun _ _ => []) (fun _ => EmptyString) (fun _ => false)
       (fun _ => false) (fun _ => false) 0.

(** A profile that is logged in: the profile icon is on the page. *)
Definition signed_in_page : page :=
  Page true "https://www.tiktok.com"
       (fun by' sel =>
          match by' with
          | CSS_SELECTOR =>
              if String.eqb sel ("[data-e2e=" +:+ quoted "profile-icon" +:+ "]") then [1%nat]
              else []
          | _ => []
          end)
       (fun _ => EmptyString) (fun _ => true) (fun _ => true) (fun _ => false) 0.

Definition no_files : files := Files [] [].

Definition remote_env : gmap string string :=
  {[ "SELENIUM_REMOTE_URL" := "http://selenium:4444/wd/hub" ]}.

Definition start (p : page) (h : files) (env : gmap string string) : world page files :=
  World p h env 0 [].

Definition offline_world : world page files := start offline_page no_files ∅.
Definition remote_world : world page files := start empty_page no_files remote_env.
Definition local_world : world page files := start signed_in_page no_files ∅.

(** Three records of a cookie file; the browser rejects the second. *)
Definition session_cookie : cookie :=
  <["name" := JStr "sessionid"]> (<["value" := JStr "abc"]>
    (<["sameSite" := JStr "Lax"]> ∅)).
Definition tracker_cookie : cookie :=
  <["name" := JStr "tracker"]> (<["storeId" := JStr "0"]> ∅).
Definition locale_cookie : cookie :=
  <["name" := JStr "locale"]> (<["value" := JStr "en"]> ∅).

Definition is_tracker (c : cookie) : bool :=
  match c !! "name" with
  | Some (JStr n) => String.eqb n "tracker"
  | _ => false
  end.

Definition picky_page : page :=
  Page true "https://www.tiktok.com" (fun _ _ => []) (fun _ => EmptyString)
       (fun _ => false) (fun _ => false) is_tracker 0.

Definition cookie_files : files :=
  Files [Login.COOKIE_FILE]
        [JRecord session_cookie; JRecord tracker_cookie; JRecord locale_cookie].

Definition cookie_world : world page files := start picky_page cookie_files ∅.



(** An upload page whose caption editor is found and displayed. *)
Definition editor_page : page :=
  Page true "https://www.tiktok.com/creator-center/upload"
       (fun by' sel =>
          match by' with
          | CSS_SELECTOR =>
              if String.eqb sel "div.public-DraftEditor-content" then [5%nat] else []
          | _ => []
          end)
       (fun _ => EmptyString) (fun _ => true) (fun _ => true) (fun _ => false) 0.

(** [max_title_length: 2] *)
Definition tiny_config : config := Config None None None None (Some 2%Z) None None None.
(** [max_title_length: 10] *)
Definition short_config : config := Config None None None None (Some 10%Z) None None None.

(** A manager before [create_driver], facing an endpoint that refuses
    the first [n] connections. *)
Definition booting (n : nat) : Browser.manager nat files :=
  Browser.Manager None None (World n no_files remote_env 0 []).

(** A manager whose driver handle is 1 and whose [quit] raises. *)
Definition crashed : Browser.manager unit files :=
  Browser.Manager (Some 1%nat) (Some false) (World tt no_files ∅ 0 []).
End Scenario.

(** Further concrete worlds. *)
Module Cases.
(** A session that is nothing but a cookie jar: it takes every cookie it
    is handed and hands out what it holds. *)
#[global] Instance jar_driver : WebDriver (list cookie) := {|
  drv_get := fun _ j => (Ok tt, j);
  drv_refresh := fun j => (Ok tt, j);
  drv_current_url := fun j => (Ok "https://www.tiktok.com", j);
  drv_page_source := fun j => (Ok EmptyString, j);
  drv_find_element := fun _ _ j => (Err Scenario.no_such_element, j);
  drv_find_elements := fun _ _ j => (Ok [], j);
  drv_wait_presence := fun _ _ _ j => (Err (Exn TimeoutException "timed out"), j);
  drv_wait_clickable := fun _ _ _ j => (Err (Exn TimeoutException "timed out"), j);
  drv_add_cookie := fun c j => (Ok tt, j ++ [c]);
  drv_get_cookies := fun j => (Ok j, j);
  drv_execute_script := fun _ j => (Ok JsNull, j);
  drv_perform := fun _ j => (Ok tt, j);
  drv_text := fun _ j => (Ok EmptyString, j);
  drv_is_displayed := fun _ j => (Ok false, j);
  drv_is_enabled := fun _ j => (Ok false, j);
  drv_size := fun _ j => (Ok (0%Z, 0%Z), j);
  drv_click := fun _ j => (Ok tt, j);
  drv_send_keys := fun _ _ j => (Ok tt, j);
  drv_elapsed := fun _ => 0%N
|}.


(** A cookie file whose second entry is a string. *)
Definition damaged_files : Scenario.files :=
  Scenario.Files [Login.COOKIE_FILE]
    [JRecord Scenario.session_cookie; JScalar (JStr "oops");
     JRecord Scenario.locale_cookie].

Definition damaged_world : world Scenario.page Scenario.files :=
  Scenario.start Scenario.picky_page damaged_files ∅.

(** A file system on which no directory can be created. *)
Record readonly := Readonly {}.

#[global] Instance readonly_host : Host readonly := {|
  host_exists := fun _ _ => Ok false;
  host_resolve := fun p _ => Ok p;
  host_mkdir := fun _ h => (Err (Exn OSError "[Errno 30] Read-only file system"), h);
  host_read_json := fun _ _ => Err (Exn OSError "No such file or directory");
  host_write_json := fun _ _ h => (Err (Exn OSError "[Errno 30] Read-only file system"), h);
  host_uniform := fun lo _ h => (lo, h)
|}.


(** A page that is reachable and shows no login, with no remote endpoint. *)
Definition signed_out_world : world Scenario.page Scenario.files :=
  Scenario.start Scenario.empty_page Scenario.no_files ∅.

(** A manager before [create_driver] on a desk machine, where
    [SELENIUM_REMOTE_URL] is set to the empty string. *)
Definition desk : Browser.manager nat Scenario.files :=
  Browser.Manager None None
    (World 0%nat Scenario.no_files {[ "SELENIUM_REMOTE_URL" := EmptyString ]} 0 []).

(** The same on a file system on which no directory can be created. *)
Definition readonly_desk : Browser.manager nat readonly :=
  Browser.Manager None None (World 0%nat Readonly ∅ 0 []).

(** A studio page on which every locator finds the one element, a
    displayed and enabled control with the text "Post", and a machine that
    holds the video. *)
Definition studio_page : Scenario.page :=
  Scenario.Page true "https://www.tiktok.com/tiktokstudio/content"
    (fun _ _ => [1%nat]) (fun _ => "Post") (fun _ => true) (fun _ => true)
    (fun _ => false) 0.

Definition studio_world : world Scenario.page Scenario.files :=
  Scenario.start studio_page (Scenario.Files ["clip.mp4"] []) ∅.

(** A session that was lost: it still tells its address, and every other
    request raises. *)
Record lost := Lost {}.

Definition session_lost : exn := Exn WebDriverException "invalid session id".

#[global] Instance lost_driver : WebDriver lost := {|
  drv_get := fun _ s => (Err session_lost, s);
  drv_refresh := fun s => (Err session_lost, s);
  drv_current_url := fun s => (Ok "https://www.tiktok.com/creator-center/upload", s);
  drv_page_source := fun s => (Err session_lost, s);
  drv_find_element := fun _ _ s => (Err session_lost, s);
  drv_find_elements := fun _ _ s => (Err session_lost, s);
  drv_wait_presence := fun _ _ _ s => (Err session_lost, s);
  drv_wait_clickable := fun _ _ _ s => (Err session_lost, s);
  drv_add_cookie := fun _ s => (Err session_lost, s);
  drv_get_cookies := fun s => (Err session_lost, s);
  drv_execute_script := fun _ s => (Err session_lost, s);
  drv_perform := fun _ s => (Err session_lost, s);
  drv_text := fun _ s => (Err session_lost, s);
  drv_is_displayed := fun _ s => (Err session_lost, s);
  drv_is_enabled := fun _ s => (Err session_lost, s);
  drv_size := fun _ s => (Err session_lost, s);
  drv_click := fun _ s => (Err session_lost, s);
  drv_send_keys := fun _ _ s => (Err session_lost, s);
  drv_elapsed := fun _ => 0%N
|}.

End Cases.


(** * Specification vocabulary *)

Section Flow.
Context {B H : Type}.
(** The events a computation may add to the trace. *)
Variable allowed : event -> Prop.

(** [w'] comes after [w]: time went forward and the trace grew by
    allowed events. *)
Definition evolves (w w' : world B H) : Prop :=
  (clock w <= clock w')%N
  /\ exists d, trace w' = trace w ++ d /\ Forall allowed d.

(** The computation returns or raises; it does not run out of fuel. *)
Definition safe {A} (m : M (world B H) A) : Prop :=
  forall w, evolves w (snd (m w)) /\ fst (m w) <> OutOfFuel.

(** The computation returns. *)
Definition total {A} (m : M (world B H) A) : Prop :=
  forall w, evolves w (snd (m w)) /\ exists a, fst (m w) = Ret a.
End Flow.

Section Outside.
Context {B P : Type} `{WebDriver B} `{Selenium P}.

(** How many connection attempts in a row the endpoint refuses from its
    state [p], among the next [n]. *)
Fixpoint refusals (selenium_url : string) (chrome_options : list chrome_arg)
    (n : nat) (p : P) : nat :=
  match n with
  | O => O
  | S n' =>
      match sel_remote selenium_url chrome_options p with
      | (Ok _, _) => O
      | (Err _, p') => S (refusals selenium_url chrome_options n' p')
      end
  end.

(** The session after [add_cookie] was called on each of the records
    [cs], stripped, from the session [b]. *)
Fixpoint after_injection (cs : list cookie) (b : B) : B :=
  match cs with
  | [] => b
  | c :: rest => after_injection rest (snd (drv_add_cookie (Login.strip_fields c) b))
  end.

(** Whether the session [b] shows [button] as a post control: its text
    is "post" up to case and surrounding blanks, and it then answers that
    it is displayed and that it is enabled. *)
Definition qualifies (button : elem) (b : B) : bool :=
  match drv_text button b with
  | (Ok t, b1) =>
      String.eqb (lower (strip t)) "post"
      && match drv_is_displayed button b1 with
         | (Ok true, b2) =>
             match drv_is_enabled button b2 with
             | (Ok true, _) => true
             | _ => false
             end
         | _ => false
         end
  | _ => false
  end.
End Outside.

(** The [chrome_options] that the remote branch of [create_driver] builds. *)
Definition remote_options (cfg : browser_config) : list chrome_arg :=
  [ArgNoSandbox; ArgDisableDevShm;
   ArgWindowSize (get_or (bc_width cfg) 1920%Z) (get_or (bc_height cfg) 1080%Z)].

(** The lookup of a login indicator. *)
Definition probe_event (selector : string) : event :=
  Call (CFindElement CSS_SELECTOR selector).

(** Events that hand no text to the caption editor but [caption]. *)
Definition types_only (caption : string) (ev : event) : Prop :=
  match ev with
  | Call (CSendKeys _ keys) => keys = caption
  | Call (CExecuteScript (JsSetCaption c)) => c = caption
  | _ => True
  end.

(** What a log line of [_wait_for_upload] tells about the run. *)
Inductive observation :=
| OSighting      (* a post control that is displayed and enabled *)
| OMarker        (* a displayed "Edit cover" element, in one poll *)
| OInProgress    (* a percentage other than 100% *)
| OCompleted     (* completion reported before the timeout *)
| OTimedOut.     (* the wait ran to the timeout *)

Definition observe (ev : event) : option observation :=
  match ev with
  | Log LInfo msg =>
      if String.prefix "Post button detected (count: " msg then Some OSighting
      else if String.eqb msg Uploader.upload_completed_msg then Some OCompleted
      else if String.eqb msg Uploader.edit_cover_msg then Some OMarker
      else if String.prefix "Upload in progress: " msg then Some OInProgress
      else None
  | Log LWarning msg =>
      if String.eqb msg Uploader.upload_timed_out_msg then Some OTimedOut else None
  | _ => None
  end.

Definition observations (tr : list event) : list observation := omap observe tr.

(** The sightings, the markers and the percentages. *)
Definition signal (o : observation) : Prop :=
  match o with
  | OSighting | OMarker | OInProgress => True
  | OCompleted | OTimedOut => False
  end.

(** The debounce counter after the observations [obs], from [count]. *)
Fixpoint counter (count : nat) (obs : list observation) : nat :=
  match obs with
  | [] => count
  | OSighting :: rest => counter (S count) rest
  | OMarker :: rest => counter (S count) rest
  | OInProgress :: rest => counter 0 rest
  | _ :: rest => counter count rest
  end.

(** Whether the counter reaches 3 at a sighting of the post control. *)
Fixpoint completes (count : nat) (obs : list observation) : bool :=
  match obs with
  | [] => false
  | OSighting :: rest => (3 <=? S count)%nat || completes (S count) rest
  | OMarker :: rest => completes (S count) rest
  | OInProgress :: rest => completes 0 rest
  | _ :: rest => completes count rest
  end.

(** Observations without a report: only signals, and the counter stays
    under 3 at every sighting. *)
Definition quiet (count : nat) (obs : list observation) : Prop :=
  Forall signal obs /\ completes count obs = false.

(** Observations that end in the report of completion, at the first
    sighting that brings the counter to 3: up to that sighting they are
    the start of the signals [signals], and the report follows it. *)
Definition reported (count : nat) (signals obs : list observation) : Prop :=
  exists pre rest,
    obs = pre ++ [OSighting; OCompleted]
    /\ signals = pre ++ OSighting :: rest
    /\ quiet count pre
    /\ (3 <= S (counter count pre))%nat.


(** ** What the browser shows to the upload wait

    The signals of a poll as the answers of the session decide them,
    without the counter and without the log: a sighting for every button
    on the page that the session shows as a post control, a marker when
    an element with the text "Edit cover" is displayed, a percentage for
    every element whose text holds "%" and is not "100%".  The session is
    asked in the order of the wait, and each answer moves it on. *)
Section Shown.
Context {B : Type} `{WebDriver B}.

(** The elements a lookup found; none when it raised. *)
Definition found (r : result (list elem)) : list elem :=
  match r with
  | Ok l => l
  | Err _ => []
  end.

(** The session after the questions about [button]: its text; for a
    text that reads "post", whether it is displayed; for a displayed one,
    whether it is enabled. *)
Definition looked_at (button : elem) (b : B) : B :=
  match drv_text button b with
  | (Ok t, b1) =>
      if String.eqb (lower (strip t)) "post" then
        match drv_is_displayed button b1 with
        | (Ok true, b2) => snd (drv_is_enabled button b2)
        | (_, b2) => b2
        end
      else b1
  | (Err _, b1) => b1
  end.

Fixpoint sightings (buttons : list elem) (b : B) : list observation :=
  match buttons with
  | [] => []
  | button :: rest =>
      (if qualifies button b then [OSighting] else [])
      ++ sightings rest (looked_at button b)
  end.

Fixpoint after_buttons (buttons : list elem) (b : B) : B :=
  match buttons with
  | [] => b
  | button :: rest => after_buttons rest (looked_at button b)
  end.

(** Whether one of [elements] is displayed: they are asked in order, up
    to the first that is, or that raises. *)
Fixpoint displayed_among (elements : list elem) (b : B) : bool :=
  match elements with
  | [] => false
  | e :: rest =>
      match drv_is_displayed e b with
      | (Ok true, _) => true
      | (Ok false, b1) => displayed_among rest b1
      | (Err _, _) => false
      end
  end.

Fixpoint after_displayed (elements : list elem) (b : B) : B :=
  match elements with
  | [] => b
  | e :: rest =>
      match drv_is_displayed e b with
      | (Ok false, b1) => after_displayed rest b1
      | (_, b1) => b1
      end
  end.

(** The percentages among [progress]: the texts are read in order, up to
    one that raises. *)
Fixpoint percentages (progress : list elem) (b : B) : list observation :=
  match progress with
  | [] => []
  | p :: rest =>
      match drv_text p b with
      | (Ok t, b1) =>
          (if contains "%" (strip t) && negb (String.eqb (strip t) "100%")
           then [OInProgress] else [])
          ++ percentages rest b1
      | (Err _, _) => []
      end
  end.

Fixpoint after_percentages (progress : list elem) (b : B) : B :=
  match progress with
  | [] => b
  | p :: rest =>
      match drv_text p b with
      | (Ok _, b1) => after_percentages rest b1
      | (Err _, b1) => b1
      end
  end.

(** The buttons of the page and the post controls among them. *)
Definition buttons_view (b : B) : list observation * B :=
  let '(r, b1) := drv_find_elements TAG_NAME "button" b in
  (sightings (found r) b1, after_buttons (found r) b1).

(** The elements with the text "Edit cover", and whether one is
    displayed. *)
Definition marker_view (b : B) : list observation * B :=
  let '(r, b1) := drv_find_elements XPATH Uploader.edit_cover_xpath b in
  (if displayed_among (found r) b1 then [OMarker] else [],
   after_displayed (found r) b1).

(** The elements with a "%" in their text, and the percentages among
    them. *)
Definition progress_view (b : B) : list observation * B :=
  let '(r, b1) := drv_find_elements XPATH Uploader.percent_xpath b in
  (percentages (found r) b1, after_percentages (found r) b1).

(** One poll: the buttons, then the marker, then the percentages. *)
Definition poll_view (b : B) : list observation * B :=
  let '(o1, b1) := buttons_view b in
  let '(o2, b2) := marker_view b1 in
  let '(o3, b3) := progress_view b2 in
  (o1 ++ o2 ++ o3, b3).

(** What the session shows in [n] polls from [b]. *)
Fixpoint shown (n : nat) (b : B) : list observation :=
  match n with
  | O => []
  | S n' => fst (poll_view b) ++ shown n' (snd (poll_view b))
  end.
End Shown.

(** ** Frames

    What a computation leaves as it is. *)

Section Keeps.
Context {B H : Type}.
(** A relation between the world before and the world after. *)
Variable R : world B H -> world B H -> Prop.

(** Every run of the computation, however it ends, takes a world to one
    that [R] relates to it. *)
Definition keeps {A} (m : M (world B H) A) : Prop := forall w, R w (snd (m w)).
End Keeps.

(** The host machine and the environment are as before. *)
Definition same_host {B H} (w w' : world B H) : Prop :=
  host w' = host w /\ environ w' = environ w.

(** Events of the interactive login: its two prompts, and what saving the
    cookies does to the host. *)
Definition interactive (ev : event) : bool :=
  match ev with
  | Log LInfo msg =>
      String.eqb msg "Opening TikTok login page..."
      || String.eqb msg "Please login manually in the browser window"
  | HostOp (HMkdir _) => true
  | HostOp (HWriteJson _ _) => true
  | _ => false
  end.

Definition unattended (ev : event) : Prop := interactive ev = false.

(** The options of the local launches, the handles that were quit, and
    all the requests to the Selenium side. *)
Definition launches (tr : list event) : list (list chrome_arg) :=
  omap (fun ev => match ev with
                  | Provision (PLocal opts) => Some opts
                  | _ => None
                  end) tr.

Definition quits (tr : list event) : list nat :=
  omap (fun ev => match ev with
                  | Provision (PQuit h) => Some h
                  | _ => None
                  end) tr.

Definition provisions (tr : list event) : list provision :=
  omap (fun ev => match ev with
                  | Provision p => Some p
                  | _ => None
                  end) tr.

(** The flags of a local launch, by the configuration and the profile
    directory: the window size, the flags of the headless mode when it is
    configured, the profile directory and the flags for stability. *)
Definition local_options (cfg : browser_config) (user_data_path : string)
    : list chrome_arg :=
  [ArgWindowSize (get_or (bc_width cfg) 1920%Z) (get_or (bc_height cfg) 1080%Z)]
  ++ (if get_or (bc_headless cfg) false
      then [ArgHeadlessNew; ArgDisableWebSecurity; ArgAllowInsecureContent;
            ArgDisableVizCompositor;
            ArgUserAgent (get_or (bc_user_agent cfg) Browser.default_user_agent)]
      else [])
  ++ [ArgUserDataDir user_data_path; ArgNoSandbox; ArgDisableDevShm; ArgDisableGpu;
      ArgDisableAutomationControlled].

(** What keeps the browser on the page it shows and the files of the
    host as they are: no navigation, no reload, no cookie handed to the
    browser, no browser started or quit, no directory created and no file
    written. *)
Definition on_page (ev : event) : Prop :=
  match ev with
  | Call (CGet _) => False
  | Call CRefresh => False
  | Call (CAddCookie _) => False
  | Provision _ => False
  | HostOp (HMkdir _) => False
  | HostOp (HWriteJson _ _) => False
  | _ => True
  end.

(** The log lines that report a click on the Post button. *)
Definition post_clicks (tr : list event) : list string :=
  omap (fun ev => match ev with
                  | Log LInfo msg =>
                      if String.prefix "Post button clicked" msg then Some msg else None
                  | _ => None
                  end) tr.

Section ClickReported.
Context {B H : Type}.

(** The computation only adds to the trace, and when it returns a result
    that counts as [good], it has reported a click on the Post button. *)
Definition click_reported {A} (good : A -> bool) (m : M (world B H) A) : Prop :=
  forall w,
    exists d,
      trace (snd (m w)) = trace w ++ d
      /\ forall a, fst (m w) = Ret a -> good a = true -> post_clicks d <> [].
End ClickReported.

Definition some_true (r : option bool) : bool :=
  match r with
  | Some true => true
  | _ => false
  end.





(** * Properties *)

(** ** Reasoning about the monad *)

Section RequestFacts.
Context {B H : Type} `{WebDriver B} `{Host H}.

Lemma request_ok {A} (c : call) (op : B -> result A * B) (w : world B H) (a : A) (b : B) :
  op (browser w) = (Ok a, b) ->
  request c op w =
    (Ret a, World b (host w) (environ w) (clock w + drv_elapsed b) (trace w ++ [Call c])).
Proof. intros E. unfold request. now rewrite E. Qed.

Lemma request_err {A} (c : call) (op : B -> result A * B) (w : world B H) (e : exn) (b : B) :
  op (browser w) = (Err e, b) ->
  @request B H _ A c op w =
    (Raise e, World b (host w) (environ w) (clock w + drv_elapsed b) (trace w ++ [Call c])).
Proof. intros E. unfold request. now rewrite E. Qed.
End RequestFacts.

Section FlowFacts.
Context {B H : Type} `{WebDriver B} `{Host H}.
Variable allowed : event -> Prop.

Lemma evolves_refl (w : world B H) : evolves allowed w w.
Proof.
  split; [lia|]. exists []. split; [now rewrite app_nil_r|constructor].
Qed.

Lemma evolves_trans (w1 w2 w3 : world B H) :
  evolves allowed w1 w2 -> evolves allowed w2 w3 -> evolves allowed w1 w3.
Proof.
  intros (Hc1 & d1 & Ht1 & Hd1) (Hc2 & d2 & Ht2 & Hd2). split; [lia|].
  exists (d1 ++ d2). split; [now rewrite Ht2, Ht1, app_assoc|].
  now apply Forall_app.
Qed.

Lemma evolves_step (w : world B H) (b : B) (h : H) (env : gmap string string)
    (clk : N) (ev : event) :
  (clock w <= clk)%N ->
  allowed ev ->
  evolves allowed w (World b h env clk (trace w ++ [ev])).
Proof.
  intros Hclk Hev. split; [exact Hclk|]. exists [ev]. split; [reflexivity|].
  now constructor.
Qed.

Lemma total_safe {A} (m : M (world B H) A) : total allowed m -> safe allowed m.
Proof.
  intros Hm w. destruct (Hm w) as (He & a & Ha). split; [exact He|].
  rewrite Ha. discriminate.
Qed.

Lemma total_ret {A} (a : A) : total allowed (@ret (world B H) A a).
Proof. intros w. split; [apply evolves_refl|]. cbn. eauto. Qed.

Lemma safe_raise {A} (e : exn) : safe allowed (@raise (world B H) A e).
Proof. intros w. split; [apply evolves_refl|]. cbn. discriminate. Qed.

Lemma total_now : total allowed (@now B H).
Proof. intros w. split; [apply evolves_refl|]. cbn. eauto. Qed.

Lemma total_getenv (name : string) : total allowed (@getenv B H name).
Proof. intros w. split; [apply evolves_refl|]. cbn. eauto. Qed.

Lemma total_emit (ev : event) : allowed ev -> total allowed (@emit B H ev).
Proof.
  intros Hev w. split; [|cbn; eauto].
  cbn. apply evolves_step; [lia|exact Hev].
Qed.

Lemma total_sleep (ms : N) : allowed (Sleep ms) -> total allowed (@sleep B H ms).
Proof.
  intros Hev w. split; [|cbn; eauto]. cbn. apply evolves_step; [lia|exact Hev].
Qed.

Lemma safe_request {A} (c : call) (op : B -> result A * B) :
  allowed (Call c) -> safe allowed (@request B H _ A c op).
Proof.
  intros Hev w. unfold request. destruct (op (browser w)) as [[a|e] b]; cbn.
  - split; [apply evolves_step; [lia|exact Hev]|discriminate].
  - split; [apply evolves_step; [lia|exact Hev]|discriminate].
Qed.

Lemma safe_host_request {A} (h : host_op) (op : H -> result A * H) :
  allowed (HostOp h) -> safe allowed (@host_request B H A h op).
Proof.
  intros Hev w. unfold host_request. destruct (op (host w)) as [[a|e] h']; cbn.
  - split; [apply evolves_step; [lia|exact Hev]|discriminate].
  - split; [apply evolves_step; [lia|exact Hev]|discriminate].
Qed.

Lemma safe_host_read {A} (h : host_op) (op : H -> result A) :
  allowed (HostOp h) -> safe allowed (@host_read B H A h op).
Proof.
  intros Hev w. unfold host_read. split.
  - cbn. apply evolves_step; [lia|exact Hev].
  - cbn. destruct (op (host w)); discriminate.
Qed.

Lemma safe_bind {A C} (m : M (world B H) A) (k : A -> M (world B H) C) :
  safe allowed m -> (forall a, safe allowed (k a)) -> safe allowed (bind m k).
Proof.
  intros Hm Hk w. unfold bind. destruct (Hm w) as (He & Hf).
  destruct (m w) as [[a|e|] w1]; cbn in *; [|split; [exact He|discriminate]|congruence].
  destruct (Hk a w1) as (He2 & Hf2). split; [|exact Hf2].
  eapply evolves_trans; eassumption.
Qed.

Lemma total_bind {A C} (m : M (world B H) A) (k : A -> M (world B H) C) :
  total allowed m -> (forall a, total allowed (k a)) -> total allowed (bind m k).
Proof.
  intros Hm Hk w. unfold bind. destruct (Hm w) as (He & a & Ha).
  destruct (m w) as [o w1]; cbn in *. subst o. cbn.
  destruct (Hk a w1) as (He2 & Hf2). split; [|exact Hf2].
  eapply evolves_trans; eassumption.
Qed.

Lemma safe_try {A} (m : M (world B H) A) (handler : exn -> M (world B H) A) :
  safe allowed m -> (forall e, safe allowed (handler e)) ->
  safe allowed (try_except m handler).
Proof.
  intros Hm Hh w. unfold try_except. destruct (Hm w) as (He & Hf).
  destruct (m w) as [[a|e|] w1]; cbn in *; [split; [exact He|discriminate]| |congruence].
  destruct (Hh e w1) as (He2 & Hf2). split; [|exact Hf2].
  eapply evolves_trans; eassumption.
Qed.

Lemma total_try {A} (m : M (world B H) A) (handler : exn -> M (world B H) A) :
  safe allowed m -> (forall e, total allowed (handler e)) ->
  total allowed (try_except m handler).
Proof.
  intros Hm Hh w. unfold try_except. destruct (Hm w) as (He & Hf).
  destruct (m w) as [[a|e|] w1]; cbn in *; [split; [exact He|eauto]| |congruence].
  destruct (Hh e w1) as (He2 & Hf2). split; [|exact Hf2].
  eapply evolves_trans; eassumption.
Qed.

Lemma safe_try_cls {A} (cls : exn_class -> bool) (m : M (world B H) A)
    (handler : exn -> M (world B H) A) :
  safe allowed m -> (forall e, safe allowed (handler e)) ->
  safe allowed (try_except_cls cls m handler).
Proof.
  intros Hm Hh w. unfold try_except_cls. destruct (Hm w) as (He & Hf).
  destruct (m w) as [[a|e|] w1]; cbn in *; [split; [exact He|discriminate]| |congruence].
  destruct (cls (exn_cls e)); [|split; [exact He|discriminate]].
  destruct (Hh e w1) as (He2 & Hf2). split; [|exact Hf2].
  eapply evolves_trans; eassumption.
Qed.
End FlowFacts.

(** Proves [total] and [safe] goals along the structure of the program;
    [side] proves that an event is allowed. *)
Ltac flow_with side :=
  unfold log, get, refresh, current_url, page_source, find_element, find_elements,
    wait_presence, wait_clickable, add_cookie, get_cookies, execute_script, perform,
    text, is_displayed, is_enabled, size_of, click, send_keys, path_exists,
    path_resolve, mkdir, read_json, write_json, uniform;
  repeat first
    [ assumption
    | solve [auto]
    | apply total_ret
    | apply total_now
    | apply total_getenv
    | apply total_emit; side
    | apply total_sleep; side
    | apply total_bind; [|intro]
    | apply total_try; [|intro]
    | apply safe_raise
    | apply safe_request; side
    | apply safe_host_request; side
    | apply safe_host_read; side
    | apply safe_bind; [|intro]
    | apply safe_try; [|intro]
    | apply safe_try_cls; [|intro]
    | match goal with
      | |- total _ (match ?x with _ => _ end) => destruct x
      | |- safe _ (match ?x with _ => _ end) => destruct x
      | |- safe _ _ => apply total_safe
      end ].

(** Brings the computation that runs next to the surface. *)
Ltac focus :=
  repeat match goal with
    | |- context [bind ?m ?k ?w] => change (bind m k w) with (bind_k k (m w))
    | |- context [try_except ?m ?h ?w] => change (try_except m h w) with (try_k h (m w))
    | |- context [try_except_cls ?c ?m ?h ?w] =>
        change (try_except_cls c m h w) with (try_cls_k c h (m w))
    end;
  cbv beta.

Ltac expose_request :=
  match goal with
  | |- context [get ?u ?w] => change (get u w) with (request (CGet u) (drv_get u) w)
  | |- context [refresh ?w] => change (refresh w) with (request CRefresh drv_refresh w)
  | |- context [current_url ?w] =>
      change (current_url w) with (request CCurrentUrl drv_current_url w)
  | |- context [page_source ?w] =>
      change (page_source w) with (request CPageSource drv_page_source w)
  | |- context [find_element ?x ?y ?w] =>
      change (find_element x y w) with (request (CFindElement x y) (drv_find_element x y) w)
  | |- context [find_elements ?x ?y ?w] =>
      change (find_elements x y w)
        with (request (CFindElements x y) (drv_find_elements x y) w)
  | |- context [wait_presence ?t ?x ?y ?w] =>
      change (wait_presence t x y w)
        with (request (CWaitPresence t x y) (drv_wait_presence t x y) w)
  | |- context [wait_clickable ?t ?x ?y ?w] =>
      change (wait_clickable t x y w)
        with (request (CWaitClickable t x y) (drv_wait_clickable t x y) w)
  | |- context [add_cookie ?c ?w] =>
      change (add_cookie c w) with (request (CAddCookie c) (drv_add_cookie c) w)
  | |- context [get_cookies ?w] =>
      change (get_cookies w) with (request CGetCookies drv_get_cookies w)
  | |- context [execute_script ?x ?w] =>
      change (execute_script x w) with (request (CExecuteScript x) (drv_execute_script x) w)
  | |- context [perform ?x ?w] =>
      change (perform x w) with (request (CPerform x) (drv_perform x) w)
  | |- context [text ?x ?w] => change (text x w) with (request (CText x) (drv_text x) w)
  | |- context [is_displayed ?x ?w] =>
      change (is_displayed x w) with (request (CIsDisplayed x) (drv_is_displayed x) w)
  | |- context [is_enabled ?x ?w] =>
      change (is_enabled x w) with (request (CIsEnabled x) (drv_is_enabled x) w)
  | |- context [size_of ?x ?w] =>
      change (size_of x w) with (request (CSize x) (drv_size x) w)
  | |- context [click ?x ?w] => change (click x w) with (request (CClick x) (drv_click x) w)
  | |- context [send_keys ?x ?y ?w] =>
      change (send_keys x y w) with (request (CSendKeys x y) (drv_send_keys x y) w)
  end.

(** Runs the next request to the browser: one goal for its answer, one
    for its exception. *)
Ltac ask :=
  focus; expose_request;
  match goal with
  | |- context [request ?c ?op ?w] =>
      let bw := eval cbn [browser] in (browser w) in
      let a := fresh "a" in
      let e := fresh "e" in
      let b := fresh "b" in
      let E := fresh "E" in
      destruct (op bw) as [[a|e] b] eqn:E;
      [ rewrite (request_ok c op w a b E) | rewrite (request_err c op w e b E) ];
      cbn [bind_k try_k try_cls_k browser host environ clock trace]
  end.

(** Runs the computation up to the next answer of the outside, leaving
    the loops and the observations on traces folded. *)
Ltac run :=
  cbn -[Login.base_url Login.probe_indicators Login.inject_cookies
        Login.manual_login_loop added_cookies typed_captions
        Uploader.fill_elements Uploader.fill_selectors Uploader.truncate_caption
        Uploader.compose_caption Uploader.max_title_length slice_to
        Uploader.scan_buttons Uploader.any_displayed Uploader.scan_progress
        Uploader.wait_upload_loop Uploader.success_loop Uploader.wait_post_loop
        Uploader.upload_timeout lower strip contains
        Uploader.post_detected_msg Uploader.in_progress_msg Uploader.upload_completed_msg
        Uploader.edit_cover_msg Uploader.upload_timed_out_msg Uploader.edit_cover_xpath
        Uploader.percent_xpath Uploader.success_indicators
        Uploader.post_url_change_msg Uploader.post_indicator_msg
        Uploader.post_unconfirmed_msg
        observations str_of_Z str_of_nat Nat.leb
        N.add Z.mul Z.ltb Z.of_N N.sub].

(** ** login.py *)

Section LoginFacts.
Context {B H : Type} `{WebDriver B} `{Host H}.
Variable cfg : config.

(** The probe loop never raises; when it reports a login it has looked up
    the selectors up to the first one found, and nothing else. *)
Lemma probe_indicators_spec (selectors : list string) (w : world B H) :
  exists r w',
    Login.probe_indicators selectors w = (Ret r, w')
    /\ (r = None \/
        r = Some true
        /\ exists k, (k < length selectors)%nat
             /\ trace w' = trace w ++ map probe_event (firstn (S k) selectors)
                                   ++ [Log LInfo "User is logged in"]).
Proof.
  revert w. induction selectors as [|sel rest IH]; intros w.
  - cbn. eauto.
  - destruct w as [b0 h env clk tr].
    cbn [Login.probe_indicators]. ask.
    + destruct a as [el|]; cbn -[Login.probe_indicators].
      * do 2 eexists. split; [reflexivity|]. right. split; [reflexivity|].
        exists 0%nat. cbn. split; [lia|]. now rewrite <- app_assoc.
      * match goal with |- context [Login.probe_indicators rest ?w1] =>
          destruct (IH w1) as (r & w' & E1 & Hr) end.
        rewrite E1. do 2 eexists. split; [reflexivity|].
        destruct Hr as [->|[-> (k & Hk & Ht)]]; [now left|right].
        split; [reflexivity|]. exists (S k). split; [cbn; lia|].
        rewrite Ht. cbn. now rewrite <- app_assoc.
    + cbn -[Login.probe_indicators].
      match goal with |- context [Login.probe_indicators rest ?w1] =>
        destruct (IH w1) as (r & w' & E1 & Hr) end.
      rewrite E1. do 2 eexists. split; [reflexivity|].
      destruct Hr as [->|[-> (k & Hk & Ht)]]; [now left|right].
      split; [reflexivity|]. exists (S k). split; [cbn; lia|].
      rewrite Ht. cbn. now rewrite <- app_assoc.
Qed.
(** What [is_logged_in] does, by the answer to [driver.get(base_url)]. *)
Lemma is_logged_in_cases (w : world B H) :
  exists b w',
    Login.is_logged_in cfg w = (Ret b, w')
    /\ (forall e b', drv_get (Login.base_url cfg) (browser w) = (Err e, b') -> b = false)
    /\ (b = true ->
        exists k, (k < length Login.login_indicators)%nat
          /\ trace w' = trace w ++ [Call (CGet (Login.base_url cfg)); Sleep 3000]
                                ++ map probe_event (firstn (S k) Login.login_indicators)
                                ++ [Log LInfo "User is logged in"]).
Proof.
  destruct w as [b0 h env clk tr].
  unfold Login.is_logged_in. generalize Login.login_indicators as sels. intros sels.
  ask.
  - cbn -[Login.probe_indicators Login.base_url]. focus.
    match goal with |- context [Login.probe_indicators ?l ?w1] =>
      destruct (probe_indicators_spec l w1) as (r & w' & E1 & Hr) end.
    rewrite E1.
    destruct Hr as [->|[-> (k & Hk & Ht)]]; cbn -[Login.base_url].
    + do 2 eexists. split; [reflexivity|]. split; [reflexivity|discriminate].
    + do 2 eexists. split; [reflexivity|]. split; [congruence|].
      intros _. exists k. split; [exact Hk|].
      rewrite Ht. cbn. now rewrite <- !app_assoc.
  - cbn -[Login.base_url].
    do 2 eexists. split; [reflexivity|]. split; [reflexivity|discriminate].
Qed.

(** C10: [is_logged_in] always returns a boolean, whatever the browser
    answers, and it returns [False] when [driver.get(base_url)] raises. *)
Theorem is_logged_in_total (w : world B H) :
  (exists b w', Login.is_logged_in cfg w = (Ret b, w'))
  /\ (forall e b',
        drv_get (Login.base_url cfg) (browser w) = (Err e, b') ->
        fst (Login.is_logged_in cfg w) = Ret false).
Proof.
  destruct (is_logged_in_cases w) as (b & w' & E & Hget & _).
  split; [eauto|].
  intros e b' Hg. rewrite E. cbn. f_equal. eauto.
Qed.

(** C1: in remote mode with the cookie file absent, [ensure_logged_in]
    returns [False] after the existence check and three log lines, with
    no request to the browser at all; in local mode with a first probe
    that reports a login, it returns [True] having done what that one
    probe does and nothing more: no access to the cookie file, no
    navigation to the login page. *)
Theorem ensure_logged_in_fallback_order (fuel : nat) (w : world B H) :
  (is_Some (environ w !! "SELENIUM_REMOTE_URL") ->
   host_exists Login.COOKIE_FILE (host w) = Ok false ->
   Login.ensure_logged_in cfg fuel w =
     (Ret false,
      World (browser w) (host w) (environ w) (clock w)
        (trace w ++
           [ Log LInfo "Docker mode: loading cookies...";
             HostOp (HExists Login.COOKIE_FILE);
             Log LWarning ("Cookie file not found: " +:+ Login.COOKIE_FILE);
             Log LError "No cookies found! Run 'python src/export_cookies.py' locally first" ])))
  /\
  (environ w !! "SELENIUM_REMOTE_URL" = None ->
   fst (Login.is_logged_in cfg w) = Ret true ->
   Login.ensure_logged_in cfg fuel w = Login.is_logged_in cfg w
   /\ exists k, (k < length Login.login_indicators)%nat
        /\ trace (snd (Login.ensure_logged_in cfg fuel w)) =
             trace w ++ [Call (CGet (Login.base_url cfg)); Sleep 3000]
                     ++ map probe_event (firstn (S k) Login.login_indicators)
                     ++ [Log LInfo "User is logged in"]).
Proof.
  split.
  - intros [url Hurl] Hfile.
    destruct w as [b0 h env clk tr]. cbn [environ host] in *.
    unfold Login.ensure_logged_in. cbn. rewrite Hurl. cbn.
    focus. unfold Login.load_cookies. focus. cbn. rewrite Hfile. cbn.
    now rewrite <- !app_assoc.
  - intros Henv Hin.
    destruct (is_logged_in_cases w) as (b & w' & E & _ & Htrace).
    rewrite E in Hin. cbn in Hin. injection Hin as ->.
    assert (Eens : Login.ensure_logged_in cfg fuel w = (Ret true, w')).
    { unfold Login.ensure_logged_in. focus. unfold getenv. rewrite Henv.
      cbn [bind_k]. focus. rewrite E. reflexivity. }
    rewrite Eens, E. split; [reflexivity|]. cbn. now apply Htrace.
Qed.

Lemma added_cookies_app (t1 t2 : list event) :
  added_cookies (t1 ++ t2) = added_cookies t1 ++ added_cookies t2.
Proof. unfold added_cookies. apply omap_app. Qed.

Lemma strip_fields_lookup (c : cookie) (k : string) :
  Login.strip_fields c !! k =
    if decide (k = "sameSite" \/ k = "storeId") then None else c !! k.
Proof.
  unfold Login.strip_fields.
  destruct (decide (k = "storeId")) as [->|Hs].
  - rewrite lookup_delete_eq. now rewrite decide_True by now right.
  - rewrite lookup_delete_ne by congruence.
    destruct (decide (k = "sameSite")) as [->|Hm].
    + rewrite lookup_delete_eq. now rewrite decide_True by now left.
    + rewrite lookup_delete_ne by congruence.
      now rewrite decide_False by (intros [?|?]; congruence).
Qed.

(** The injection loop over a list of records never raises, and hands
    every record, stripped, to the browser, whether or not the browser
    accepts it. *)
Lemma inject_cookies_records (cs : list cookie) (w : world B H) :
  exists w',
    Login.inject_cookies (map JRecord cs) w = (Ret tt, w')
    /\ added_cookies (trace w') = added_cookies (trace w) ++ map Login.strip_fields cs
    /\ browser w' = after_injection cs (browser w)
    /\ host w' = host w.
Proof.
  revert w. induction cs as [|c cs IH]; intros w; destruct w as [b0 h env clk tr].
  - cbn. eexists. split; [reflexivity|]. now rewrite app_nil_r.
  - cbn [map Login.inject_cookies after_injection browser]. ask; run.
    + match goal with |- context [Login.inject_cookies _ ?w1] =>
        destruct (IH w1) as (w' & Einj & Ht & Hb & Hh) end.
      rewrite Einj. eexists. split; [reflexivity|].
      cbn [trace browser host snd] in *.
      split; [|split; [exact Hb|exact Hh]].
      rewrite Ht, added_cookies_app. cbn. now rewrite <- app_assoc.
    + match goal with |- context [Login.inject_cookies _ ?w1] =>
        destruct (IH w1) as (w' & Einj & Ht & Hb & Hh) end.
      rewrite Einj. eexists. split; [reflexivity|].
      cbn [trace browser host snd] in *.
      split; [|split; [exact Hb|exact Hh]].
      rewrite Ht, !added_cookies_app. cbn. now rewrite app_nil_r, <- app_assoc.
Qed.

(** C6: when the cookie file holds the records [cs] and the navigation
    and the reload succeed, [load_cookies] returns [True] whichever
    records the browser rejects; the browser was handed every record of
    the file, in order, each without its [sameSite] and [storeId] fields
    and otherwise unchanged. *)
Theorem load_cookies_sanitizes (cs : list cookie) (w : world B H) :
  host_exists Login.COOKIE_FILE (host w) = Ok true ->
  host_read_json Login.COOKIE_FILE (host w) = Ok (map JRecord cs) ->
  fst (drv_get (Login.base_url cfg) (browser w)) = Ok tt ->
  fst (drv_refresh
         (after_injection cs (snd (drv_get (Login.base_url cfg) (browser w)))))
    = Ok tt ->
  exists w',
    Login.load_cookies cfg None w = (Ret true, w')
    /\ added_cookies (trace w') = added_cookies (trace w) ++ map Login.strip_fields cs
    /\ Forall (fun c => c !! "sameSite" = None /\ c !! "storeId" = None)
              (map Login.strip_fields cs)
    /\ forall c k, k <> "sameSite" -> k <> "storeId" ->
                   Login.strip_fields c !! k = c !! k.
Proof.
  intros Hfile Hread Hget Hrefresh.
  destruct w as [b0 h env clk tr]. cbn [host browser] in *.
  unfold Login.load_cookies. run.
  rewrite Hfile. run.
  ask; [|cbn in Hget; discriminate].
  cbn [snd] in Hrefresh.
  run. rewrite Hread. run. focus.
  match goal with |- context [Login.inject_cookies _ ?w1] =>
    destruct (inject_cookies_records cs w1) as (w2 & Einj & Ht & Hb & Hh) end.
  rewrite Einj. destruct w2 as [b2 h2 env2 clk2 tr2]. cbn [trace host browser] in Ht, Hb, Hh.
  subst b2. run.
  ask; [|cbn in Hrefresh; discriminate].
  run. eexists. split; [reflexivity|]. split; [|split].
  - cbn [trace]. rewrite !added_cookies_app. cbn. rewrite !app_nil_r, Ht.
    rewrite !added_cookies_app. cbn. now rewrite !app_nil_r.
  - clear. induction cs as [|c cs' IH]; constructor; [|exact IH].
    rewrite !strip_fields_lookup.
    split; apply decide_True; auto.
  - intros c k Hk1 Hk2. rewrite strip_fields_lookup.
    apply decide_False. intros [?|?]; congruence.
Qed.

End LoginFacts.

(** ** browser.py *)

Ltac brun :=
  cbn -[connection_attempts sleeps Nat.ltb Browser.connect_loop Browser.max_retries
        Nat.min repeat refusals].

Section BrowserFacts.
Context {P H : Type} `{Selenium P} `{Host H}.
Variable cfg : browser_config.

Lemma connection_attempts_app (t1 t2 : list event) :
  connection_attempts (t1 ++ t2) = connection_attempts t1 ++ connection_attempts t2.
Proof. unfold connection_attempts. apply omap_app. Qed.

Lemma sleeps_app (t1 t2 : list event) : sleeps (t1 ++ t2) = sleeps t1 ++ sleeps t2.
Proof. unfold sleeps. apply omap_app. Qed.

Lemma provision_ok {A} (pr : provision) (op : P -> result A * P)
    (s : Browser.manager P H) (a : A) (b : P) :
  op (browser (Browser.outside s)) = (Ok a, b) ->
  Browser.provision_request pr op s =
    (Ret a,
     Browser.Manager (Browser.driver s) (Browser.is_remote s)
       (World b (host (Browser.outside s)) (environ (Browser.outside s))
          (clock (Browser.outside s) + sel_elapsed b)
          (trace (Browser.outside s) ++ [Provision pr]))).
Proof. intros E. unfold Browser.provision_request, Browser.lift. now rewrite E. Qed.

Lemma provision_err {A} (pr : provision) (op : P -> result A * P)
    (s : Browser.manager P H) (e : exn) (b : P) :
  op (browser (Browser.outside s)) = (Err e, b) ->
  Browser.provision_request pr op s =
    (Raise e,
     Browser.Manager (Browser.driver s) (Browser.is_remote s)
       (World b (host (Browser.outside s)) (environ (Browser.outside s))
          (clock (Browser.outside s) + sel_elapsed b)
          (trace (Browser.outside s) ++ [Provision pr]))).
Proof. intros E. unfold Browser.provision_request, Browser.lift. now rewrite E. Qed.

Lemma lift_mkdir_ok (path : string) (s : Browser.manager P H) (h' : H) :
  host_mkdir path (host (Browser.outside s)) = (Ok tt, h') ->
  Browser.lift (mkdir path) s =
    (Ret tt,
     Browser.Manager (Browser.driver s) (Browser.is_remote s)
       (World (browser (Browser.outside s)) h' (environ (Browser.outside s))
          (clock (Browser.outside s))
          (trace (Browser.outside s) ++ [HostOp (HMkdir path)]))).
Proof. intros E. unfold Browser.lift, mkdir, host_request. now rewrite E. Qed.

(** Runs the next request to the Selenium side. *)
Ltac dial :=
  repeat (progress (focus; brun));
  match goal with
  | |- context [Browser.provision_request ?pr ?op ?s] =>
      let bw := eval cbn [browser Browser.outside] in (browser (Browser.outside s)) in
      let a := fresh "a" in
      let e := fresh "e" in
      let b := fresh "b" in
      let E := fresh "E" in
      destruct (op bw) as [[a|e] b] eqn:E;
      [ rewrite (provision_ok pr op s a b E) | rewrite (provision_err pr op s e b E) ];
      cbn [bind_k try_k browser host environ clock trace
           Browser.driver Browser.is_remote Browser.outside]
  end.

(** The retry loop, from any iteration: the attempts it makes, the pauses
    it takes and how it ends, by the number of refusals. *)
Lemma connect_loop_spec (url : string) (opts : list chrome_arg) :
  forall (remaining attempt : nat) (s : Browser.manager P H),
    (remaining + attempt = Browser.max_retries)%nat ->
    exists o s',
      Browser.connect_loop url opts remaining attempt s = (o, s')
      /\ connection_attempts (trace (Browser.outside s')) =
           connection_attempts (trace (Browser.outside s))
           ++ repeat url
                (Nat.min (S (refusals url opts remaining
                               (browser (Browser.outside s)))) remaining)
      /\ sleeps (trace (Browser.outside s')) =
           sleeps (trace (Browser.outside s))
           ++ repeat 2000%N
                (Nat.min (refusals url opts remaining (browser (Browser.outside s)))
                         (remaining - 1))
      /\ ((refusals url opts remaining (browser (Browser.outside s)) < remaining)%nat ->
          o = Ret tt /\ is_Some (Browser.driver s')
          /\ Browser.is_remote s' = Browser.is_remote s)
      /\ (refusals url opts remaining (browser (Browser.outside s)) = remaining ->
          (0 < remaining)%nat ->
          exists cause,
            o = Raise (Exn PyException
                         ("Could not connect to Selenium after 30 attempts: " +:+ cause))).
Proof.
  induction remaining as [|rem IH]; intros attempt s Hsum.
  - cbn. do 2 eexists. split; [reflexivity|]. rewrite !app_nil_r. repeat split; lia.
  - destruct s as [d ir [p h env clk tr]].
    cbn [refusals Browser.connect_loop Browser.outside browser trace
         Browser.is_remote].
    dial.
    + brun. do 2 eexists. split; [reflexivity|]. brun.
      rewrite connection_attempts_app, sleeps_app. cbn.
      rewrite app_nil_r. repeat split; eauto; lia.
    + brun.
      destruct (Nat.ltb_spec attempt (Browser.max_retries - 1)) as [Hlt|Hge].
      * brun.
        match goal with |- context [Browser.connect_loop url opts rem (S attempt) ?s1] =>
          destruct (IH (S attempt) s1 ltac:(lia)) as (o & s2 & E1 & Ha & Hs & Hok & Hfail)
        end.
        cbn [Browser.outside browser trace Browser.is_remote] in Ha, Hs, Hok, Hfail.
        rewrite E1. do 2 eexists. split; [reflexivity|].
        assert (0 < rem)%nat by (unfold Browser.max_retries in *; lia).
        split; [|split; [|split]].
        -- rewrite Ha, !connection_attempts_app. cbn.
           now rewrite !app_nil_r, <- app_assoc.
        -- rewrite Hs, !sleeps_app. cbn. rewrite !app_nil_r, <- !app_assoc.
           destruct rem; [lia|]. cbn. now rewrite Nat.sub_0_r.
        -- intros Hk. destruct Hok as (-> & Hd & Hr); [lia|]. auto.
        -- intros Hk _. destruct Hfail as (cause & ->); [lia|lia|]. eauto.
      * brun.
        assert (rem = 0)%nat as -> by (unfold Browser.max_retries in *; lia).
        do 2 eexists. split; [reflexivity|]. brun.
        rewrite connection_attempts_app, sleeps_app. cbn.
        rewrite !app_nil_r. repeat split; eauto; lia.
Qed.
Lemma refusals_le (url : string) (opts : list chrome_arg) (n : nat) (p : P) :
  (refusals url opts n p <= n)%nat.
Proof.
  revert p. induction n as [|n IH]; intros p; cbn; [lia|].
  destruct (sel_remote url opts p) as [[hd|e] p']; [lia|].
  specialize (IH p'). lia.
Qed.

(** C8: with a remote endpoint configured, [create_driver] connects at
    most 30 times: once more than the endpoint refuses in a row, and 30
    times when it refuses 30 times; it sleeps 2 seconds after each
    refusal but the thirtieth and at no other time; it goes on with the
    handle of the first accepted connection; and its retry loop raises,
    with a message that names the 30 attempts, exactly when all 30 are
    refused. *)
Theorem create_driver_remote_retry (s : Browser.manager P H)
    (url user_data_path : string) :
  environ (Browser.outside s) !! "SELENIUM_REMOTE_URL" = Some url ->
  url <> EmptyString ->
  host_resolve
    (or_str (environ (Browser.outside s) !! "CHROME_USER_DATA_DIR")
            (or_str (bc_user_data_dir cfg) "./chrome_data"))
    (host (Browser.outside s)) = Ok user_data_path ->
  fst (host_mkdir user_data_path (host (Browser.outside s))) = Ok tt ->
  exists o s',
    Browser.create_driver cfg s = (o, s')
    /\ connection_attempts (trace (Browser.outside s')) =
         connection_attempts (trace (Browser.outside s))
         ++ repeat url
              (Nat.min (S (refusals url (remote_options cfg) Browser.max_retries
                             (browser (Browser.outside s)))) 30)
    /\ sleeps (trace (Browser.outside s')) =
         sleeps (trace (Browser.outside s))
         ++ repeat 2000%N
              (Nat.min (refusals url (remote_options cfg) Browser.max_retries
                          (browser (Browser.outside s))) 29)
    /\ (refusals url (remote_options cfg) Browser.max_retries
          (browser (Browser.outside s)) = 30%nat ->
        exists cause,
          o = Raise (Exn PyException
                       ("Could not connect to Selenium after 30 attempts: " +:+ cause)))
    /\ ((refusals url (remote_options cfg) Browser.max_retries
           (browser (Browser.outside s)) < 30)%nat ->
        is_Some (Browser.driver s') /\ Browser.is_remote s' = Some true)
    /\ ((exists e, fst (Browser.connect_loop url (remote_options cfg) Browser.max_retries 0 s)
                   = Raise e)
        <-> refusals url (remote_options cfg) Browser.max_retries
              (browser (Browser.outside s)) = 30%nat).
Proof.
  intros Henv Hurl Hresolve Hmkdir.
  destruct s as [d ir [p h env clk tr]].
  cbn [Browser.outside environ host browser trace] in *.
  unfold Browser.create_driver. brun.
  assert (Hne : String.eqb url EmptyString = false) by now apply String.eqb_neq.
  pose proof (refusals_le url (remote_options cfg) Browser.max_retries p) as Hle.
  match type of Hmkdir with
  | fst (host_mkdir ?x ?y) = _ =>
      destruct (host_mkdir x y) as [[[]|e] h1] eqn:Em; [|discriminate Hmkdir]
  end.
  match goal with |- context [Browser.connect_loop ?u ?o Browser.max_retries 0 ?s1] =>
    destruct (connect_loop_spec u (remote_options cfg) Browser.max_retries 0 s1 eq_refl)
      as (o0 & s0 & E0 & _ & _ & Hok0 & Hfail0)
  end.
  rewrite E0. cbn [Browser.outside browser trace Browser.is_remote fst] in *.
  assert (Hiff : (exists e, o0 = Raise e)
                 <-> refusals url (remote_options cfg) Browser.max_retries p = 30%nat).
  { split.
    - intros [e ->].
      destruct (Nat.eq_dec (refusals url (remote_options cfg) Browser.max_retries p) 30)
        as [|Hn]; [assumption|].
      destruct Hok0 as (Habs & _); [unfold Browser.max_retries in *; lia|discriminate].
    - intros Hk. destruct Hfail0 as (cause & ->); [exact Hk|unfold Browser.max_retries; lia|].
      eauto. }
  clear E0 Hok0 Hfail0.
  destruct (get_or (bc_headless cfg) false); brun; rewrite Hresolve; brun;
    (focus; erewrite lift_mkdir_ok by (cbn [host Browser.outside]; exact Em);
     brun; rewrite Henv; brun; repeat (rewrite Hne; brun); focus; brun; focus;
     match goal with |- context [Browser.connect_loop ?u ?o Browser.max_retries 0 ?s1] =>
       change o with (remote_options cfg);
       destruct (connect_loop_spec u (remote_options cfg) Browser.max_retries 0 s1 eq_refl)
         as (o1 & s2 & E1 & Ha & Hs & Hok & Hfail)
     end;
     cbn [Browser.outside browser trace Browser.is_remote] in Ha, Hs, Hok, Hfail;
     rewrite E1;
     rewrite !connection_attempts_app in Ha; rewrite !sleeps_app in Hs;
     cbn in Ha, Hs; rewrite !app_nil_r in Ha, Hs;
     destruct (Nat.eq_dec (refusals url (remote_options cfg) Browser.max_retries p) 30)
       as [Hk|Hk];
     [ destruct Hfail as (cause & ->); [exact Hk|unfold Browser.max_retries; lia|];
       brun; do 2 eexists; split; [reflexivity|];
       cbn [Browser.outside]; rewrite Ha, Hs;
       repeat split; try tauto; try (unfold Browser.max_retries in *; lia); eauto
     | destruct Hok as (-> & [hd Hd] & Hr); [unfold Browser.max_retries in *; lia|];
       destruct s2 as [d2 ir2 [p2 h2 env2 clk2 tr2]];
       cbn [Browser.driver Browser.is_remote Browser.outside trace] in *; subst d2;
       unfold Browser.with_driver; brun; dial; brun;
       [ dial; repeat (progress (focus; brun)) | ];
       do 2 eexists; (split; [reflexivity|]);
       cbn [Browser.outside trace Browser.driver Browser.is_remote];
       rewrite ?connection_attempts_app, ?sleeps_app, Ha, Hs; cbn;
       rewrite ?app_nil_r;
       repeat split; try tauto; try (unfold Browser.max_retries in *; lia); eauto ]).
Qed.

(** C9: [close] without a driver handle does nothing at all; [close]
    always returns, with the handle cleared, so closing twice is closing
    once; and an exception of [quit] is logged, not raised, and the
    handle is cleared all the same. *)
Theorem close_idempotent (s : Browser.manager P H) :
  (Browser.driver s = None -> Browser.close s = (Ret tt, s))
  /\ (exists s', Browser.close s = (Ret tt, s') /\ Browser.driver s' = None)
  /\ (Browser.close ;; Browser.close) s = Browser.close s
  /\ (forall h e p',
        Browser.driver s = Some h ->
        sel_quit h (browser (Browser.outside s)) = (Err e, p') ->
        Browser.close s =
          (Ret tt,
           Browser.Manager None (Browser.is_remote s)
             (World p' (host (Browser.outside s)) (environ (Browser.outside s))
                (clock (Browser.outside s) + sel_elapsed p')
                (trace (Browser.outside s)
                 ++ [ Log LInfo "Closing browser...";
                      Provision (PQuit h);
                      Log LWarning ("Error closing browser: " +:+ exn_msg e) ])))).
Proof.
  destruct s as [d ir [p h env clk tr]].
  assert (Hclosed : forall s0 : Browser.manager P H,
             Browser.driver s0 = None -> Browser.close s0 = (Ret tt, s0)).
  { intros [d0 ir0 w0] Hd. cbn in Hd. subst d0. reflexivity. }
  assert (Hret : exists s', Browser.close (Browser.Manager d ir (World p h env clk tr))
                            = (Ret tt, s') /\ Browser.driver s' = None).
  { destruct d as [hd|]; [|eexists; split; reflexivity].
    unfold Browser.close. brun. dial; brun; eexists; split; reflexivity. }
  split; [apply Hclosed|]. split; [exact Hret|]. split.
  - destruct Hret as (s' & E & Hd).
    unfold bind. rewrite E. cbn [bind_k]. now rewrite (Hclosed s' Hd).
  - intros hd e p' Hd Hq. cbn in Hd, Hq. subst d.
    unfold Browser.close. brun. dial; [congruence|].
    brun. injection Hq as -> ->.
    now rewrite <- !app_assoc.
Qed.

End BrowserFacts.

(** ** uploader.py *)

Lemma append_cons (c : ascii) (s1 s2 : string) :
  String c s1 +:+ s2 = String c (s1 +:+ s2).
Proof. reflexivity. Qed.

Lemma len_append (s1 s2 : string) : len (s1 +:+ s2) = (len s1 + len s2)%nat.
Proof.
  induction s1 as [|c s1 IH]; [reflexivity|].
  rewrite append_cons. cbn [len]. rewrite IH. now destruct (is_continuation c).
Qed.

Lemma len_first_chars (n : nat) (s : string) : len (first_chars n s) = Nat.min n (len s).
Proof.
  revert n. induction s as [|c s IH]; intros n; cbn [first_chars len].
  - now rewrite Nat.min_0_r.
  - destruct (is_continuation c) eqn:E.
    + cbn [len]. rewrite E. apply IH.
    + destruct n as [|n]; [reflexivity|]. cbn [len]. rewrite E, IH. lia.
Qed.

Lemma first_chars_all (n : nat) (s : string) : (len s <= n)%nat -> first_chars n s = s.
Proof.
  revert n. induction s as [|c s IH]; intros n Hn; cbn [first_chars len] in *;
    [reflexivity|].
  destruct (is_continuation c); [now rewrite IH|].
  destruct n as [|n]; [lia|]. rewrite IH; [reflexivity|lia].
Qed.

Lemma prefix_append (s t : string) : String.prefix s (s +:+ t) = true.
Proof.
  induction s as [|c s IH]; [now destruct t|].
  rewrite append_cons. cbn.
  destruct (ascii_dec c c); [exact IH|congruence].
Qed.

Section UploaderFacts.
Context {B H : Type} `{WebDriver B} `{Host H}.
Variable cfg : config.

Lemma typed_captions_app (t1 t2 : list event) :
  typed_captions (t1 ++ t2) = typed_captions t1 ++ typed_captions t2.
Proof. unfold typed_captions. apply omap_app. Qed.

(** C5: a non-empty title followed by a non-empty list of tags composes
    to the title, one space, and the tags as hashtags separated by single
    spaces. *)
Theorem compose_caption_hashtags (title : string) (tags : list string) :
  title <> EmptyString ->
  tags <> [] ->
  Uploader.compose_caption title tags =
    title +:+ " " +:+ join " " (map (fun tag => "#" +:+ tag) tags).
Proof.
  intros Ht Hg. unfold Uploader.compose_caption.
  apply String.eqb_neq in Ht. rewrite Ht.
  destruct tags as [|t tags]; [congruence|]. reflexivity.
Qed.

(** The pure part of the truncation. *)
Lemma truncate_caption_length (max_length : Z) (full_caption : string) :
  (3 <= max_length)%Z ->
  (max_length < Z.of_nat (len full_caption))%Z ->
  Z.of_nat (len (Uploader.truncate_caption max_length full_caption)) = max_length
  /\ exists kept, Uploader.truncate_caption max_length full_caption = kept +:+ "...".
Proof.
  intros H3 Hlong. unfold Uploader.truncate_caption, slice_to.
  rewrite (proj2 (Z.ltb_lt _ _) Hlong).
  rewrite (proj2 (Z.leb_le 0 (max_length - 3)) ltac:(lia)).
  split; [|eauto].
  rewrite len_append, len_first_chars. change (len "...") with 3%nat. lia.
Qed.

Lemma truncate_caption_short (max_length : Z) (full_caption : string) :
  (Z.of_nat (len full_caption) <= max_length)%Z ->
  Uploader.truncate_caption max_length full_caption = full_caption.
Proof.
  intros Hshort. unfold Uploader.truncate_caption.
  now rewrite (proj2 (Z.ltb_ge _ _) Hshort).
Qed.

Lemma evolves_typed (caption : string) (w w' : world B H) :
  evolves (types_only caption) w w' ->
  exists typed,
    typed_captions (trace w') = typed_captions (trace w) ++ typed
    /\ Forall (eq caption) typed.
Proof.
  intros (_ & d & -> & Hd). exists (typed_captions d).
  split; [apply typed_captions_app|].
  induction Hd as [|ev d Hev Hd IH]; [constructor|].
  change (ev :: d) with ([ev] ++ d). rewrite typed_captions_app.
  apply Forall_app. split; [|exact IH].
  destruct ev as [| |c| |]; cbn; try solve [constructor].
  destruct c; cbn in *; try solve [constructor].
  - destruct s; cbn in *; subst; repeat constructor.
  - subst. repeat constructor.
Qed.

Lemma fill_elements_types (caption : string) (elements : list elem) :
  forall i, total (types_only caption) (@Uploader.fill_elements B H _ caption i elements).
Proof.
  induction elements as [|el rest IH]; intros i; cbn [Uploader.fill_elements];
    flow_with ltac:(cbn; auto).
Qed.

Lemma fill_selectors_types (caption : string) (selectors : list string) :
  total (types_only caption) (@Uploader.fill_selectors B H _ caption selectors).
Proof.
  pose proof (fill_elements_types caption) as Hels.
  induction selectors as [|sel rest IH]; cbn [Uploader.fill_selectors];
    flow_with ltac:(cbn; auto).
Qed.

(** [_fill_caption] always returns, and every caption it hands to the
    editor is the composed caption after truncation. *)
Lemma fill_caption_types (title : string) (tags : list string) :
  total (types_only (Uploader.truncate_caption (Uploader.max_title_length cfg)
                       (Uploader.compose_caption title tags)))
        (@Uploader._fill_caption B H _ cfg title tags).
Proof.
  pose proof (fill_selectors_types
                (Uploader.truncate_caption (Uploader.max_title_length cfg)
                   (Uploader.compose_caption title tags))) as Hsel.
  unfold Uploader._fill_caption.
  flow_with ltac:(cbn; auto).
Qed.

(** C4, as the code has it: the caption handed to the editor is the
    composed caption after truncation; when the maximal length is at
    least 3 and the composed caption is longer, the typed caption has
    exactly that length and ends in three dots; a composed caption within
    the maximal length is typed unchanged. *)
Theorem caption_truncation (title : string) (tags : list string) (w : world B H) :
  (exists w' typed,
     Uploader._fill_caption cfg title tags w = (Ret tt, w')
     /\ typed_captions (trace w') = typed_captions (trace w) ++ typed
     /\ Forall (eq (Uploader.truncate_caption (Uploader.max_title_length cfg)
                      (Uploader.compose_caption title tags))) typed)
  /\ ((3 <= Uploader.max_title_length cfg)%Z ->
      (Uploader.max_title_length cfg
         < Z.of_nat (len (Uploader.compose_caption title tags)))%Z ->
      Z.of_nat (len
                  (Uploader.truncate_caption (Uploader.max_title_length cfg)
                     (Uploader.compose_caption title tags)))
        = Uploader.max_title_length cfg
      /\ exists kept,
           Uploader.truncate_caption (Uploader.max_title_length cfg)
             (Uploader.compose_caption title tags) = kept +:+ "...")
  /\ ((Z.of_nat (len (Uploader.compose_caption title tags))
         <= Uploader.max_title_length cfg)%Z ->
      Uploader.truncate_caption (Uploader.max_title_length cfg)
        (Uploader.compose_caption title tags) = Uploader.compose_caption title tags).
Proof.
  split; [|split].
  - destruct (fill_caption_types title tags w) as (Hev & [] & Hret).
    destruct (evolves_typed _ _ _ Hev) as (typed & Ht & Hl).
    destruct (Uploader._fill_caption cfg title tags w) as [o w'] eqn:E.
    cbn in *. subst o. eauto.
  - apply truncate_caption_length.
  - apply truncate_caption_short.
Qed.

(** *** Observations of the upload wait *)

Lemma observations_app (t1 t2 : list event) :
  observations (t1 ++ t2) = observations t1 ++ observations t2.
Proof. unfold observations. apply omap_app. Qed.

Lemma observations_snoc (tr : list event) (ev : event) :
  observations (tr ++ [ev]) =
    observations tr ++ match observe ev with Some o => [o] | None => [] end.
Proof.
  rewrite observations_app. unfold observations at 2. cbn.
  now destruct (observe ev).
Qed.

Lemma observe_sighting (count : nat) :
  observe (Log LInfo (Uploader.post_detected_msg count)) = Some OSighting.
Proof. unfold Uploader.post_detected_msg. cbn [observe]. now rewrite prefix_append. Qed.

Lemma observe_completed :
  observe (Log LInfo Uploader.upload_completed_msg) = Some OCompleted.
Proof. reflexivity. Qed.

Lemma observe_marker : observe (Log LInfo Uploader.edit_cover_msg) = Some OMarker.
Proof. reflexivity. Qed.

Lemma observe_in_progress (text : string) :
  observe (Log LInfo (Uploader.in_progress_msg text)) = Some OInProgress.
Proof.
  unfold Uploader.in_progress_msg. cbn [observe].
  rewrite (prefix_append "Upload in progress: " text). reflexivity.
Qed.

Lemma observe_timed_out :
  observe (Log LWarning Uploader.upload_timed_out_msg) = Some OTimedOut.
Proof. reflexivity. Qed.

Lemma counter_app (count : nat) (o1 o2 : list observation) :
  counter count (o1 ++ o2) = counter (counter count o1) o2.
Proof. revert count. induction o1 as [|[] o1 IH]; intros count; cbn; auto. Qed.

Lemma completes_app (count : nat) (o1 o2 : list observation) :
  completes count (o1 ++ o2) = completes count o1 || completes (counter count o1) o2.
Proof.
  revert count. induction o1 as [|[] o1 IH]; intros count; cbn; auto.
  rewrite IH. now rewrite orb_assoc.
Qed.

Lemma quiet_nil (count : nat) : quiet count [].
Proof. split; [constructor|reflexivity]. Qed.

Lemma quiet_app (count : nat) (o1 o2 : list observation) :
  quiet count o1 -> quiet (counter count o1) o2 -> quiet count (o1 ++ o2).
Proof.
  intros (Hs1 & Hc1) (Hs2 & Hc2). split; [now apply Forall_app|].
  now rewrite completes_app, Hc1, Hc2.
Qed.

Lemma reported_app (count : nat) (o1 signals o2 : list observation) :
  quiet count o1 ->
  reported (counter count o1) signals o2 ->
  reported count (o1 ++ signals) (o1 ++ o2).
Proof.
  intros Hq (pre & rest & -> & -> & Hpre & H3). exists (o1 ++ pre), rest.
  split; [now rewrite app_assoc|]. split; [now rewrite app_assoc|].
  split; [now apply quiet_app|]. now rewrite counter_app.
Qed.

Lemma reported_more (count : nat) (signals more obs : list observation) :
  reported count signals obs -> reported count (signals ++ more) obs.
Proof.
  intros (pre & rest & -> & -> & Hpre & H3). exists pre, (rest ++ more).
  split; [reflexivity|]. split; [now rewrite <- app_assoc|]. now split.
Qed.

Lemma quiet_sighting (count : nat) (obs : list observation) :
  (3 <=? S count)%nat = false -> quiet (S count) obs -> quiet count (OSighting :: obs).
Proof.
  intros Hlow (Hs & Hc). split; [constructor; [exact I|exact Hs]|].
  cbn [completes]. now rewrite Hlow, Hc.
Qed.

Lemma reported_sighting (count : nat) (signals obs : list observation) :
  (3 <=? S count)%nat = false ->
  reported (S count) signals obs ->
  reported count (OSighting :: signals) (OSighting :: obs).
Proof.
  intros Hlow Hr.
  change (OSighting :: signals) with ([OSighting] ++ signals).
  change (OSighting :: obs) with ([OSighting] ++ obs).
  apply reported_app; [|exact Hr].
  apply quiet_sighting; [exact Hlow|apply quiet_nil].
Qed.

(** Normal form of the observations of a trace that grew by known events. *)
Ltac obs_norm :=
  cbn [trace clock];
  rewrite ?observations_snoc, ?observe_sighting, ?observe_completed, ?observe_marker,
    ?observe_in_progress, ?observe_timed_out;
  cbn [observe app];
  rewrite ?app_nil_r, <- ?app_assoc.

Ltac obs_norm_in Hobs :=
  cbn [trace clock] in Hobs;
  rewrite ?observations_snoc, ?observe_sighting, ?observe_completed, ?observe_marker,
    ?observe_in_progress, ?observe_timed_out in Hobs;
  cbn [observe app] in Hobs;
  rewrite ?app_nil_r, <- ?app_assoc in Hobs.

(** The scan of the buttons of one poll logs a sighting for a button
    exactly when the session shows it as a post control, up to the
    sighting that brings the counter to 3. *)
Lemma scan_buttons_spec (buttons : list elem) :
  forall (count : nat) (w : world B H),
    exists r count' w' obs,
      Uploader.scan_buttons buttons count w = (Ret (r, count'), w')
      /\ (clock w <= clock w')%N
      /\ observations (trace w') = observations (trace w) ++ obs
      /\ (r = None /\ quiet count obs /\ count' = counter count obs
          /\ obs = sightings buttons (browser w)
          /\ browser w' = after_buttons buttons (browser w)
          \/ r = Some true /\ reported count (sightings buttons (browser w)) obs).
Proof.
  induction buttons as [|button rest IH]; intros count w;
    destruct w as [b0 h env clk tr].
  - run. exists None, count, (World b0 h env clk tr), [].
    split; [reflexivity|]. split; [cbn; lia|]. split; [cbn; now rewrite app_nil_r|].
    left. split; [reflexivity|]. split; [apply quiet_nil|]. repeat split.
  - cbn [Uploader.scan_buttons sightings after_buttons browser].
    assert (Hsame : forall w1 : world B H,
               (clk <= clock w1)%N ->
               observations (trace w1) = observations tr ->
               exists r count' w' obs,
                 Uploader.scan_buttons rest count w1 = (Ret (r, count'), w')
                 /\ (clk <= clock w')%N
                 /\ observations (trace w') = observations tr ++ obs
                 /\ (r = None /\ quiet count obs /\ count' = counter count obs
                     /\ obs = sightings rest (browser w1)
                     /\ browser w' = after_buttons rest (browser w1)
                     \/ r = Some true /\ reported count (sightings rest (browser w1)) obs)).
    { intros w1 Hclk1 Hobs1.
      destruct (IH count w1) as (r1 & c1 & w2 & obs1 & Escan & Hclk & Hobs & Hcase).
      exists r1, c1, w2, obs1. rewrite <- Hobs1.
      repeat split; [exact Escan|lia|exact Hobs|exact Hcase]. }
    unfold qualifies, looked_at.
    ask; run; [|apply Hsame; [cbn; lia|now obs_norm]].
    destruct (String.eqb (lower (strip a)) "post"); run;
      [|apply Hsame; [cbn; lia|now obs_norm]].
    ask; run; [|apply Hsame; [cbn; lia|now obs_norm]].
    destruct a0; run; [|apply Hsame; [cbn; lia|now obs_norm]].
    ask; run; [|apply Hsame; [cbn; lia|now obs_norm]].
    destruct a0; run; [|apply Hsame; [cbn; lia|now obs_norm]].
    destruct (3 <=? S count)%nat eqn:Hthree; run.
    + exists (Some true), (S count). eexists. exists [OSighting; OCompleted].
      split; [reflexivity|]. split; [cbn; lia|].
      split; [obs_norm; reflexivity|].
      right. split; [reflexivity|]. exists [], (sightings rest b2).
      split; [reflexivity|]. split; [reflexivity|]. split; [apply quiet_nil|].
      cbn [counter]. now apply Nat.leb_le.
    + match goal with |- context [Uploader.scan_buttons rest (S count) ?w1] =>
        destruct (IH (S count) w1) as (r1 & c1 & w2 & obs1 & Escan & Hclk & Hobs & Hcase)
      end.
      obs_norm_in Hobs. cbn [clock browser] in Hclk, Hcase.
      exists r1, c1, w2, (OSighting :: obs1).
      split; [exact Escan|]. split; [cbn [clock]; lia|]. split; [exact Hobs|].
      destruct Hcase as [(-> & Hq & -> & -> & Hb)|(-> & Hr)].
      * left. split; [reflexivity|]. split; [now apply quiet_sighting|].
        split; [reflexivity|]. split; [reflexivity|exact Hb].
      * right. split; [reflexivity|now apply reported_sighting].
Qed.

Lemma quiet_marker (count : nat) : quiet count [OMarker].
Proof. split; [repeat constructor|reflexivity]. Qed.

(** [any(e.is_displayed() for e in elements)] is [True] exactly when the
    session shows one of the elements as displayed. *)
Lemma any_displayed_spec (elements : list elem) :
  forall w : world B H,
    exists o w',
      Uploader.any_displayed elements w = (o, w')
      /\ (clock w <= clock w')%N
      /\ observations (trace w') = observations (trace w)
      /\ browser w' = after_displayed elements (browser w)
      /\ (if displayed_among elements (browser w) then o = Ret true
          else o = Ret false \/ exists e, o = Raise e).
Proof.
  induction elements as [|el rest IH]; intros w; destruct w as [b0 h env clk tr].
  - run. do 2 eexists. split; [reflexivity|]. split; [cbn; lia|].
    split; [reflexivity|]. split; [reflexivity|now left].
  - cbn [Uploader.any_displayed displayed_among after_displayed browser].
    ask; run.
    + destruct a; run.
      * do 2 eexists. split; [reflexivity|]. split; [cbn; lia|].
        split; [now obs_norm|]. split; reflexivity.
      * match goal with |- context [Uploader.any_displayed rest ?w1] =>
          destruct (IH w1) as (o & w2 & Eany & Hclk & Hobs & Hb & Hcase) end.
        obs_norm_in Hobs. cbn [clock browser] in Hclk, Hb, Hcase.
        exists o, w2. split; [exact Eany|]. split; [cbn; lia|].
        split; [exact Hobs|]. split; [exact Hb|exact Hcase].
    + do 2 eexists. split; [reflexivity|]. split; [cbn; lia|].
      split; [now obs_norm|]. split; [reflexivity|]. right. eauto.
Qed.

(** The "Edit cover" check of one poll adds one to the counter, and logs
    the marker, exactly when the session shows an element with that text
    as displayed. *)
Lemma check_edit_cover_spec (count : nat) (w : world B H) :
  exists count' w',
    Uploader.check_edit_cover count w = (Ret count', w')
    /\ (clock w <= clock w')%N
    /\ observations (trace w') =
         observations (trace w) ++ fst (marker_view (browser w))
    /\ browser w' = snd (marker_view (browser w))
    /\ count' = counter count (fst (marker_view (browser w)))
    /\ quiet count (fst (marker_view (browser w))).
Proof.
  destruct w as [b0 h env clk tr]. unfold Uploader.check_edit_cover, marker_view.
  cbn [browser]. ask; run.
  - focus.
    match goal with |- context [bind_k _ (?m ?w1)] =>
      assert (Hany : exists o w2,
                 m w1 = (o, w2)
                 /\ (clock w1 <= clock w2)%N
                 /\ observations (trace w2) = observations (trace w1)
                 /\ browser w2 = after_displayed a (browser w1)
                 /\ (if displayed_among a (browser w1) then o = Ret true
                     else o = Ret false \/ exists e, o = Raise e))
    end.
    { destruct a as [|el rest]; [|apply any_displayed_spec].
      run. do 2 eexists. split; [reflexivity|]. split; [cbn; lia|].
      split; [reflexivity|]. split; [reflexivity|now left]. }
    destruct Hany as (o & w2 & Em & Hclk & Hobs & Hb & Hcase).
    rewrite Em. destruct w2 as [b2 h2 env2 clk2 tr2].
    obs_norm_in Hobs. cbn [clock browser] in Hclk, Hb, Hcase. subst b2.
    destruct (displayed_among a b).
    + subst o. run. do 2 eexists. split; [reflexivity|]. split; [cbn; lia|].
      split; [obs_norm; now rewrite Hobs|]. split; [reflexivity|].
      split; [reflexivity|apply quiet_marker].
    + destruct Hcase as [->|(e & ->)]; run;
        (do 2 eexists; split; [reflexivity|]; split; [cbn; lia|];
         split; [obs_norm; now rewrite ?Hobs, ?app_nil_r|]; split; [reflexivity|];
         split; [reflexivity|apply quiet_nil]).
  - do 2 eexists. split; [reflexivity|]. split; [cbn; lia|].
    split; [obs_norm; now rewrite ?app_nil_r|]. split; [reflexivity|].
    split; [reflexivity|apply quiet_nil].
Qed.

Lemma percentages_in_progress (progress : list elem) :
  forall b : B, Forall (eq OInProgress) (percentages progress b).
Proof.
  induction progress as [|p rest IH]; intros b; cbn [percentages]; [constructor|].
  destruct (drv_text p b) as [[t|e] b1]; [|constructor].
  apply Forall_app. split; [|apply IH].
  destruct (contains "%" (strip t) && negb (String.eqb (strip t) "100%"));
    repeat constructor.
Qed.

(** The scan of the percentages of one poll: every text with a "%" that
    is not "100%" is logged and resets the counter. *)
Lemma scan_progress_spec (progress : list elem) :
  forall (count : nat) (w : world B H),
    exists count' w',
      Uploader.scan_progress progress count w = (Ret count', w')
      /\ (clock w <= clock w')%N
      /\ observations (trace w') =
           observations (trace w) ++ percentages progress (browser w)
      /\ browser w' = after_percentages progress (browser w)
      /\ count' = counter count (percentages progress (browser w)).
Proof.
  induction progress as [|p rest IH]; intros count w; destruct w as [b0 h env clk tr].
  - run. do 2 eexists.
    split; [reflexivity|]. split; [cbn; lia|].
    split; [cbn; now rewrite app_nil_r|]. split; reflexivity.
  - cbn [Uploader.scan_progress percentages after_percentages browser]. ask; run.
    + destruct (contains "%" (strip a) && negb (String.eqb (strip a) "100%")); run.
      * match goal with |- context [Uploader.scan_progress rest 0 ?w1] =>
          destruct (IH 0%nat w1) as (c1 & w2 & Escan & Hclk & Hobs & Hb & Hc)
        end.
        obs_norm_in Hobs. cbn [clock browser] in Hclk, Hb, Hc.
        exists c1, w2.
        split; [exact Escan|]. split; [cbn; lia|]. split; [exact Hobs|].
        split; [exact Hb|exact Hc].
      * match goal with |- context [Uploader.scan_progress rest count ?w1] =>
          destruct (IH count w1) as (c1 & w2 & Escan & Hclk & Hobs & Hb & Hc)
        end.
        obs_norm_in Hobs. cbn [clock browser] in Hclk, Hb, Hc.
        exists c1, w2.
        split; [exact Escan|]. split; [cbn; lia|]. split; [exact Hobs|].
        split; [exact Hb|exact Hc].
    + do 2 eexists.
      split; [reflexivity|]. split; [cbn; lia|].
      split; [obs_norm; now rewrite ?app_nil_r|]. split; reflexivity.
Qed.

Lemma check_progress_spec (count : nat) (w : world B H) :
  exists count' w',
    Uploader.check_progress count w = (Ret count', w')
    /\ (clock w <= clock w')%N
    /\ observations (trace w') =
         observations (trace w) ++ fst (progress_view (browser w))
    /\ browser w' = snd (progress_view (browser w))
    /\ count' = counter count (fst (progress_view (browser w)))
    /\ Forall (eq OInProgress) (fst (progress_view (browser w))).
Proof.
  destruct w as [b0 h env clk tr]. unfold Uploader.check_progress, progress_view.
  cbn [browser]. ask; run.
  - focus.
    match goal with |- context [Uploader.scan_progress a count ?w1] =>
      destruct (scan_progress_spec a count w1) as (c1 & w2 & Escan & Hclk & Hobs & Hb & Hc)
    end.
    rewrite Escan. obs_norm_in Hobs. cbn [clock browser] in Hclk, Hb, Hc. run.
    exists c1, w2.
    split; [reflexivity|]. split; [cbn; lia|]. split; [exact Hobs|].
    split; [exact Hb|]. split; [exact Hc|apply percentages_in_progress].
  - do 2 eexists.
    split; [reflexivity|]. split; [cbn; lia|].
    split; [obs_norm; now rewrite ?app_nil_r|]. split; [reflexivity|].
    split; [reflexivity|constructor].
Qed.

Lemma quiet_in_progress (count : nat) (obs : list observation) :
  Forall (eq OInProgress) obs -> quiet count obs.
Proof.
  intros Hall. revert count.
  induction Hall as [|o obs <- Hall IH]; intros count; [apply quiet_nil|].
  destruct (IH 0%nat) as (Hs & Hc). split; [constructor; [exact I|exact Hs]|exact Hc].
Qed.

(** One poll of the upload wait: either it reports completion, or it
    sleeps 3 seconds and hands on the counter; what it logs is what the
    session shows. *)
Lemma upload_poll_spec (count : nat) (w : world B H) :
  exists r count' w' obs,
    Uploader.upload_poll count w = (Ret (r, count'), w')
    /\ observations (trace w') = observations (trace w) ++ obs
    /\ (r = None /\ quiet count obs /\ count' = counter count obs
        /\ (clock w + 3000 <= clock w')%N
        /\ obs = fst (poll_view (browser w))
        /\ browser w' = snd (poll_view (browser w))
        \/ r = Some true /\ reported count (fst (poll_view (browser w))) obs
           /\ (clock w <= clock w')%N).
Proof.
  assert (Hrest : forall (c1 : nat) (w1 : world B H),
             exists c' w',
               (c2 <- Uploader.check_edit_cover c1 ;;
                c3 <- Uploader.check_progress c2 ;;
                sleep 3000 ;;
                ret (@None bool, c3)) w1 = (Ret (None, c'), w')
               /\ observations (trace w') =
                    observations (trace w1)
                    ++ fst (marker_view (browser w1))
                    ++ fst (progress_view (snd (marker_view (browser w1))))
               /\ quiet c1 (fst (marker_view (browser w1))
                            ++ fst (progress_view (snd (marker_view (browser w1)))))
               /\ c' = counter c1 (fst (marker_view (browser w1))
                                   ++ fst (progress_view (snd (marker_view (browser w1)))))
               /\ (clock w1 + 3000 <= clock w')%N
               /\ browser w' = snd (progress_view (snd (marker_view (browser w1))))).
  { intros c1 w1. focus.
    destruct (check_edit_cover_spec c1 w1)
      as (c2 & w2 & E2 & Hclk2 & Hobs2 & Hb2 & Hc2 & Hq2).
    rewrite E2. run. focus.
    destruct (check_progress_spec c2 w2)
      as (c3 & w3 & E3 & Hclk3 & Hobs3 & Hb3 & Hc3 & Hall3).
    rewrite E3. destruct w3 as [b3 h3 env3 clk3 tr3]. run.
    cbn [trace clock browser] in *. rewrite Hb2 in *.
    do 2 eexists.
    split; [reflexivity|]. split; [obs_norm; now rewrite Hobs3, Hobs2, <- app_assoc|].
    split; [apply quiet_app; [exact Hq2|rewrite <- Hc2; now apply quiet_in_progress]|].
    split; [now rewrite counter_app, <- Hc2|].
    split; [cbn; lia|exact Hb3]. }
  destruct w as [b0 h env clk tr]. unfold Uploader.upload_poll, poll_view, buttons_view.
  cbn [browser]. ask; run.
  - focus.
    match goal with |- context [Uploader.scan_buttons a count ?w1] =>
      destruct (scan_buttons_spec a count w1)
        as (r1 & c1 & w2 & obs1 & Escan & Hclk & Hobs & Hcase)
    end.
    rewrite Escan. obs_norm_in Hobs. cbn [clock browser] in Hclk, Hcase.
    destruct Hcase as [(-> & Hq & -> & Hs & Hb)|(-> & Hr)]; run.
    + destruct (Hrest (counter count obs1) w2)
        as (c' & w' & E2 & Hobs2 & Hq2 & Hc2 & Hclk2 & Hb2).
      rewrite E2. rewrite Hb in *. subst obs1.
      destruct (marker_view (after_buttons a b)) as [o2 b2] eqn:Em.
      destruct (progress_view b2) as [o3 b3] eqn:Ep.
      cbn [fst snd] in *. rewrite Ep in *. cbn [fst snd] in *.
      exists None, c', w', (sightings a b ++ o2 ++ o3).
      split; [reflexivity|]. split; [now rewrite Hobs2, Hobs, <- app_assoc|].
      left. split; [reflexivity|]. split; [now apply quiet_app|].
      split; [now rewrite counter_app|]. split; [cbn; lia|]. split; [reflexivity|exact Hb2].
    + destruct (marker_view (after_buttons a b)) as [o2 b2] eqn:Em.
      destruct (progress_view b2) as [o3 b3] eqn:Ep. cbn [fst].
      exists (Some true), c1, w2, obs1.
      split; [reflexivity|]. split; [exact Hobs|].
      right. split; [reflexivity|]. split; [now apply reported_more|cbn; lia].
  - match goal with |- context [bind ?m ?k ?w1] =>
      destruct (Hrest count w1) as (c' & w' & E2 & Hobs2 & Hq2 & Hc2 & Hclk2 & Hb2)
    end.
    rewrite E2. obs_norm_in Hobs2. cbn [clock browser] in Hclk2, Hq2, Hc2, Hb2, Hobs2.
    destruct (marker_view b) as [o2 b2] eqn:Em.
    destruct (progress_view b2) as [o3 b3] eqn:Ep.
    cbn [fst snd] in *. rewrite Ep in *. cbn [fst snd] in *.
    exists None, c', w', (o2 ++ o3).
    split; [reflexivity|]. split; [exact Hobs2|].
    left. split; [reflexivity|]. split; [exact Hq2|]. split; [exact Hc2|].
    split; [cbn; lia|]. split; [reflexivity|exact Hb2].
Qed.

(** The polling loop of the upload wait, with fuel for the polls that
    fit into the time left: it ends, either by a report of completion or
    because the time is up, and what it logs is what the session shows in
    the polls it makes. *)
Lemma wait_upload_loop_spec (start_time : N) (timeout : Z) :
  forall (fuel count : nat) (w : world B H),
    (start_time <= clock w)%N ->
    (1000 * timeout - Z.of_N (clock w - start_time) <= 3000 * Z.of_nat fuel)%Z ->
    exists r w' obs n,
      Uploader.wait_upload_loop fuel start_time timeout count w = (Ret r, w')
      /\ observations (trace w') = observations (trace w) ++ obs
      /\ (r = None /\ quiet count obs /\ obs = shown n (browser w)
          /\ (1000 * timeout <= Z.of_N (clock w' - start_time))%Z
          \/ r = Some true /\ reported count (shown n (browser w)) obs).
Proof.
  induction fuel as [|fuel IH]; intros count w Hstart Hfuel;
    destruct w as [b0 h env clk tr]; cbn [clock] in *.
  - cbn [Uploader.wait_upload_loop]. run.
    destruct (Z.ltb_spec (Z.of_N (clk - start_time)) (1000 * timeout)) as [Hlt|Hge];
      [lia|].
    run. exists None. eexists. exists [], 0%nat.
    split; [reflexivity|]. split; [cbn; now rewrite app_nil_r|].
    left. split; [reflexivity|]. split; [apply quiet_nil|]. split; [reflexivity|exact Hge].
  - cbn [Uploader.wait_upload_loop]. run.
    destruct (Z.ltb_spec (Z.of_N (clk - start_time)) (1000 * timeout)) as [Hlt|Hge].
    + focus.
      match goal with |- context [Uploader.upload_poll count ?w1] =>
        destruct (upload_poll_spec count w1) as (r1 & c1 & w2 & obs1 & Epoll & Hobs & Hcase)
      end.
      rewrite Epoll. cbn [trace clock browser] in Hobs, Hcase.
      destruct Hcase as [(-> & Hq & -> & Hclk & Hs & Hb)|(-> & Hr & Hclk)]; run.
      * destruct (IH (counter count obs1) w2 ltac:(lia) ltac:(lia))
          as (r2 & w3 & obs2 & n & Eloop & Hobs2 & Hcase2).
        rewrite Eloop. exists r2, w3, (obs1 ++ obs2), (S n).
        split; [reflexivity|]. split; [now rewrite Hobs2, Hobs, <- app_assoc|].
        cbn [shown]. rewrite <- Hs, <- Hb.
        destruct Hcase2 as [(-> & Hq2 & -> & Hend)|(-> & Hr2)].
        -- left. split; [reflexivity|]. split; [now apply quiet_app|].
           split; [reflexivity|exact Hend].
        -- right. split; [reflexivity|now apply reported_app].
      * exists (Some true), w2, obs1, 1%nat.
        split; [reflexivity|]. split; [exact Hobs|]. right.
        split; [reflexivity|]. cbn [shown]. now apply reported_more.
    + run. exists None. eexists. exists [], 0%nat.
      split; [reflexivity|]. split; [cbn; now rewrite app_nil_r|].
      left. split; [reflexivity|]. split; [apply quiet_nil|]. split; [reflexivity|exact Hge].
Qed.



(** *** The wait for the confirmation of the post *)

Lemma success_loop_spec (selectors : list string) :
  forall w : world B H,
    exists r w',
      Uploader.success_loop selectors w = (Ret r, w')
      /\ (clock w <= clock w')%N
      /\ (r = None \/ r = Some true).
Proof.
  induction selectors as [|sel rest IH]; intros w; destruct w as [b0 h env clk tr].
  - run. do 2 eexists. split; [reflexivity|]. split; [cbn; lia|now left].
  - cbn [Uploader.success_loop]. ask; run.
    + do 2 eexists. split; [reflexivity|]. split; [cbn; lia|now right].
    + match goal with |- context [Uploader.success_loop rest ?w1] =>
        destruct (IH w1) as (r1 & w2 & Eloop & Hclk & Hcase) end.
      cbn [clock] in Hclk. exists r1, w2.
      split; [exact Eloop|]. split; [cbn; lia|exact Hcase].
Qed.

(** The polling loop of [_wait_for_post_complete] ends: by a detection,
    because the time is up, or by an exception of [current_url]. *)
Lemma wait_post_loop_spec (start_time : N) (timeout : Z) :
  forall (fuel : nat) (w : world B H),
    (start_time <= clock w)%N ->
    (1000 * timeout - Z.of_N (clock w - start_time) <= 2000 * Z.of_nat fuel)%Z ->
    exists o w',
      Uploader.wait_post_loop fuel start_time timeout w = (o, w')
      /\ (o = Ret None \/ o = Ret (Some true) \/ exists e, o = Raise e).
Proof.
  induction fuel as [|fuel IH]; intros w Hstart Hfuel;
    destruct w as [b0 h env clk tr]; cbn [clock] in *.
  - cbn [Uploader.wait_post_loop]. run.
    destruct (Z.ltb_spec (Z.of_N (clk - start_time)) (1000 * timeout)) as [Hlt|Hge];
      [lia|].
    run. do 2 eexists. split; [reflexivity|now left].
  - cbn [Uploader.wait_post_loop]. run.
    destruct (Z.ltb_spec (Z.of_N (clk - start_time)) (1000 * timeout)) as [Hlt|Hge].
    + ask; run.
      * destruct (contains "upload" (lower a)); run.
        -- focus.
           match goal with |- context [Uploader.success_loop ?l ?w1] =>
             destruct (success_loop_spec l w1) as (r1 & w2 & Esucc & Hclk & Hcase) end.
           rewrite Esucc. cbn [clock] in Hclk.
           destruct w2 as [b2 h2 env2 clk2 tr2]. cbn [clock] in Hclk.
           destruct Hcase as [->| ->]; run.
           ++ match goal with |- context [Uploader.wait_post_loop fuel _ _ ?w3] =>
                destruct (IH w3 ltac:(cbn; lia) ltac:(cbn; lia)) as (o & w4 & Eloop & Ho) end.
              rewrite Eloop. eauto.
           ++ do 2 eexists. split; [reflexivity|]. right. now left.
        -- do 2 eexists. split; [reflexivity|]. right. now left.
      * do 2 eexists. split; [reflexivity|]. right. right. eauto.
    + run. do 2 eexists. split; [reflexivity|now left].
Qed.

(** C2: with fuel for their polls, both waits end, and a wait whose loop
    runs out of time returns [True], as does a wait whose loop detected
    the completion (the post wait may also pass on an exception of
    [current_url]); neither returns [False]. *)
Theorem timeout_reports_success (fuel : nat) (timeout : option Z) (post_timeout : Z)
    (w : world B H) :
  (Uploader.upload_timeout cfg timeout <= 3 * Z.of_nat fuel)%Z ->
  (post_timeout <= 2 * Z.of_nat fuel)%Z ->
  (exists r w1,
     Uploader.wait_upload_loop fuel (clock w) (Uploader.upload_timeout cfg timeout) 0
       (snd (log LInfo ("Waiting for upload (timeout: "
                        +:+ str_of_Z (Uploader.upload_timeout cfg timeout) +:+ "s)...") w))
     = (Ret r, w1)
     /\ (r = None
         /\ Uploader._wait_for_upload cfg fuel timeout w =
              (Ret true, snd (log LWarning Uploader.upload_timed_out_msg w1))
         \/ r = Some true
            /\ Uploader._wait_for_upload cfg fuel timeout w = (Ret true, w1)))
  /\
  (exists o w1,
     Uploader.wait_post_loop fuel (clock w + 5000) post_timeout
       (snd ((log LInfo "Waiting for post confirmation..." ;; sleep 5000) w))
     = (o, w1)
     /\ (o = Ret None
         /\ Uploader._wait_for_post_complete fuel post_timeout w =
              (Ret true, snd (log LWarning Uploader.post_unconfirmed_msg w1))
         \/ o = Ret (Some true)
            /\ Uploader._wait_for_post_complete fuel post_timeout w = (Ret true, w1)
         \/ exists e,
              o = Raise e
              /\ Uploader._wait_for_post_complete fuel post_timeout w = (Raise e, w1))).
Proof.
  intros Hfuel Hpost. destruct w as [b0 h env clk tr]. split.
  - unfold Uploader._wait_for_upload. run.
    match goal with |- context [Uploader.wait_upload_loop fuel ?st ?t 0 ?w1] =>
      destruct (wait_upload_loop_spec st t fuel 0%nat w1)
        as (r & w2 & obs & n & Eloop & _ & Hcase)
    end.
    { cbn. lia. }
    { cbn [clock]. lia. }
    exists r, w2. split; [exact Eloop|]. focus. rewrite Eloop.
    destruct Hcase as [(-> & _)|(-> & _)]; [left|right]; (split; [reflexivity|]);
      reflexivity.
  - unfold Uploader._wait_for_post_complete. run.
    match goal with |- context [Uploader.wait_post_loop fuel ?st ?t ?w1] =>
      destruct (wait_post_loop_spec st t fuel w1) as (o & w2 & Eloop & Hcase)
    end.
    { cbn. lia. }
    { cbn [clock]. lia. }
    exists o, w2. split; [exact Eloop|]. focus. rewrite Eloop.
    destruct Hcase as [->|[->|(e & ->)]].
    + left. split; reflexivity.
    + right. left. split; reflexivity.
    + right. right. exists e. split; reflexivity.
Qed.

(** C7, as the code has it: when the video path resolves and the file
    system answers that the resolved path does not exist, [upload_video]
    returns [False] having resolved the path, tested it and logged the
    error: there was no login check, the browser has received no request,
    and the session, the host and the clock are as before. *)
Theorem upload_video_preflight (fuel : nat) (video_path title : string)
    (tags : option (list string)) (resolved : string) (w : world B H) :
  host_resolve video_path (host w) = Ok resolved ->
  host_exists resolved (host w) = Ok false ->
  Uploader.upload_video cfg fuel video_path title tags w =
    (Ret false,
     World (browser w) (host w) (environ w) (clock w)
       (trace w ++
          [ HostOp (HResolve video_path);
            HostOp (HExists resolved);
            Log LError ("Video file not found: " +:+ resolved) ])).
Proof.
  intros Hresolve Hmissing. destruct w as [b0 h env clk tr].
  cbn [host] in Hresolve, Hmissing.
  unfold Uploader.upload_video. run. rewrite Hresolve. run. rewrite Hmissing. run.
  now rewrite <- !app_assoc.
Qed.

End UploaderFacts.

(** * Runs on concrete worlds *)

Lemma is_logged_in_total_witness :
  drv_get (Login.base_url Scenario.default_config) (browser Scenario.offline_world)
    = (Err Scenario.unreachable, Scenario.offline_page)
  /\ fst (Login.is_logged_in Scenario.default_config Scenario.offline_world) = Ret false.
Proof.
  split; [reflexivity|].
  apply (proj2 (is_logged_in_total Scenario.default_config Scenario.offline_world)
           Scenario.unreachable Scenario.offline_page).
  reflexivity.
Defined.

Lemma ensure_logged_in_fallback_order_witness :
  (is_Some (environ Scenario.remote_world !! "SELENIUM_REMOTE_URL")
   /\ host_exists Login.COOKIE_FILE (host Scenario.remote_world) = Ok false
   /\ fst (Login.ensure_logged_in Scenario.default_config 0 Scenario.remote_world)
      = Ret false)
  /\ (environ Scenario.local_world !! "SELENIUM_REMOTE_URL" = None
      /\ fst (Login.is_logged_in Scenario.default_config Scenario.local_world) = Ret true
      /\ Login.ensure_logged_in Scenario.default_config 0 Scenario.local_world
         = Login.is_logged_in Scenario.default_config Scenario.local_world).
Proof.
  assert (Hremote : is_Some (environ Scenario.remote_world !! "SELENIUM_REMOTE_URL"))
    by (vm_compute; eauto).
  split.
  - split; [exact Hremote|]. split; [reflexivity|].
    pose proof (proj1 (ensure_logged_in_fallback_order Scenario.default_config 0
                         Scenario.remote_world)) as Hthm.
    rewrite Hthm; [reflexivity|exact Hremote|reflexivity].
  - split; [reflexivity|]. split; [reflexivity|].
    apply (proj2 (ensure_logged_in_fallback_order Scenario.default_config 0
                    Scenario.local_world)); reflexivity.
Defined.

Lemma load_cookies_sanitizes_witness :
  exists w',
    Login.load_cookies Scenario.default_config None Scenario.cookie_world = (Ret true, w')
    /\ added_cookies (trace w') =
         added_cookies (trace Scenario.cookie_world)
         ++ map Login.strip_fields
              [Scenario.session_cookie; Scenario.tracker_cookie; Scenario.locale_cookie]
    /\ Forall (fun c => c !! "sameSite" = None /\ c !! "storeId" = None)
              (map Login.strip_fields
                 [Scenario.session_cookie; Scenario.tracker_cookie; Scenario.locale_cookie])
    /\ forall c k, k <> "sameSite" -> k <> "storeId" ->
                   Login.strip_fields c !! k = c !! k.
Proof.
  apply (load_cookies_sanitizes Scenario.default_config
           [Scenario.session_cookie; Scenario.tracker_cookie; Scenario.locale_cookie]
           Scenario.cookie_world); reflexivity.
Defined.

(** The browser rejects the second record of the file, and the third is
    handed to it all the same. *)
Example load_cookies_rejection :
  fst (drv_add_cookie (Login.strip_fields Scenario.tracker_cookie) Scenario.picky_page)
    = Err (Exn WebDriverException "invalid cookie domain")
  /\ added_cookies
       (trace (snd (Login.load_cookies Scenario.default_config None Scenario.cookie_world)))
     = [ <["name" := JStr "sessionid"]> (<["value" := JStr "abc"]> ∅);
         <["name" := JStr "tracker"]> ∅;
         <["name" := JStr "locale"]> (<["value" := JStr "en"]> ∅) ].
Proof. split; vm_compute; reflexivity. Qed.

Lemma upload_video_preflight_witness :
  host_resolve "clip.mp4" (host Scenario.local_world) = Ok "clip.mp4"
  /\ host_exists "clip.mp4" (host Scenario.local_world) = Ok false
  /\ Uploader.upload_video Scenario.default_config 0 "clip.mp4" "My trip"
       (Some ["travel"; "summer"]) Scenario.local_world
     = (Ret false,
        World Scenario.signed_in_page Scenario.no_files ∅ 0
          [ HostOp (HResolve "clip.mp4");
            HostOp (HExists "clip.mp4");
            Log LError "Video file not found: clip.mp4" ]).
Proof.
  split; [reflexivity|]. split; [reflexivity|].
  pose proof (upload_video_preflight Scenario.default_config 0 "clip.mp4" "My trip"
                (Some ["travel"; "summer"]) "clip.mp4" Scenario.local_world) as Hthm.
  rewrite Hthm; reflexivity.
Defined.

(** A path with a null character references no file, and [Path.resolve]
    raises on it; a name of 300 characters references no file, and
    [Path.exists] raises on it.  Both stand before the [try] of
    [upload_video], which raises and returns nothing, with no request to
    the browser. *)
Lemma upload_video_preflight_counterexample :
  (let path := "clip" +:+ Scenario.nul +:+ ".mp4" in
   let r := Uploader.upload_video Scenario.default_config 0 path "My trip"
              (Some ["travel"; "summer"]) Scenario.local_world in
   existsb (String.eqb path) (Scenario.fs_paths (host Scenario.local_world)) = false
   /\ fst r = Raise (Exn ValueError "embedded null byte")
   /\ fst r <> Ret false
   /\ trace (snd r) = [HostOp (HResolve path)])
  /\
  (let path := String.concat EmptyString (repeat "a" 300) +:+ ".mp4" in
   let r := Uploader.upload_video Scenario.default_config 0 path "My trip"
              (Some ["travel"; "summer"]) Scenario.local_world in
   existsb (String.eqb path) (Scenario.fs_paths (host Scenario.local_world)) = false
   /\ fst r = Raise (Exn OSError "[Errno 36] File name too long")
   /\ fst r <> Ret false
   /\ trace (snd r) = [HostOp (HResolve path); HostOp (HExists path)]).
Proof. repeat split; try (vm_compute; congruence); vm_compute; reflexivity. Qed.

Lemma compose_caption_hashtags_witness :
  Uploader.compose_caption "My trip" ["travel"; "summer"] = "My trip #travel #summer".
Proof.
  rewrite (compose_caption_hashtags "My trip" ["travel"; "summer"]);
    [reflexivity|discriminate|discriminate].
Defined.

Lemma close_idempotent_witness :
  (Browser.driver (Scenario.booting 0) = None
   /\ Browser.close (Scenario.booting 0) = (Ret tt, Scenario.booting 0))
  /\ (Browser.driver Scenario.crashed = Some 1%nat
      /\ sel_quit 1%nat (browser (Browser.outside Scenario.crashed))
         = (Err Scenario.unreachable, tt)
      /\ Browser.close Scenario.crashed =
           (Ret tt,
            Browser.Manager None (Some false)
              (World tt Scenario.no_files ∅ 0
                 [ Log LInfo "Closing browser...";
                   Provision (PQuit 1%nat);
                   Log LWarning "Error closing browser: net::ERR_CONNECTION_REFUSED" ]))).
Proof.
  split.
  - split; [reflexivity|].
    apply (proj1 (close_idempotent (Scenario.booting 0))). reflexivity.
  - split; [reflexivity|]. split; [reflexivity|].
    pose proof (proj2 (proj2 (proj2 (close_idempotent Scenario.crashed)))) as Hthm.
    rewrite (Hthm 1%nat Scenario.unreachable tt); reflexivity.
Defined.

Lemma create_driver_remote_retry_witness :
  (connection_attempts
     (trace (Browser.outside
               (snd (Browser.create_driver Scenario.default_browser_config
                       (Scenario.booting 3)))))
   = repeat "http://selenium:4444/wd/hub" 4
   /\ sleeps
        (trace (Browser.outside
                  (snd (Browser.create_driver Scenario.default_browser_config
                          (Scenario.booting 3)))))
      = [2000; 2000; 2000]%N)
  /\ exists cause,
       fst (Browser.create_driver Scenario.default_browser_config (Scenario.booting 30))
       = Raise (Exn PyException
                  ("Could not connect to Selenium after 30 attempts: " +:+ cause)).
Proof.
  split.
  - destruct (create_driver_remote_retry Scenario.default_browser_config
                (Scenario.booting 3) "http://selenium:4444/wd/hub" "./chrome_data")
      as (o & s' & E & Ha & Hs & _); [reflexivity|discriminate|reflexivity|reflexivity|].
    rewrite E. cbn [snd]. rewrite Ha, Hs. split; reflexivity.
  - destruct (create_driver_remote_retry Scenario.default_browser_config
                (Scenario.booting 30) "http://selenium:4444/wd/hub" "./chrome_data")
      as (o & s' & E & _ & _ & Hfail & _); [reflexivity|discriminate|reflexivity|reflexivity|].
    destruct Hfail as (cause & ->); [reflexivity|].
    rewrite E. eauto.
Defined.

Lemma caption_truncation_witness :
  (Z.of_nat (len
               (Uploader.truncate_caption (Uploader.max_title_length Scenario.short_config)
                  (Uploader.compose_caption "Sunset at the beach" ["travel"]))) = 10%Z
   /\ exists kept,
        Uploader.truncate_caption (Uploader.max_title_length Scenario.short_config)
          (Uploader.compose_caption "Sunset at the beach" ["travel"]) = kept +:+ "...")
  /\ Uploader.truncate_caption (Uploader.max_title_length Scenario.default_config)
       (Uploader.compose_caption "My trip" ["travel"; "summer"])
     = "My trip #travel #summer".
Proof.
  split.
  - pose proof (proj1 (proj2 (caption_truncation Scenario.short_config
                                "Sunset at the beach" ["travel"] Scenario.local_world)))
      as Hthm.
    apply Hthm; vm_compute; congruence.
  - pose proof (proj2 (proj2 (caption_truncation Scenario.default_config
                                "My trip" ["travel"; "summer"] Scenario.local_world)))
      as Hthm.
    rewrite Hthm; [reflexivity|vm_compute; congruence].
Defined.

(** With [max_title_length: 2] the caption "abcd" is typed as "abc...":
    six characters. *)
Lemma caption_truncation_counterexample :
  Uploader.max_title_length Scenario.tiny_config = 2%Z
  /\ len (Uploader.compose_caption "abcd" []) = 4%nat
  /\ typed_captions
       (trace (snd (Uploader._fill_caption Scenario.tiny_config "abcd" []
                      (Scenario.start Scenario.editor_page Scenario.no_files ∅))))
     = ["abc..."]
  /\ len "abc..." = 6%nat.
Proof. repeat split; vm_compute; reflexivity. Qed.



Lemma timeout_reports_success_witness :
  fst (Uploader._wait_for_upload Scenario.default_config 100 None
         (Scenario.start Scenario.empty_page Scenario.no_files ∅)) = Ret true
  /\ (fst (Uploader._wait_for_post_complete 100 60
             (Scenario.start Scenario.empty_page Scenario.no_files ∅)) = Ret true
      \/ exists e,
           fst (Uploader._wait_for_post_complete 100 60
                  (Scenario.start Scenario.empty_page Scenario.no_files ∅)) = Raise e).
Proof.
  destruct (timeout_reports_success Scenario.default_config 100 None 60
              (Scenario.start Scenario.empty_page Scenario.no_files ∅))
    as ((r & w1 & _ & Hup) & (o & w2 & _ & Hpost)); [vm_compute; congruence..|].
  split.
  - destruct Hup as [(_ & ->)|(_ & ->)]; reflexivity.
  - destruct Hpost as [(_ & ->)|[(_ & ->)|(e & _ & ->)]]; [left|left|right; exists e];
      reflexivity.
Defined.

(** On a page without post control, marker or success indicator, both
    waits run to their timeout and return [True]. *)
Example waits_time_out :
  (let r := Uploader._wait_for_upload Scenario.default_config 100 None
              (Scenario.start Scenario.empty_page Scenario.no_files ∅) in
   fst r = Ret true
   /\ logged Uploader.upload_timed_out_msg (trace (snd r)) = true
   /\ clock (snd r) = 300000%N)
  /\
  (let r := Uploader._wait_for_post_complete 100 60
              (Scenario.start Scenario.empty_page Scenario.no_files ∅) in
   fst r = Ret true
   /\ logged Uploader.post_unconfirmed_msg (trace (snd r)) = true
   /\ clock (snd r) = 65000%N).
Proof. repeat split; vm_compute; reflexivity. Qed.

(** * Further properties *)

Section KeepsFacts.
Context {B H : Type} `{WebDriver B} `{Host H}.
Variable R : world B H -> world B H -> Prop.
Hypothesis R_refl : forall w, R w w.
Hypothesis R_trans : forall w1 w2 w3, R w1 w2 -> R w2 w3 -> R w1 w3.

Lemma keeps_ret {A} (a : A) : keeps R (@ret (world B H) A a).
Proof. intros w. apply R_refl. Qed.

Lemma keeps_raise {A} (e : exn) : keeps R (@raise (world B H) A e).
Proof. intros w. apply R_refl. Qed.

Lemma keeps_out_of_fuel {A} : keeps R (@out_of_fuel (world B H) A).
Proof. intros w. apply R_refl. Qed.

Lemma keeps_now : keeps R (@now B H).
Proof. intros w. apply R_refl. Qed.

Lemma keeps_getenv (name : string) : keeps R (@getenv B H name).
Proof. intros w. apply R_refl. Qed.

Lemma keeps_bind {A C} (m : M (world B H) A) (k : A -> M (world B H) C) :
  keeps R m -> (forall a, keeps R (k a)) -> keeps R (bind m k).
Proof.
  intros Hm Hk w. unfold bind. specialize (Hm w).
  destruct (m w) as [[a|e|] w1]; cbn in *; [|exact Hm..].
  eapply R_trans; [exact Hm|apply Hk].
Qed.

Lemma keeps_try {A} (m : M (world B H) A) (handler : exn -> M (world B H) A) :
  keeps R m -> (forall e, keeps R (handler e)) -> keeps R (try_except m handler).
Proof.
  intros Hm Hh w. unfold try_except. specialize (Hm w).
  destruct (m w) as [[a|e|] w1]; cbn in *; [exact Hm| |exact Hm].
  eapply R_trans; [exact Hm|apply Hh].
Qed.

Lemma keeps_try_cls {A} (cls : exn_class -> bool) (m : M (world B H) A)
    (handler : exn -> M (world B H) A) :
  keeps R m -> (forall e, keeps R (handler e)) -> keeps R (try_except_cls cls m handler).
Proof.
  intros Hm Hh w. unfold try_except_cls. specialize (Hm w).
  destruct (m w) as [[a|e|] w1]; cbn in *; [exact Hm| |exact Hm].
  destruct (cls (exn_cls e)); [|exact Hm].
  eapply R_trans; [exact Hm|apply Hh].
Qed.
End KeepsFacts.

Section SameHostFacts.
Context {B H : Type} `{WebDriver B} `{Host H}.

Lemma same_host_refl (w : world B H) : same_host w w.
Proof. split; reflexivity. Qed.

Lemma same_host_trans (w1 w2 w3 : world B H) :
  same_host w1 w2 -> same_host w2 w3 -> same_host w1 w3.
Proof. intros [Hh1 He1] [Hh2 He2]. split; congruence. Qed.

Lemma same_host_emit (ev : event) : keeps same_host (@emit B H ev).
Proof. intros w. split; reflexivity. Qed.

Lemma same_host_sleep (ms : N) : keeps same_host (@sleep B H ms).
Proof. intros w. split; reflexivity. Qed.

Lemma same_host_request {A} (c : call) (op : B -> result A * B) :
  keeps same_host (@request B H _ A c op).
Proof. intros w. unfold request. destruct (op (browser w)) as [r b]. split; reflexivity. Qed.

Lemma same_host_host_read {A} (h : host_op) (op : H -> result A) :
  keeps same_host (@host_read B H A h op).
Proof. intros w. split; reflexivity. Qed.
End SameHostFacts.

(** Proves that a computation leaves the host alone, along its structure. *)
Ltac same_host_flow :=
  unfold log, get, refresh, current_url, page_source, find_element, find_elements,
    wait_presence, wait_clickable, add_cookie, get_cookies, execute_script, perform,
    text, is_displayed, is_enabled, size_of, click, send_keys, path_exists,
    path_resolve, read_json;
  repeat first
    [ assumption
    | solve [auto]
    | apply keeps_ret; exact same_host_refl
    | apply keeps_raise; exact same_host_refl
    | apply keeps_now; exact same_host_refl
    | apply keeps_getenv; exact same_host_refl
    | apply keeps_out_of_fuel; exact same_host_refl
    | apply same_host_emit
    | apply same_host_sleep
    | apply same_host_request
    | apply same_host_host_read
    | apply keeps_bind; [exact same_host_trans| |intro]
    | apply keeps_try; [exact same_host_trans| |intro]
    | apply keeps_try_cls; [exact same_host_trans| |intro]
    | match goal with
      | |- keeps _ (match ?x with _ => _ end) => destruct x
      end ].

Section MoreFlowFacts.
Context {B H : Type} `{WebDriver B} `{Host H}.
Variable allowed : event -> Prop.

Lemma total_uniform (lo hi : N) :
  allowed (HostOp (HUniform lo hi)) -> total allowed (@uniform B H _ lo hi).
Proof.
  intros Hev w. unfold uniform, host_request.
  destruct (host_uniform lo hi (host w)) as [x h']. cbn.
  split; [apply evolves_step; [lia|exact Hev]|eauto].
Qed.

Lemma evolves_weaken (allowed' : event -> Prop) (w w' : world B H) :
  (forall ev, allowed ev -> allowed' ev) -> evolves allowed w w' -> evolves allowed' w w'.
Proof.
  intros Himp (Hc & d & Ht & Hd). split; [exact Hc|]. exists d. split; [exact Ht|].
  eapply Forall_impl; eassumption.
Qed.

Lemma evolves_grow (w : world B H) (b : B) (h : H) (env : gmap string string)
    (clk : N) (d : list event) :
  (clock w <= clk)%N ->
  Forall allowed d ->
  evolves allowed w (World b h env clk (trace w ++ d)).
Proof. intros Hclk Hd. split; [exact Hclk|]. exists d. now split. Qed.
End MoreFlowFacts.

(** The world grew by the events at the end of its trace. *)
Ltac grown side :=
  cbn [trace]; rewrite <- ?app_assoc; cbn [app];
  apply evolves_grow; [cbn; lia|repeat constructor; side].


(** As [flow_with], with the accesses to the host that always answer. *)
Ltac flows side :=
  unfold log, get, refresh, current_url, page_source, find_element, find_elements,
    wait_presence, wait_clickable, add_cookie, get_cookies, execute_script, perform,
    text, is_displayed, is_enabled, size_of, click, send_keys, path_exists,
    path_resolve, mkdir, read_json, write_json;
  repeat first
    [ assumption
    | solve [auto]
    | apply total_ret
    | apply total_now
    | apply total_getenv
    | apply total_emit; side
    | apply total_sleep; side
    | apply total_uniform; side
    | apply total_bind; [|intro]
    | apply safe_try_cls; [|intro]
    | apply total_try; [|intro]
    | apply safe_raise
    | apply safe_request; side
    | apply safe_host_request; side
    | apply safe_host_read; side
    | apply safe_bind; [|intro]
    | apply safe_try; [|intro]
    | match goal with
      | |- total _ (match ?x with _ => _ end) => destruct x
      | |- safe _ (match ?x with _ => _ end) => destruct x
      | |- safe _ _ => apply total_safe
      end ].

(** Runs the steps that ask nothing of the outside: the log, the clock,
    the pauses and the plumbing of the monad. *)
Ltac walk :=
  cbn [bind bind_k try_except try_k try_except_cls try_cls_k log emit sleep ret now
       getenv raise out_of_fuel of_result browser host environ clock trace fst snd
       negb].

Section LoginMore.
Context {B H : Type} `{WebDriver B} `{Host H}.
Variable cfg : config.

Lemma probe_indicators_same_host (selectors : list string) :
  keeps same_host (@Login.probe_indicators B H _ selectors).
Proof.
  induction selectors as [|sel rest IH]; cbn [Login.probe_indicators]; same_host_flow.
Qed.

Lemma is_logged_in_same_host : keeps same_host (@Login.is_logged_in B H _ cfg).
Proof.
  pose proof probe_indicators_same_host. unfold Login.is_logged_in. same_host_flow.
Qed.

Lemma inject_cookies_same_host (cookies : list jitem) :
  keeps same_host (@Login.inject_cookies B H _ cookies).
Proof.
  induction cookies as [|[c|v] rest IH]; cbn [Login.inject_cookies]; same_host_flow.
Qed.

Lemma load_cookies_same_host (cookie_file : option string) :
  keeps same_host (@Login.load_cookies B H _ _ cfg cookie_file).
Proof.
  pose proof inject_cookies_same_host. unfold Login.load_cookies. same_host_flow.
Qed.

Lemma probe_indicators_unattended (selectors : list string) :
  total unattended (@Login.probe_indicators B H _ selectors).
Proof.
  induction selectors as [|sel rest IH]; cbn [Login.probe_indicators];
    flows ltac:(reflexivity).
Qed.

Lemma is_logged_in_unattended : total unattended (@Login.is_logged_in B H _ cfg).
Proof.
  pose proof probe_indicators_unattended. unfold Login.is_logged_in.
  flows ltac:(reflexivity).
Qed.

Lemma inject_cookies_unattended (cookies : list jitem) :
  safe unattended (@Login.inject_cookies B H _ cookies).
Proof.
  induction cookies as [|[c|v] rest IH]; cbn [Login.inject_cookies];
    flows ltac:(reflexivity).
Qed.

Lemma load_cookies_unattended (cookie_file : option string) :
  safe unattended (@Login.load_cookies B H _ _ cfg cookie_file).
Proof.
  pose proof inject_cookies_unattended. unfold Login.load_cookies.
  flows ltac:(reflexivity).
Qed.

(** X1: The existence check of [load_cookies] stands before its [try]: an
    error of the check is raised to the caller.  Once the check has
    answered, [load_cookies] never raises, whatever the file holds and the
    browser answers, and it leaves the host machine as it is; with the
    file absent it returns [False] and the browser has received nothing. *)
Theorem load_cookies_failures (cookie_file : option string) (w : world B H) :
  (forall e,
     host_exists (or_str cookie_file Login.COOKIE_FILE) (host w) = Err e ->
     Login.load_cookies cfg cookie_file w =
       (Raise e,
        World (browser w) (host w) (environ w) (clock w)
          (trace w ++ [HostOp (HExists (or_str cookie_file Login.COOKIE_FILE))])))
  /\ (forall present,
        host_exists (or_str cookie_file Login.COOKIE_FILE) (host w) = Ok present ->
        exists loaded w',
          Login.load_cookies cfg cookie_file w = (Ret loaded, w')
          /\ host w' = host w
          /\ (present = false ->
              loaded = false /\ browser w' = browser w /\ clock w' = clock w)).
Proof.
  split.
  - intros e Hcheck. destruct w as [b0 h env clk tr]. cbn [host] in Hcheck.
    unfold Login.load_cookies, path_exists, host_read. focus. cbn [host].
    rewrite Hcheck. reflexivity.
  - intros present Hcheck.
    destruct (load_cookies_same_host cookie_file w) as (Hhost & _).
    destruct w as [b0 h env clk tr]. cbn [host] in Hcheck, Hhost.
    revert Hhost. unfold Login.load_cookies, path_exists, host_read. focus. cbn [host].
    rewrite Hcheck. cbn [of_result bind_k]. destruct present; cbn [negb].
    + match goal with |- context [try_except ?m ?h ?w1] =>
        destruct (total_try unattended m h) with (w := w1) as (_ & loaded & Hret)
      end.
      { pose proof inject_cookies_unattended. flows ltac:(reflexivity). }
      { intros e. flows ltac:(reflexivity). }
      match goal with |- context [try_except ?m ?h ?w1] =>
        destruct (try_except m h w1) as [o w'] end.
      cbn in Hret. subst o. intros Hhost. cbn in Hhost.
      exists loaded, w'. split; [reflexivity|]. split; [exact Hhost|discriminate].
    + intros _. cbn. do 2 eexists. split; [reflexivity|]. repeat split.
Qed.

(** An entry of the array that is no record stops the injection: the
    records before it were handed to the browser, the ones after it are
    not, and the loop raises. *)
Lemma inject_cookies_malformed (cs : list cookie) (v : jval) (rest : list jitem)
    (w : world B H) :
  exists e w',
    Login.inject_cookies (map JRecord cs ++ JScalar v :: rest) w = (Raise e, w')
    /\ added_cookies (trace w') = added_cookies (trace w) ++ map Login.strip_fields cs
    /\ evolves (fun ev => ev <> Call CRefresh) w w'.
Proof.
  revert w. induction cs as [|c cs IH]; intros w; destruct w as [b0 h env clk tr].
  - cbn. do 2 eexists. split; [reflexivity|]. split; [now rewrite app_nil_r|].
    apply evolves_refl.
  - cbn [map app Login.inject_cookies]. ask; run.
    + match goal with |- context [Login.inject_cookies _ ?w1] =>
        destruct (IH w1) as (e & w' & Einj & Ht & Hev) end.
      rewrite Einj. exists e, w'. split; [reflexivity|].
      cbn [trace] in Ht. split.
      * rewrite Ht, added_cookies_app. cbn. now rewrite <- app_assoc.
      * eapply evolves_trans; [|exact Hev]. grown discriminate.
    + match goal with |- context [Login.inject_cookies _ ?w1] =>
        destruct (IH w1) as (e' & w' & Einj & Ht & Hev) end.
      rewrite Einj. exists e', w'. split; [reflexivity|].
      cbn [trace] in Ht. split.
      * rewrite Ht, !added_cookies_app. cbn. now rewrite app_nil_r, <- app_assoc.
      * eapply evolves_trans; [|exact Hev]. grown discriminate.
Qed.

(** X2: A cookie file whose array holds an entry that is no record: the
    records before that entry are injected, then [load_cookies] gives up
    and returns [False]; the records after it are never injected and the
    page is not reloaded. *)
Theorem load_cookies_malformed_entry (cookie_file : option string) (cs : list cookie)
    (v : jval) (rest : list jitem) (w : world B H) :
  host_exists (or_str cookie_file Login.COOKIE_FILE) (host w) = Ok true ->
  host_read_json (or_str cookie_file Login.COOKIE_FILE) (host w)
    = Ok (map JRecord cs ++ JScalar v :: rest) ->
  fst (drv_get (Login.base_url cfg) (browser w)) = Ok tt ->
  exists w',
    Login.load_cookies cfg cookie_file w = (Ret false, w')
    /\ added_cookies (trace w') = added_cookies (trace w) ++ map Login.strip_fields cs
    /\ evolves (fun ev => ev <> Call CRefresh) w w'.
Proof.
  intros Hfile Hread Hget.
  destruct w as [b0 h env clk tr]. cbn [host browser] in *.
  unfold Login.load_cookies. run. rewrite Hfile. run.
  ask; [|cbn in Hget; discriminate].
  run. rewrite Hread. run. focus.
  match goal with |- context [Login.inject_cookies _ ?w1] =>
    destruct (inject_cookies_malformed cs v rest w1) as (e & w2 & Einj & Ht & Hev) end.
  rewrite Einj. destruct w2 as [b2 h2 env2 clk2 tr2]. cbn [trace] in Ht. run.
  eexists. split; [reflexivity|]. split.
  - cbn [trace]. rewrite added_cookies_app, Ht, !added_cookies_app. cbn.
    now rewrite !app_nil_r.
  - destruct Hev as (Hclk & d & Hd & Hall). cbn [trace clock] in Hclk, Hd. subst tr2.
    rewrite <- !app_assoc. apply evolves_grow; [cbn; lia|].
    repeat (apply Forall_app; split); try exact Hall; repeat constructor; discriminate.
Qed.



(** How the polling loop of [manual_login] returns: [True] right after
    a probe that reported a login, with [save_cookies] on the default file
    as its last step, whatever that step returned; [False] only through
    the time-out. *)
Lemma manual_login_loop_outcomes (start_time : N) (timeout : Z) :
  forall (fuel : nat) (w w' : world B H) (logged_in : bool),
    Login.manual_login_loop cfg fuel start_time timeout w = (Ret logged_in, w') ->
    if logged_in
    then exists w1 saved pre,
           Login.save_cookies None w1 = (Ret saved, w')
           /\ trace w1 = pre ++ [Log LInfo "User is logged in";
                                 Log LSuccess "Login successful!"]
    else exists pre, trace w' = pre ++ [Log LError "Login timeout exceeded"].
Proof.
  induction fuel as [|fuel IH]; intros w w' logged_in;
    destruct w as [b0 h env clk tr]; cbn [Login.manual_login_loop]; walk;
    destruct (Z.of_N (clk - start_time) <? 1000 * timeout)%Z; walk;
    try discriminate;
    try (intros E; injection E as <- <-; eexists; reflexivity).
  focus.
  match goal with |- context [Login.is_logged_in cfg ?w0] =>
    destruct (is_logged_in_cases cfg w0) as (l & w1 & E1 & _ & Htrue) end.
  rewrite E1. destruct l; walk.
  - destruct (Htrue eq_refl) as (k & _ & Ht). destruct w1 as [b1 h1 env1 clk1 tr1].
    walk. focus.
    match goal with |- context [Login.save_cookies None ?w2] =>
      destruct (Login.save_cookies None w2) as [[saved|e|] w3] eqn:Esave end;
      walk; try discriminate.
    intros E; injection E as <- <-.
    cbn [trace] in Ht.
    exists (World b1 h1 env1 clk1 (tr1 ++ [Log LSuccess "Login successful!"])), saved.
    exists (tr ++ [Call (CGet (Login.base_url cfg)); Sleep 3000]
               ++ map probe_event (firstn (S k) Login.login_indicators)).
    split; [exact Esave|]. cbn [trace]. rewrite Ht.
    now rewrite <- !app_assoc.
  - destruct w1 as [b1 h1 env1 clk1 tr1]. walk. apply IH.
Qed.

(** X5: [manual_login] returns [True] only right after a probe reported a
    login, and then its last step was [save_cookies] on the default file,
    whose own result it does not look at; it returns [False] only through
    the time-out. *)
Theorem manual_login_outcomes (fuel : nat) (timeout : Z) (w w' : world B H)
    (logged_in : bool) :
  Login.manual_login cfg fuel timeout w = (Ret logged_in, w') ->
  if logged_in
  then exists w1 saved pre,
         Login.save_cookies None w1 = (Ret saved, w')
         /\ trace w1 = pre ++ [Log LInfo "User is logged in";
                               Log LSuccess "Login successful!"]
  else exists pre, trace w' = pre ++ [Log LError "Login timeout exceeded"].
Proof.
  destruct w as [b0 h env clk tr]. unfold Login.manual_login. walk.
  ask; walk; [|discriminate].
  apply manual_login_loop_outcomes.
Qed.

(** X6: In remote mode [ensure_logged_in] is unattended: whatever the cookie
    file holds and the browser answers, it never opens the login page,
    never polls for a manual login (it needs no fuel) and never saves
    cookies; the host machine is as before. *)
Theorem ensure_logged_in_remote_unattended (fuel : nat) (w : world B H) :
  is_Some (environ w !! "SELENIUM_REMOTE_URL") ->
  exists o w',
    Login.ensure_logged_in cfg fuel w = (o, w')
    /\ o <> OutOfFuel
    /\ evolves unattended w w'
    /\ host w' = host w.
Proof.
  intros [url Hurl]. destruct w as [b0 h env clk tr]. cbn [environ] in Hurl.
  unfold Login.ensure_logged_in. walk. rewrite Hurl. walk. focus.
  match goal with |- context [Login.load_cookies cfg None ?w1] =>
    destruct (load_cookies_unattended None w1) as (Hev1 & Hfuel1);
    destruct (load_cookies_same_host None w1) as (Hh1 & _);
    destruct (Login.load_cookies cfg None w1) as [o1 w2]
  end.
  cbn [fst snd host] in Hev1, Hfuel1, Hh1.
  assert (Hev0 : evolves unattended (World b0 h env clk tr) w2).
  { eapply evolves_trans; [|exact Hev1]. grown ltac:(exact eq_refl). }
  destruct o1 as [loaded|e|]; [|walk; eauto 6 using evolves_refl|congruence];
    try (do 2 eexists; split; [reflexivity|]; split; [discriminate|]; now split).
  walk. destruct loaded; cbn [negb].
  - focus.
    destruct (is_logged_in_unattended w2) as (Hev2 & l & Hret2).
    destruct (is_logged_in_same_host w2) as (Hh2 & _).
    destruct (Login.is_logged_in cfg w2) as [o2 w3]. cbn [fst snd] in Hev2, Hret2, Hh2.
    subst o2. walk. destruct w3 as [b3 h3 env3 clk3 tr3]. cbn [host] in Hh2.
    destruct l; walk;
      (do 2 eexists; split; [reflexivity|]; split; [discriminate|];
       split; [|cbn [host]; congruence];
       eapply evolves_trans; [exact Hev0|]; eapply evolves_trans; [exact Hev2|];
       grown ltac:(exact eq_refl)).
  - destruct w2 as [b2 h2 env2 clk2 tr2]. walk. cbn [host] in Hh1.
    do 2 eexists. split; [reflexivity|]. split; [discriminate|]. split; [|exact Hh1].
    eapply evolves_trans; [exact Hev0|]. grown ltac:(exact eq_refl).
Qed.

(** X7: In local mode [ensure_logged_in] gives up only after the manual
    login: when it returns [False], the last thing it did was to log the
    time-out of [manual_login]. *)
Theorem ensure_logged_in_local_last_resort (fuel : nat) (w w' : world B H) :
  environ w !! "SELENIUM_REMOTE_URL" = None ->
  Login.ensure_logged_in cfg fuel w = (Ret false, w') ->
  exists pre, trace w' = pre ++ [Log LError "Login timeout exceeded"].
Proof.
  intros Henv. destruct w as [b0 h env clk tr]. cbn [environ] in Henv.
  unfold Login.ensure_logged_in. walk. rewrite Henv. walk. focus.
  match goal with |- context [Login.is_logged_in cfg ?w0] =>
    destruct (is_logged_in_cases cfg w0) as (l & w1 & E1 & _ & _) end.
  rewrite E1. walk. destruct l; [discriminate|]. focus.
  destruct (Login.load_cookies cfg None w1) as [[loaded|e|] w2]; cbn [bind_k];
    try discriminate.
  assert (Hrest : forall w3 : world B H,
             (log LInfo "Automatic login failed, manual login required" ;;
              Login.manual_login cfg fuel 120) w3 = (Ret false, w') ->
             exists pre, trace w' = pre ++ [Log LError "Login timeout exceeded"]).
  { intros [b3 h3 env3 clk3 tr3]. unfold Login.manual_login. walk.
    ask; walk; [|discriminate].
    apply (manual_login_loop_outcomes _ _ _ _ _ false). }
  destruct loaded; focus.
  - destruct (is_logged_in_cases cfg w2) as (r & w3 & E3 & _ & _).
    rewrite E3. cbn [bind_k]. destruct r; [discriminate|]. apply Hrest.
  - cbn [ret bind_k]. apply Hrest.
Qed.

End LoginMore.

Section BrowserMore.
Context {P H : Type} `{Selenium P} `{Host H}.
Variable cfg : browser_config.

Lemma launches_app (t1 t2 : list event) : launches (t1 ++ t2) = launches t1 ++ launches t2.
Proof. unfold launches. apply omap_app. Qed.

Lemma quits_app (t1 t2 : list event) : quits (t1 ++ t2) = quits t1 ++ quits t2.
Proof. unfold quits. apply omap_app. Qed.

Lemma provisions_app (t1 t2 : list event) :
  provisions (t1 ++ t2) = provisions t1 ++ provisions t2.
Proof. unfold provisions. apply omap_app. Qed.

(** Runs the next request to the Selenium side. *)
Ltac dial :=
  repeat (progress (focus; brun));
  match goal with
  | |- context [Browser.provision_request ?pr ?op ?s] =>
      let bw := eval cbn [browser Browser.outside] in (browser (Browser.outside s)) in
      let a := fresh "a" in
      let e := fresh "e" in
      let b := fresh "b" in
      let E := fresh "E" in
      destruct (op bw) as [[a|e] b] eqn:E;
      [ rewrite (provision_ok pr op s a b E) | rewrite (provision_err pr op s e b E) ];
      cbn [bind_k try_k browser host environ clock trace
           Browser.driver Browser.is_remote Browser.outside]
  end.

(** X8: Without a remote endpoint (the variable unset, or set to the empty
    string) [create_driver] launches a local Chrome exactly once, with the
    resolved profile directory among its flags, makes no connection
    attempt and never sleeps; when it returns, the handle it returns is the
    one it stored, and [is_remote] is [False]. *)
Theorem create_driver_local_launch (s : Browser.manager P H)
    (user_data_path : string) (h1 : H) :
  or_str (environ (Browser.outside s) !! "SELENIUM_REMOTE_URL") EmptyString = EmptyString ->
  host_resolve
    (or_str (environ (Browser.outside s) !! "CHROME_USER_DATA_DIR")
            (or_str (bc_user_data_dir cfg) "./chrome_data"))
    (host (Browser.outside s)) = Ok user_data_path ->
  host_mkdir user_data_path (host (Browser.outside s)) = (Ok tt, h1) ->
  exists o s',
    Browser.create_driver cfg s = (o, s')
    /\ launches (trace (Browser.outside s')) =
         launches (trace (Browser.outside s)) ++ [local_options cfg user_data_path]
    /\ In (ArgUserDataDir user_data_path) (local_options cfg user_data_path)
    /\ connection_attempts (trace (Browser.outside s')) =
         connection_attempts (trace (Browser.outside s))
    /\ sleeps (trace (Browser.outside s')) = sleeps (trace (Browser.outside s))
    /\ (forall h, o = Ret h ->
          Browser.driver s' = Some h /\ Browser.is_remote s' = Some false).
Proof.
  intros Henv Hresolve Hmkdir.
  destruct s as [d ir [p h env clk tr]].
  cbn [Browser.outside environ host browser trace] in *.
  assert (Hin : In (ArgUserDataDir user_data_path) (local_options cfg user_data_path)).
  { unfold local_options. apply in_or_app. right. apply in_or_app. right. now left. }
  unfold Browser.create_driver, local_options. brun.
  destruct (get_or (bc_headless cfg) false); brun; rewrite Hresolve; brun;
    (focus; erewrite lift_mkdir_ok by (cbn [host Browser.outside]; exact Hmkdir);
     brun; rewrite Henv; brun;
     dial; brun;
     [ unfold Browser.with_driver; brun; dial; brun;
       [ dial; repeat (progress (focus; brun)) | ] | ];
     do 2 eexists; (split; [reflexivity|]);
     cbn [Browser.outside trace Browser.driver Browser.is_remote];
     rewrite ?launches_app, ?connection_attempts_app, ?sleeps_app; cbn;
     rewrite ?app_nil_r;
     repeat split; try tauto; try discriminate; try congruence).
Qed.

Lemma lift_mkdir_err (path : string) (s : Browser.manager P H) (e : exn) (h' : H) :
  host_mkdir path (host (Browser.outside s)) = (Err e, h') ->
  Browser.lift (mkdir path) s =
    (Raise e,
     Browser.Manager (Browser.driver s) (Browser.is_remote s)
       (World (browser (Browser.outside s)) h' (environ (Browser.outside s))
          (clock (Browser.outside s))
          (trace (Browser.outside s) ++ [HostOp (HMkdir path)]))).
Proof. intros E. unfold Browser.lift, mkdir, host_request. now rewrite E. Qed.

(** X9: The profile directory is resolved and created before anything is
    asked of the Selenium side: an error of either is raised to the caller,
    no browser was started and no handle was stored. *)
Theorem create_driver_setup_errors (s : Browser.manager P H) :
  (forall e,
     host_resolve
       (or_str (environ (Browser.outside s) !! "CHROME_USER_DATA_DIR")
               (or_str (bc_user_data_dir cfg) "./chrome_data"))
       (host (Browser.outside s)) = Err e ->
     exists s',
       Browser.create_driver cfg s = (Raise e, s')
       /\ Browser.driver s' = Browser.driver s
       /\ provisions (trace (Browser.outside s')) = provisions (trace (Browser.outside s)))
  /\ (forall user_data_path e h1,
        host_resolve
          (or_str (environ (Browser.outside s) !! "CHROME_USER_DATA_DIR")
                  (or_str (bc_user_data_dir cfg) "./chrome_data"))
          (host (Browser.outside s)) = Ok user_data_path ->
        host_mkdir user_data_path (host (Browser.outside s)) = (Err e, h1) ->
        exists s',
          Browser.create_driver cfg s = (Raise e, s')
          /\ Browser.driver s' = Browser.driver s
          /\ provisions (trace (Browser.outside s'))
             = provisions (trace (Browser.outside s))).
Proof.
  destruct s as [d ir [p h env clk tr]].
  cbn [Browser.outside environ host browser trace Browser.driver]. split.
  - intros e Hresolve. unfold Browser.create_driver. brun.
    destruct (get_or (bc_headless cfg) false); brun; rewrite Hresolve; brun;
      (eexists; split; [reflexivity|]; split; [reflexivity|];
       cbn [Browser.outside trace]; rewrite !provisions_app; cbn;
       now rewrite !app_nil_r).
  - intros user_data_path e h1 Hresolve Hmkdir. unfold Browser.create_driver. brun.
    destruct (get_or (bc_headless cfg) false); brun; rewrite Hresolve; brun;
      (focus; erewrite lift_mkdir_err by (cbn [host Browser.outside]; exact Hmkdir);
       brun; eexists; split; [reflexivity|]; split; [reflexivity|];
       cbn [Browser.outside trace]; rewrite !provisions_app; cbn;
       now rewrite !app_nil_r).
Qed.

Lemma bind_ret_inv {S A C : Type} (m : M S A) (k : A -> M S C) (s s' : S) (c : C) :
  bind m k s = (Ret c, s') ->
  exists a s1, m s = (Ret a, s1) /\ k a s1 = (Ret c, s').
Proof.
  unfold bind. destruct (m s) as [[a|e|] s1]; cbn [bind_k]; intros E;
    [eauto|discriminate..].
Qed.

(** X10: The handle [create_driver] returns is the one it stored, and a
    [close] after it quits that handle, once, and clears it. *)
Theorem create_driver_then_close (s s1 : Browser.manager P H) (h : nat) :
  Browser.create_driver cfg s = (Ret h, s1) ->
  Browser.driver s1 = Some h
  /\ exists s2,
       Browser.close s1 = (Ret tt, s2)
       /\ Browser.driver s2 = None
       /\ quits (trace (Browser.outside s2)) = quits (trace (Browser.outside s1)) ++ [h].
Proof.
  intros Hret. unfold Browser.create_driver in Hret.
  repeat (cbv beta zeta in Hret;
          apply bind_ret_inv in Hret; destruct Hret as (? & ? & ? & Hret)).
  assert (Hd : Browser.driver s1 = Some h).
  { match goal with Hg : Browser.get_driver ?s0 = (Ret ?d, ?s') |- _ =>
      unfold Browser.get_driver in Hg; injection Hg as <- <- end.
    match type of Hret with context [Browser.driver ?s0] =>
      destruct (Browser.driver s0) eqn:Ed; cbn in Hret; [|discriminate];
      injection Hret as -> <-; exact Ed end. }
  split; [exact Hd|].
  destruct s1 as [d1 ir1 [p1 h1 env1 clk1 tr1]]. cbn in Hd. subst d1.
  unfold Browser.close. brun. dial; brun;
    (eexists; split; [reflexivity|]; split; [reflexivity|];
     cbn [Browser.outside trace]; rewrite !quits_app; cbn; now rewrite ?app_nil_r).
Qed.

End BrowserMore.

Section StaysFacts.
Context {B H : Type} `{WebDriver B} `{Host H}.
Variable allowed : event -> Prop.

Lemma safe_keeps {A} (m : M (world B H) A) :
  safe allowed m -> keeps (evolves allowed) m.
Proof. intros Hm w. apply Hm. Qed.

Lemma total_keeps {A} (m : M (world B H) A) :
  total allowed m -> keeps (evolves allowed) m.
Proof. intros Hm w. apply Hm. Qed.

Lemma keeps_evolves_bind {A C} (m : M (world B H) A) (k : A -> M (world B H) C) :
  keeps (evolves allowed) m -> (forall a, keeps (evolves allowed) (k a)) ->
  keeps (evolves allowed) (bind m k).
Proof. apply keeps_bind. intros w1 w2 w3. apply evolves_trans. Qed.

Lemma keeps_evolves_try {A} (m : M (world B H) A) (handler : exn -> M (world B H) A) :
  keeps (evolves allowed) m -> (forall e, keeps (evolves allowed) (handler e)) ->
  keeps (evolves allowed) (try_except m handler).
Proof. apply keeps_try. intros w1 w2 w3. apply evolves_trans. Qed.
End StaysFacts.

(** Proves that a computation adds only allowed events, however it ends. *)
Ltac stays side :=
  repeat first
    [ assumption
    | solve [auto]
    | solve [apply total_keeps; auto]
    | solve [apply safe_keeps; auto]
    | apply keeps_out_of_fuel; intro; apply evolves_refl
    | apply keeps_evolves_bind; [|intro]
    | apply keeps_evolves_try; [|intro]
    | match goal with
      | |- keeps _ (match ?x with _ => _ end) => destruct x
      | |- keeps _ (if ?x then _ else _) => destruct x
      end
    | solve [apply total_keeps; flows side]
    | solve [apply safe_keeps; flows side] ].

Section UploaderMore.
Context {B H : Type} `{WebDriver B} `{Host H}.
Variable cfg : config.

Lemma random_delay_on_page (min_delay max_delay : option N) :
  total on_page (@Uploader._random_delay B H _ cfg min_delay max_delay).
Proof. unfold Uploader._random_delay. flows ltac:(cbn; auto). Qed.

Lemma find_file_input_loop_on_page (selectors : list string) :
  safe on_page (@Uploader.find_file_input_loop B H _ selectors).
Proof.
  induction selectors as [|sel rest IH]; cbn [Uploader.find_file_input_loop];
    flows ltac:(cbn; auto).
Qed.

Lemma find_file_input_on_page : safe on_page (@Uploader._find_file_input B H _).
Proof.
  pose proof find_file_input_loop_on_page. unfold Uploader._find_file_input.
  flows ltac:(cbn; auto).
Qed.

Lemma send_keys_to_on_page (v : jsval) (keys : string) :
  safe on_page (@Uploader.send_keys_to B H _ v keys).
Proof. unfold Uploader.send_keys_to. flows ltac:(cbn; auto). Qed.

Lemma scan_buttons_on_page (buttons : list elem) :
  forall count, total on_page (@Uploader.scan_buttons B H _ buttons count).
Proof.
  induction buttons as [|b rest IH]; intros count; cbn [Uploader.scan_buttons];
    flows ltac:(cbn; auto).
Qed.

Lemma any_displayed_on_page (elements : list elem) :
  safe on_page (@Uploader.any_displayed B H _ elements).
Proof.
  induction elements as [|e rest IH]; cbn [Uploader.any_displayed];
    flows ltac:(cbn; auto).
Qed.

Lemma check_edit_cover_on_page (count : nat) :
  total on_page (@Uploader.check_edit_cover B H _ count).
Proof.
  pose proof any_displayed_on_page. unfold Uploader.check_edit_cover.
  flows ltac:(cbn; auto).
Qed.

Lemma scan_progress_on_page (progress : list elem) :
  forall count, total on_page (@Uploader.scan_progress B H _ progress count).
Proof.
  induction progress as [|p rest IH]; intros count; cbn [Uploader.scan_progress];
    flows ltac:(cbn; auto).
Qed.

Lemma check_progress_on_page (count : nat) :
  total on_page (@Uploader.check_progress B H _ count).
Proof.
  pose proof scan_progress_on_page. unfold Uploader.check_progress.
  flows ltac:(cbn; auto).
Qed.

Lemma upload_poll_on_page (count : nat) :
  total on_page (@Uploader.upload_poll B H _ count).
Proof.
  pose proof scan_buttons_on_page. pose proof check_edit_cover_on_page.
  pose proof check_progress_on_page. unfold Uploader.upload_poll.
  flows ltac:(cbn; auto).
Qed.

Lemma wait_upload_loop_on_page (start_time : N) (timeout : Z) (fuel : nat) :
  forall count,
    keeps (evolves on_page) (@Uploader.wait_upload_loop B H _ fuel start_time timeout count).
Proof.
  pose proof upload_poll_on_page.
  induction fuel as [|fuel IH]; intros count; cbn [Uploader.wait_upload_loop];
    stays ltac:(cbn; auto).
Qed.

Lemma wait_for_upload_on_page (fuel : nat) (timeout : option Z) :
  keeps (evolves on_page) (@Uploader._wait_for_upload B H _ cfg fuel timeout).
Proof.
  pose proof wait_upload_loop_on_page. unfold Uploader._wait_for_upload.
  stays ltac:(cbn; auto).
Qed.

Lemma turn_on_loop_on_page (selectors : list string) :
  total on_page (@Uploader.turn_on_loop B H _ selectors).
Proof.
  induction selectors as [|sel rest IH]; cbn [Uploader.turn_on_loop];
    flows ltac:(cbn; auto).
Qed.

Lemma handle_content_check_popup_on_page :
  total on_page (@Uploader._handle_content_check_popup B H _).
Proof.
  pose proof turn_on_loop_on_page. unfold Uploader._handle_content_check_popup.
  flows ltac:(cbn; auto).
Qed.

Lemma fill_elements_on_page (caption : string) (elements : list elem) :
  forall i, total on_page (@Uploader.fill_elements B H _ caption i elements).
Proof.
  induction elements as [|el rest IH]; intros i; cbn [Uploader.fill_elements];
    flows ltac:(cbn; auto).
Qed.

Lemma fill_selectors_on_page (caption : string) (selectors : list string) :
  total on_page (@Uploader.fill_selectors B H _ caption selectors).
Proof.
  pose proof (fill_elements_on_page caption).
  induction selectors as [|sel rest IH]; cbn [Uploader.fill_selectors];
    flows ltac:(cbn; auto).
Qed.

Lemma fill_caption_on_page (title : string) (tags : list string) :
  total on_page (@Uploader._fill_caption B H _ cfg title tags).
Proof.
  pose proof fill_selectors_on_page. unfold Uploader._fill_caption.
  flows ltac:(cbn; auto).
Qed.

Lemma click_post_buttons_on_page (buttons : list elem) :
  total on_page (@Uploader.click_post_buttons B H _ buttons).
Proof.
  induction buttons as [|b rest IH]; cbn [Uploader.click_post_buttons];
    flows ltac:(cbn; auto).
Qed.

Lemma post_selector_loop_on_page (selectors : list string) :
  total on_page (@Uploader.post_selector_loop B H _ selectors).
Proof.
  induction selectors as [|sel rest IH]; cbn [Uploader.post_selector_loop];
    flows ltac:(cbn; auto).
Qed.

Lemma button_texts_on_page (buttons : list elem) :
  safe on_page (@Uploader.button_texts B H _ buttons).
Proof.
  induction buttons as [|b rest IH]; cbn [Uploader.button_texts];
    flows ltac:(cbn; auto).
Qed.

Lemma click_post_button_on_page : total on_page (@Uploader._click_post_button B H _).
Proof.
  pose proof click_post_buttons_on_page. pose proof post_selector_loop_on_page.
  pose proof button_texts_on_page. unfold Uploader._click_post_button.
  flows ltac:(cbn; auto).
Qed.

Lemma close_selector_loop_on_page (selectors : list string) :
  total on_page (@Uploader.close_selector_loop B H _ selectors).
Proof.
  induction selectors as [|sel rest IH]; cbn [Uploader.close_selector_loop];
    flows ltac:(cbn; auto).
Qed.

Lemma handle_warning_popups_on_page :
  total on_page (@Uploader._handle_warning_popups B H _).
Proof.
  pose proof close_selector_loop_on_page. pose proof any_displayed_on_page.
  pose proof (total_safe _ _ click_post_button_on_page).
  unfold Uploader._handle_warning_popups.
  flows ltac:(cbn; auto).
Qed.

Lemma success_loop_on_page (selectors : list string) :
  total on_page (@Uploader.success_loop B H _ selectors).
Proof.
  induction selectors as [|sel rest IH]; cbn [Uploader.success_loop];
    flows ltac:(cbn; auto).
Qed.

Lemma wait_post_loop_on_page (start_time : N) (timeout : Z) (fuel : nat) :
  keeps (evolves on_page) (@Uploader.wait_post_loop B H _ fuel start_time timeout).
Proof.
  pose proof success_loop_on_page.
  induction fuel as [|fuel IH]; cbn [Uploader.wait_post_loop];
    stays ltac:(cbn; auto).
Qed.

Lemma wait_for_post_complete_on_page (fuel : nat) (timeout : Z) :
  keeps (evolves on_page) (@Uploader._wait_for_post_complete B H _ fuel timeout).
Proof.
  pose proof wait_post_loop_on_page. unfold Uploader._wait_for_post_complete.
  stays ltac:(cbn; auto).
Qed.

Lemma log_run (lvl : level) (msg : string) (w : world B H) :
  log lvl msg w =
    (Ret tt, World (browser w) (host w) (environ w) (clock w) (trace w ++ [Log lvl msg])).
Proof. reflexivity. Qed.

(** X12: Once the login check has passed, [upload_video] loads the upload
    page, and from then on stays on it whatever the browser answers and
    however the upload ends: no other navigation, no reload, no cookie
    handed to the browser, nothing created or written on the host. *)
Theorem upload_video_stays_on_page (fuel : nat) (video_path title : string)
    (tags : option (list string)) (resolved : string) (w w2 : world B H) :
  host_resolve video_path (host w) = Ok resolved ->
  host_exists resolved (host w) = Ok true ->
  Login.ensure_logged_in cfg fuel
    (World (browser w) (host w) (environ w) (clock w)
       (trace w ++ [HostOp (HResolve video_path); HostOp (HExists resolved);
                    Log LInfo ("Starting upload: " +:+ Uploader.path_name resolved)]))
    = (Ret true, w2) ->
  exists rest,
    trace (snd (Uploader.upload_video cfg fuel video_path title tags w))
      = trace w2 ++ Log LInfo "Navigating to upload page..."
                 :: Call (CGet (Uploader.upload_url cfg)) :: rest
    /\ Forall on_page rest.
Proof.
  intros Hresolve Hexists Hlogin.
  pose proof random_delay_on_page. pose proof find_file_input_on_page.
  pose proof send_keys_to_on_page. pose proof wait_for_upload_on_page.
  pose proof handle_content_check_popup_on_page. pose proof fill_caption_on_page.
  pose proof click_post_button_on_page. pose proof handle_warning_popups_on_page.
  pose proof wait_for_post_complete_on_page.
  destruct w as [b0 h env clk tr]. cbn [browser host environ clock trace] in *.
  unfold Uploader.upload_video. cbv zeta.
  focus. unfold path_resolve, host_read. cbn [host]. rewrite Hresolve.
  cbn [of_result bind_k browser host environ clock trace].
  focus. unfold path_exists, host_read. cbn [host]. rewrite Hexists.
  cbn [of_result bind_k browser host environ clock trace negb].
  focus. rewrite log_run. cbn [bind_k browser host environ clock trace].
  rewrite <- !app_assoc. cbn [app].
  focus. rewrite Hlogin. cbn [bind_k negb].
  destruct w2 as [b2 h2 env2 clk2 tr2].
  focus. rewrite log_run. cbn [bind_k browser host environ clock trace].
  ask.
  - match goal with |- context [try_k ?hd (?m ?w3)] =>
      change (try_k hd (m w3)) with (try_except m hd w3);
      assert (Hk : keeps (evolves on_page) (try_except m hd))
        by stays ltac:(cbn; auto);
      destruct (Hk w3) as (_ & d & Ht & Hd)
    end.
    rewrite Ht. cbn [trace]. exists d. split; [|exact Hd].
    now rewrite <- !app_assoc.
  - cbn [try_k bind bind_k log emit ret browser host environ clock trace snd].
    eexists. split; [rewrite <- !app_assoc; cbn [app]; reflexivity|].
    repeat constructor.
Qed.

Lemma bind_raise_inv {S A C : Type} (m : M S A) (k : A -> M S C) (s s' : S) (e : exn) :
  bind m k s = (Raise e, s') ->
  m s = (Raise e, s') \/ exists a s1, m s = (Ret a, s1) /\ k a s1 = (Raise e, s').
Proof.
  unfold bind. destruct (m s) as [[a|e0|] s1]; cbn [bind_k]; intros E;
    [eauto| |discriminate].
  injection E as -> ->. now left.
Qed.

(** X11: [upload_video] raises only what stands before its [try]: an error
    of [Path.resolve], of [Path.exists], or an exception of
    [ensure_logged_in] for a file that is there.  Everything after the
    login check is caught. *)
Theorem upload_video_raises_before_try (fuel : nat) (video_path title : string)
    (tags : option (list string)) (w w' : world B H) (e : exn) :
  Uploader.upload_video cfg fuel video_path title tags w = (Raise e, w') ->
  host_resolve video_path (host w) = Err e
  \/ exists resolved,
       host_resolve video_path (host w) = Ok resolved
       /\ (host_exists resolved (host w) = Err e
           \/ host_exists resolved (host w) = Ok true
              /\ Login.ensure_logged_in cfg fuel
                   (World (browser w) (host w) (environ w) (clock w)
                      (trace w ++ [HostOp (HResolve video_path);
                                   HostOp (HExists resolved);
                                   Log LInfo ("Starting upload: "
                                              +:+ Uploader.path_name resolved)]))
                 = (Raise e, w')).
Proof.
  intros Hret. destruct w as [b0 h env clk tr].
  cbn [browser host environ clock trace].
  unfold Uploader.upload_video in Hret. cbv zeta in Hret.
  apply bind_raise_inv in Hret. destruct Hret as [Hr|(resolved & w1 & Hr & Hret)];
    unfold path_resolve, host_read in Hr; cbn [host browser environ clock trace] in Hr;
    destruct (host_resolve video_path h) as [r|e0]; cbn [of_result] in Hr;
    try discriminate.
  { injection Hr as -> _. now left. }
  injection Hr as -> <-. right. exists resolved. split; [reflexivity|].
  apply bind_raise_inv in Hret. destruct Hret as [Hr|(present & w1 & Hr & Hret)];
    unfold path_exists, host_read in Hr; cbn [host browser environ clock trace] in Hr;
    destruct (host_exists resolved h) as [p|e0]; cbn [of_result] in Hr;
    try discriminate.
  { injection Hr as -> _. now left. }
  injection Hr as -> <-. right.
  destruct present; cbn [negb] in Hret.
  2:{ apply bind_raise_inv in Hret.
      destruct Hret as [Hr|(? & ? & _ & Hr)]; discriminate. }
  split; [reflexivity|].
  apply bind_raise_inv in Hret. destruct Hret as [Hr|([] & w1 & Hr & Hret)];
    [discriminate|].
  injection Hr as <-. cbn [browser host environ clock trace] in Hret.
  rewrite <- !app_assoc in Hret. cbn [app] in Hret.
  apply bind_raise_inv in Hret. destruct Hret as [Hr|(logged_in & w1 & Hr & Hret)];
    [exact Hr|].
  exfalso. destruct logged_in; cbn [negb] in Hret.
  - unfold try_except in Hret.
    match type of Hret with try_k _ ?r = _ => destruct r as [[a|e0|] w3] end;
      discriminate.
  - apply bind_raise_inv in Hret.
    destruct Hret as [Hr'|(? & ? & _ & Hr')]; discriminate.
Qed.

Lemma post_clicks_app (t1 t2 : list event) :
  post_clicks (t1 ++ t2) = post_clicks t1 ++ post_clicks t2.
Proof. unfold post_clicks. apply omap_app. Qed.

Lemma reported_ret {A} (good : A -> bool) (a : A) :
  good a = false -> click_reported good (@ret (world B H) A a).
Proof.
  intros Hbad w. exists []. cbn. split; [now rewrite app_nil_r|].
  intros a' [= <-]. congruence.
Qed.

Lemma reported_quiet {A} (m : M (world B H) A) :
  keeps (evolves on_page) m -> click_reported (fun _ => false) m.
Proof.
  intros Hm w. destruct (Hm w) as (_ & d & Ht & _). exists d. split; [exact Ht|].
  discriminate.
Qed.

Lemma reported_after {A C} (allowed : event -> Prop) (good : C -> bool)
    (m : M (world B H) A) (k : A -> M (world B H) C) :
  keeps (evolves allowed) m ->
  (forall a, click_reported good (k a)) ->
  click_reported good (bind m k).
Proof.
  intros Hm Hk w. destruct (Hm w) as (_ & d1 & Ht1 & _). unfold bind.
  destruct (m w) as [[a|e|] w1]; cbn [bind_k fst snd] in *;
    [|exists d1; split; [exact Ht1|discriminate]..].
  destruct (Hk a w1) as (d2 & Ht2 & Hgood). exists (d1 ++ d2).
  split; [now rewrite Ht2, Ht1, app_assoc|].
  intros c Hc Hg. rewrite post_clicks_app. intros Hnil.
  apply app_eq_nil in Hnil. now apply (Hgood c Hc Hg).
Qed.

Lemma reported_before {A C} (good1 : A -> bool) (good : C -> bool)
    (m : M (world B H) A) (k : A -> M (world B H) C) :
  click_reported good1 m ->
  (forall a, good1 a = true -> keeps (evolves on_page) (k a)) ->
  (forall a, good1 a = false -> click_reported good (k a)) ->
  click_reported good (bind m k).
Proof.
  intros Hm Hyes Hno w. destruct (Hm w) as (d1 & Ht1 & Hgood1). unfold bind.
  destruct (m w) as [[a|e|] w1]; cbn [bind_k fst snd] in *;
    [|exists d1; split; [exact Ht1|discriminate]..].
  destruct (good1 a) eqn:Eg.
  - destruct (Hyes a Eg w1) as (_ & d2 & Ht2 & _). exists (d1 ++ d2).
    split; [now rewrite Ht2, Ht1, app_assoc|].
    intros c _ _. rewrite post_clicks_app. intros Hnil.
    apply app_eq_nil in Hnil. now apply (Hgood1 a eq_refl Eg).
  - destruct (Hno a Eg w1) as (d2 & Ht2 & Hgood). exists (d1 ++ d2).
    split; [now rewrite Ht2, Ht1, app_assoc|].
    intros c Hc Hg. rewrite post_clicks_app. intros Hnil.
    apply app_eq_nil in Hnil. now apply (Hgood c Hc Hg).
Qed.

Lemma reported_try {A} (good : A -> bool) (m : M (world B H) A)
    (handler : exn -> M (world B H) A) :
  click_reported good m ->
  (forall e, click_reported good (handler e)) ->
  click_reported good (try_except m handler).
Proof.
  intros Hm Hh w. destruct (Hm w) as (d1 & Ht1 & Hgood1). unfold try_except.
  destruct (m w) as [[a|e|] w1]; cbn [try_k fst snd] in *;
    [exists d1; split; [exact Ht1|exact Hgood1]| |exists d1; split; [exact Ht1|discriminate]].
  destruct (Hh e w1) as (d2 & Ht2 & Hgood). exists (d1 ++ d2).
  split; [now rewrite Ht2, Ht1, app_assoc|].
  intros c Hc Hg. rewrite post_clicks_app. intros Hnil.
  apply app_eq_nil in Hnil. now apply (Hgood c Hc Hg).
Qed.

Lemma reported_click_log {A} (good : A -> bool) (msg : string) (a : A) :
  String.prefix "Post button clicked" msg = true ->
  click_reported good (log LInfo msg ;; @ret (world B H) A a).
Proof.
  intros Hmsg w. exists [Log LInfo msg]. split; [reflexivity|].
  intros _ _ _. unfold post_clicks. cbn [omap list_omap]. rewrite Hmsg. discriminate.
Qed.

Lemma click_post_buttons_reports (buttons : list elem) :
  click_reported some_true (@Uploader.click_post_buttons B H _ buttons).
Proof.
  induction buttons as [|button rest IH]; cbn [Uploader.click_post_buttons].
  - now apply reported_ret.
  - apply (reported_before some_true).
    + apply reported_try; [|intro; now apply reported_ret].
      apply (reported_after on_page); [stays ltac:(cbn; auto)|intro t].
      destruct (String.eqb (lower (strip t)) "post"); [|now apply reported_ret].
      apply (reported_after on_page); [stays ltac:(cbn; auto)|intro].
      apply (reported_after on_page); [stays ltac:(cbn; auto)|intro].
      apply reported_try; [|intro];
        (apply (reported_after on_page); [stays ltac:(cbn; auto)|intro]);
        now apply reported_click_log.
    + intros [[|]|] Hg; try discriminate. stays ltac:(cbn; auto).
    + intros [[|]|] Hg; try discriminate; [now apply reported_ret|exact IH].
Qed.

Lemma post_selector_loop_reports (selectors : list string) :
  click_reported some_true (@Uploader.post_selector_loop B H _ selectors).
Proof.
  induction selectors as [|selector rest IH]; cbn [Uploader.post_selector_loop].
  - now apply reported_ret.
  - apply (reported_before some_true).
    + apply reported_try; [|intro; now apply reported_ret].
      apply (reported_after on_page); [stays ltac:(cbn; auto)|intro].
      apply (reported_after on_page); [stays ltac:(cbn; auto)|intro].
      apply (reported_after on_page); [stays ltac:(cbn; auto)|intro].
      apply reported_click_log.
      exact (prefix_append "Post button clicked" (" via " +:+ selector)).
    + intros [[|]|] Hg; try discriminate. stays ltac:(cbn; auto).
    + intros [[|]|] Hg; try discriminate; [now apply reported_ret|exact IH].
Qed.

(** [_click_post_button] returns [True] only after it reported a click. *)
Lemma click_post_button_reports :
  click_reported (fun clicked : bool => clicked) (@Uploader._click_post_button B H _).
Proof.
  pose proof button_texts_on_page.
  unfold Uploader._click_post_button.
  apply (reported_after on_page); [stays ltac:(cbn; auto)|intro].
  apply (reported_before some_true).
  { apply reported_try.
    - apply (reported_after on_page); [stays ltac:(cbn; auto)|intro result].
      destruct (Uploader.is_js_str result "clicked" || Uploader.is_js_str result "clicked_parent").
      + apply reported_click_log.
        exact (prefix_append "Post button clicked"
                 (" via JavaScript (" +:+ Uploader.str_of_jsval result +:+ ")")).
      + apply (reported_after on_page); [stays ltac:(cbn; auto)|intro]. now apply reported_ret.
    - intro. apply (reported_after on_page); [stays ltac:(cbn; auto)|intro].
      now apply reported_ret. }
  { intros [[|]|] Hg; try discriminate. stays ltac:(cbn; auto). }
  intros [[|]|] Hg; try discriminate; [now apply reported_ret|].
  apply (reported_after on_page); [stays ltac:(cbn; auto)|intro].
  apply (reported_before some_true).
  { apply reported_try.
    - apply (reported_after on_page); [stays ltac:(cbn; auto)|intro buttons].
      apply (reported_after on_page); [stays ltac:(cbn; auto)|intro].
      apply click_post_buttons_reports.
    - intro. apply (reported_after on_page); [stays ltac:(cbn; auto)|intro].
      now apply reported_ret. }
  { intros [[|]|] Hg'; try discriminate. stays ltac:(cbn; auto). }
  intros [[|]|] Hg'; try discriminate; [now apply reported_ret|].
  apply (reported_before some_true).
  { apply post_selector_loop_reports. }
  { intros [[|]|] Hg''; try discriminate. stays ltac:(cbn; auto). }
  intros [[|]|] Hg''; try discriminate; [now apply reported_ret|].
  apply (reported_after on_page); [stays ltac:(cbn; auto)|intro]. now apply reported_ret.
Qed.

(** X13: [upload_video] returns [True] only for a file that is there, after
    [ensure_logged_in] returned [True], and after a click on the Post
    button was reported in the upload that followed. *)
Theorem upload_video_success_needs_post_click (fuel : nat) (video_path title : string)
    (tags : option (list string)) (w w' : world B H) :
  Uploader.upload_video cfg fuel video_path title tags w = (Ret true, w') ->
  exists resolved w2 d,
    host_resolve video_path (host w) = Ok resolved
    /\ host_exists resolved (host w) = Ok true
    /\ Login.ensure_logged_in cfg fuel
         (World (browser w) (host w) (environ w) (clock w)
            (trace w ++ [HostOp (HResolve video_path); HostOp (HExists resolved);
                         Log LInfo ("Starting upload: " +:+ Uploader.path_name resolved)]))
       = (Ret true, w2)
    /\ trace w' = trace w2 ++ d
    /\ post_clicks d <> [].
Proof.
  intros Hret.
  pose proof random_delay_on_page. pose proof find_file_input_on_page.
  pose proof send_keys_to_on_page. pose proof wait_for_upload_on_page.
  pose proof handle_content_check_popup_on_page. pose proof fill_caption_on_page.
  pose proof handle_warning_popups_on_page. pose proof wait_for_post_complete_on_page.
  destruct w as [b0 h env clk tr]. cbn [browser host environ clock trace].
  unfold Uploader.upload_video in Hret. cbv zeta in Hret.
  apply bind_ret_inv in Hret. destruct Hret as (resolved & w1 & Hr & Hret).
  unfold path_resolve, host_read in Hr. cbn [host browser environ clock trace] in Hr.
  destruct (host_resolve video_path h) as [r|e0] eqn:Eresolve; cbn [of_result] in Hr;
    [|discriminate].
  injection Hr as -> <-.
  apply bind_ret_inv in Hret. destruct Hret as (present & w1 & Hr & Hret).
  unfold path_exists, host_read in Hr. cbn [host browser environ clock trace] in Hr.
  destruct (host_exists resolved h) as [p|e0] eqn:Eexists; cbn [of_result] in Hr;
    [|discriminate].
  injection Hr as -> <-.
  destruct present; cbn [negb] in Hret.
  2:{ apply bind_ret_inv in Hret. destruct Hret as (? & ? & _ & Hr). discriminate. }
  apply bind_ret_inv in Hret. destruct Hret as ([] & w1 & Hr & Hret).
  injection Hr as <-. cbn [browser host environ clock trace] in Hret.
  rewrite <- !app_assoc in Hret. cbn [app] in Hret.
  apply bind_ret_inv in Hret. destruct Hret as (logged_in & w2 & Hlogin & Hret).
  destruct logged_in; cbn [negb] in Hret.
  2:{ apply bind_ret_inv in Hret. destruct Hret as (? & ? & _ & Hr). discriminate. }
  exists resolved, w2.
  match type of Hret with try_except ?body ?hd _ = _ =>
    assert (Hk : click_reported (fun posted : bool => posted) (try_except body hd))
  end.
  { apply reported_try.
    2:{ intro. apply (reported_after on_page); [stays ltac:(cbn; auto)|intro].
        now apply reported_ret. }
    apply (reported_after on_page); [stays ltac:(cbn; auto)|intro].
    apply (reported_after (fun _ => True)); [stays ltac:(cbn; auto)|intro].
    apply (reported_after on_page); [stays ltac:(cbn; auto)|intro].
    apply (reported_after on_page); [stays ltac:(cbn; auto)|intro].
    apply (reported_after on_page); [stays ltac:(cbn; auto)|intro file_input].
    destruct (negb (Uploader.js_truthy file_input)).
    { apply (reported_after on_page); [stays ltac:(cbn; auto)|intro]. now apply reported_ret. }
    apply (reported_after on_page); [stays ltac:(cbn; auto)|intro].
    apply (reported_after on_page); [stays ltac:(cbn; auto)|intro uploaded].
    destruct (negb uploaded).
    { apply (reported_after on_page); [stays ltac:(cbn; auto)|intro]. now apply reported_ret. }
    apply (reported_after on_page); [stays ltac:(cbn; auto)|intro].
    apply (reported_after on_page); [stays ltac:(cbn; auto)|intro].
    apply (reported_after on_page); [stays ltac:(cbn; auto)|intro].
    apply (reported_after on_page); [stays ltac:(cbn; auto)|intro].
    apply (reported_after on_page); [stays ltac:(cbn; auto)|intro].
    apply (reported_after on_page); [stays ltac:(cbn; auto)|intro].
    apply (reported_before (fun clicked : bool => clicked)).
    - apply click_post_button_reports.
    - intros [|] Hg; [|discriminate]. stays ltac:(cbn; auto).
    - intros [|] Hg; [discriminate|].
      apply (reported_after on_page); [stays ltac:(cbn; auto)|intro]. now apply reported_ret. }
  destruct (Hk w2) as (d & Ht & Hgood). rewrite Hret in Ht, Hgood. cbn [fst snd] in *.
  exists d. split; [reflexivity|]. split; [exact Eexists|]. split; [exact Hlogin|].
  split; [exact Ht|]. now apply (Hgood true).
Qed.











End UploaderMore.

(** ** Runs on concrete worlds *)

Lemma load_cookies_failures_witness :
  exists loaded w',
    Login.load_cookies Scenario.default_config None Scenario.remote_world
      = (Ret loaded, w')
    /\ host w' = host Scenario.remote_world
    /\ (false = false ->
        loaded = false /\ browser w' = browser Scenario.remote_world
        /\ clock w' = clock Scenario.remote_world).
Proof.
  apply (proj2 (load_cookies_failures Scenario.default_config None Scenario.remote_world)
           false).
  reflexivity.
Defined.

Lemma load_cookies_malformed_entry_witness :
  exists w',
    Login.load_cookies Scenario.default_config None Cases.damaged_world = (Ret false, w')
    /\ added_cookies (trace w') =
         added_cookies (trace Cases.damaged_world)
         ++ map Login.strip_fields [Scenario.session_cookie]
    /\ evolves (fun ev => ev <> Call CRefresh) Cases.damaged_world w'.
Proof.
  apply (load_cookies_malformed_entry Scenario.default_config None
           [Scenario.session_cookie] (JStr "oops") [JRecord Scenario.locale_cookie]
           Cases.damaged_world); reflexivity.
Defined.



Lemma manual_login_outcomes_witness :
  exists w1 saved pre,
    Login.save_cookies None w1 =
      (Ret saved, snd (Login.manual_login Scenario.default_config 1 120 Scenario.local_world))
    /\ trace w1 = pre ++ [Log LInfo "User is logged in"; Log LSuccess "Login successful!"].
Proof.
  apply (manual_login_outcomes Scenario.default_config 1 120 Scenario.local_world
           (snd (Login.manual_login Scenario.default_config 1 120 Scenario.local_world))
           true).
  vm_compute. reflexivity.
Defined.

Lemma ensure_logged_in_remote_unattended_witness :
  exists o w',
    Login.ensure_logged_in Scenario.default_config 0 Scenario.remote_world = (o, w')
    /\ o <> OutOfFuel
    /\ evolves unattended Scenario.remote_world w'
    /\ host w' = host Scenario.remote_world.
Proof.
  apply (ensure_logged_in_remote_unattended Scenario.default_config 0
           Scenario.remote_world).
  vm_compute. eauto.
Defined.

Lemma ensure_logged_in_local_last_resort_witness :
  exists pre,
    trace (snd (Login.ensure_logged_in Scenario.default_config 15 Cases.signed_out_world))
    = pre ++ [Log LError "Login timeout exceeded"].
Proof.
  apply (ensure_logged_in_local_last_resort Scenario.default_config 15
           Cases.signed_out_world
           (snd (Login.ensure_logged_in Scenario.default_config 15 Cases.signed_out_world))).
  - reflexivity.
  - vm_compute. reflexivity.
Defined.

Lemma create_driver_local_launch_witness :
  exists o s',
    Browser.create_driver Scenario.default_browser_config Cases.desk = (o, s')
    /\ launches (trace (Browser.outside s')) =
         launches (trace (Browser.outside Cases.desk))
         ++ [local_options Scenario.default_browser_config "./chrome_data"]
    /\ In (ArgUserDataDir "./chrome_data")
          (local_options Scenario.default_browser_config "./chrome_data")
    /\ connection_attempts (trace (Browser.outside s')) =
         connection_attempts (trace (Browser.outside Cases.desk))
    /\ sleeps (trace (Browser.outside s')) = sleeps (trace (Browser.outside Cases.desk))
    /\ (forall h, o = Ret h ->
          Browser.driver s' = Some h /\ Browser.is_remote s' = Some false).
Proof.
  apply (create_driver_local_launch Scenario.default_browser_config Cases.desk
           "./chrome_data" (Scenario.Files ["./chrome_data"] [])); reflexivity.
Defined.

Lemma create_driver_setup_errors_witness :
  exists s',
    Browser.create_driver Scenario.default_browser_config Cases.readonly_desk
      = (Raise (Exn OSError "[Errno 30] Read-only file system"), s')
    /\ Browser.driver s' = Browser.driver Cases.readonly_desk
    /\ provisions (trace (Browser.outside s'))
       = provisions (trace (Browser.outside Cases.readonly_desk)).
Proof.
  apply (proj2 (create_driver_setup_errors Scenario.default_browser_config
                  Cases.readonly_desk)
           "./chrome_data" (Exn OSError "[Errno 30] Read-only file system")
           Cases.Readonly); reflexivity.
Defined.

Lemma create_driver_then_close_witness :
  Browser.driver (snd (Browser.create_driver Scenario.default_browser_config
                         (Scenario.booting 2))) = Some 1%nat
  /\ exists s2,
       Browser.close (snd (Browser.create_driver Scenario.default_browser_config
                             (Scenario.booting 2))) = (Ret tt, s2)
       /\ Browser.driver s2 = None
       /\ quits (trace (Browser.outside s2)) =
            quits (trace (Browser.outside
                            (snd (Browser.create_driver Scenario.default_browser_config
                                    (Scenario.booting 2))))) ++ [1%nat].
Proof.
  apply (create_driver_then_close Scenario.default_browser_config (Scenario.booting 2)).
  vm_compute. reflexivity.
Defined.

Lemma upload_video_stays_on_page_witness :
  exists rest,
    trace (snd (Uploader.upload_video Scenario.default_config 5 "clip.mp4" "My trip"
                  (Some ["travel"; "summer"]) Cases.studio_world))
      = trace (snd (Login.ensure_logged_in Scenario.default_config 5
                      (World Cases.studio_page (Scenario.Files ["clip.mp4"] []) ∅ 0
                         [HostOp (HResolve "clip.mp4"); HostOp (HExists "clip.mp4");
                          Log LInfo "Starting upload: clip.mp4"])))
        ++ Log LInfo "Navigating to upload page..."
           :: Call (CGet (Uploader.upload_url Scenario.default_config)) :: rest
    /\ Forall on_page rest.
Proof.
  apply (upload_video_stays_on_page Scenario.default_config 5 "clip.mp4" "My trip"
           (Some ["travel"; "summer"]) "clip.mp4" Cases.studio_world).
  - reflexivity.
  - reflexivity.
  - vm_compute. reflexivity.
Defined.

Lemma upload_video_raises_before_try_witness :
  host_resolve ("clip" +:+ Scenario.nul +:+ ".mp4") (host Scenario.local_world)
    = Err (Exn ValueError "embedded null byte")
  \/ exists resolved,
       host_resolve ("clip" +:+ Scenario.nul +:+ ".mp4") (host Scenario.local_world)
         = Ok resolved
       /\ (host_exists resolved (host Scenario.local_world)
           = Err (Exn ValueError "embedded null byte")
           \/ host_exists resolved (host Scenario.local_world) = Ok true
              /\ Login.ensure_logged_in Scenario.default_config 0
                   (World (browser Scenario.local_world) (host Scenario.local_world)
                      (environ Scenario.local_world) (clock Scenario.local_world)
                      (trace Scenario.local_world
                       ++ [HostOp (HResolve ("clip" +:+ Scenario.nul +:+ ".mp4"));
                           HostOp (HExists resolved);
                           Log LInfo ("Starting upload: "
                                      +:+ Uploader.path_name resolved)]))
                 = (Raise (Exn ValueError "embedded null byte"),
                    snd (Uploader.upload_video Scenario.default_config 0
                           ("clip" +:+ Scenario.nul +:+ ".mp4") "My trip" None
                           Scenario.local_world))).
Proof.
  apply (upload_video_raises_before_try Scenario.default_config 0
           ("clip" +:+ Scenario.nul +:+ ".mp4") "My trip" None Scenario.local_world).
  vm_compute. reflexivity.
Defined.

Lemma upload_video_success_needs_post_click_witness :
  exists resolved w2 d,
    host_resolve "clip.mp4" (host Cases.studio_world) = Ok resolved
    /\ host_exists resolved (host Cases.studio_world) = Ok true
    /\ Login.ensure_logged_in Scenario.default_config 5
         (World (browser Cases.studio_world) (host Cases.studio_world)
            (environ Cases.studio_world) (clock Cases.studio_world)
            (trace Cases.studio_world
             ++ [HostOp (HResolve "clip.mp4"); HostOp (HExists resolved);
                 Log LInfo ("Starting upload: " +:+ Uploader.path_name resolved)]))
       = (Ret true, w2)
    /\ trace (snd (Uploader.upload_video Scenario.default_config 5 "clip.mp4" "My trip"
                     (Some ["travel"; "summer"]) Cases.studio_world))
       = trace w2 ++ d
    /\ post_clicks d <> [].
Proof.
  apply (upload_video_success_needs_post_click Scenario.default_config 5 "clip.mp4"
           "My trip" (Some ["travel"; "summer"]) Cases.studio_world).
  vm_compute. reflexivity.
Defined.


